(** * The discrete-bottleneck VAE of [langCoder/VAE_lang_gru.py]

    A shallow embedding of the encoder / decoder / loss triad of the
    [VAE] class and of the per-batch body of [train], together with the
    properties the specification states about them.

    Modelling conventions.
    - A float tensor is a nested list of real numbers; the arithmetic is
      the exact arithmetic of [R], so rounding, overflow, [inf] and [nan]
      are outside the model.
    - A Python or torch exception is a value [Raise e] of the [result]
      type; statements that follow a raising statement are not executed.
    - Layers and elementwise operations are total functions on lists.
      What torch does on shapes that do not conform (an error, or a
      broadcast) is modelled only where stated; the statements assume
      conforming shapes, [well_formed] for the parameters.
    - The random number generator is an explicit state threaded through
      every function that draws noise.
    - Gradients are not modelled: only forward values are. *)

From Stdlib Require Import String Reals Lra Lia Bool Arith List Permutation.
Import ListNotations.
Local Open Scope R_scope.

(** ** Exceptions *)

Inductive exn : Type :=
| RuntimeError
| ValueError
| TypeError
| ZeroDivisionError.

Inductive result (A : Type) : Type :=
| Ok (a : A)
| Raise (e : exn).

Arguments Ok {A} a.
Arguments Raise {A} e.

Definition bind {A B : Type} (r : result A) (k : A -> result B) : result B :=
  match r with
  | Ok a => k a
  | Raise e => Raise e
  end.

Notation "x <- r ;; k" := (bind r (fun x => k))
  (at level 61, r at next level, right associativity).

Fixpoint mapM {A B : Type} (f : A -> result B) (l : list A) : result (list B) :=
  match l with
  | [] => Ok []
  | a :: l' => b <- f a ;; bs <- mapM f l' ;; Ok (b :: bs)
  end.

(** ** Tensors as nested lists *)

Abbreviation Vec := (list R).
Abbreviation Mat := (list (list R)).
Abbreviation Tensor3 := (list (list (list R))).

Definition Rsum (v : list R) : R := fold_right Rplus 0 v.

Definition map2 {A B C : Type} (f : A -> B -> C) (u : list A) (v : list B) : list C :=
  map (fun p => f (fst p) (snd p)) (combine u v).

(** [shape2 B n X]: [X] has shape (B, n). *)
Definition shape2 (B n : nat) (X : Mat) : Prop :=
  length X = B /\ Forall (fun v => length v = n) X.

(** [shape3 B W K T]: [T] has shape (B, W, K). *)
Definition shape3 (B W K : nat) (T : Tensor3) : Prop :=
  length T = B /\ Forall (shape2 W K) T.

(** Boolean test that two matrices have the same shape. *)
Fixpoint same_shape (X Y : Mat) : bool :=
  match X, Y with
  | [], [] => true
  | u :: X', v :: Y' => (length u =? length v)%nat && same_shape X' Y'
  | _, _ => false
  end.

(** Shape side conditions on literal tensors. *)
Ltac shape := repeat first [reflexivity | split | constructor].

(** ** The torch primitives the model calls *)

Module Torch.

(** [torch.zeros(B, n)]. *)
Definition zeros (B n : nat) : Mat := repeat (repeat 0 n) B.

(** [nn.Linear]: [y = x W^T + b], one row of [weight] per output feature. *)
Record Linear : Type := {
  weight : Mat;
  bias : Vec
}.

Definition dot (u v : Vec) : R := Rsum (map2 Rmult u v).

Definition linear_vec (L : Linear) (x : Vec) : Vec :=
  map2 (fun w b => dot x w + b) (weight L) (bias L).

Definition linear (L : Linear) (X : Mat) : Mat := map (linear_vec L) X.

(** [nn.GRUCell]: the three gates are stored stacked (reset, update, new)
    in [weight_ih], [weight_hh], [bias_ih] and [bias_hh]. *)
Record GRUCell : Type := {
  hidden_size : nat;
  weight_ih : Mat;
  weight_hh : Mat;
  bias_ih : Vec;
  bias_hh : Vec
}.

Definition sigmoid (x : R) : R := 1 / (1 + exp (- x)).

Definition chunk3 (H : nat) (v : Vec) : Vec * Vec * Vec :=
  (firstn H v, firstn H (skipn H v), skipn (2 * H) v).

Definition gru_cell_vec (C : GRUCell) (x h : Vec) : Vec :=
  let gi := linear_vec {| weight := weight_ih C; bias := bias_ih C |} x in
  let gh := linear_vec {| weight := weight_hh C; bias := bias_hh C |} h in
  let '(i_r, i_z, i_n) := chunk3 (hidden_size C) gi in
  let '(h_r, h_z, h_n) := chunk3 (hidden_size C) gh in
  let r := map2 (fun a b => sigmoid (a + b)) i_r h_r in
  let z := map2 (fun a b => sigmoid (a + b)) i_z h_z in
  let n := map2 (fun a rb => tanh (a + rb)) i_n (map2 Rmult r h_n) in
  map2 (fun zn hk => (1 - fst zn) * snd zn + fst zn * hk) (combine z n) h.

Definition gru_cell (C : GRUCell) (X Hx : Mat) : Mat := map2 (gru_cell_vec C) X Hx.

(** [torch.softmax(_, dim=-1)] and [logsumexp(dim=-1)] on one vector. *)
Definition softmax_vec (v : Vec) : Vec :=
  map (fun x => exp x / Rsum (map exp v)) v.

Definition softmax (X : Mat) : Mat := map softmax_vec X.

Definition logsumexp (v : Vec) : R := ln (Rsum (map exp v)).

(** A categorical distribution over one event vector, and the one that
    [torch.distributions.OneHotCategorical(logits=...)] builds from the
    event vector [l]: the stored logits are normalised by subtracting
    their log-sum-exp and the probabilities are the softmax of the
    stored logits. *)
Record Categorical : Type := {
  logits : Vec;
  probs : Vec
}.

Definition from_logits (l : Vec) : Categorical :=
  let normalised := map (fun x => x - logsumexp l) l in
  {| logits := normalised; probs := softmax_vec normalised |}.

(** The argument validation of the constructor on a tensor with two
    batch axes.  The check of the [real_vector] constraint regroups the
    tensor as [shape[:-1] + (-1,)], which torch refuses with
    [RuntimeError] when a batch axis has size 0, that is, when there is
    no event vector at all.  The check of the [simplex] constraint asks
    of every probability vector non-negative entries and a sum within
    [1e-6] of 1; when it fails the constructor raises [ValueError]. *)
Definition real_vector_check (t : Tensor3) : result unit :=
  if (length (concat t) =? 0)%nat then Raise RuntimeError else Ok tt.

Definition simplex_check (p : Vec) : bool :=
  forallb (fun x => if Rle_dec 0 x then true else false) p
  && (if Rlt_dec (Rabs (Rsum p - 1)) (1 / 1000000) then true else false).

(** [torch.distributions.OneHotCategorical(logits=l)] on a tensor of
    shape (batch, steps, events). *)
Definition OneHotCategorical (l : Tensor3) : result (list (list Categorical)) :=
  _ <- real_vector_check l ;;
  let dist := map (map from_logits) l in
  if forallb (forallb (fun d => simplex_check (probs d))) dist
  then Ok dist else Raise ValueError.

(** [torch.distributions.kl_divergence] for two categoricals: the sum
    over the event axis of [p.probs * (p.logits - q.logits)].  torch
    overwrites the entries at which [q.probs] or [p.probs] is exactly
    zero; [probs_pos] below shows that over [R] there are none. *)
Definition kl_divergence (p q : Categorical) : R :=
  Rsum (map2 Rmult (probs p) (map2 Rminus (logits p) (logits q))).

(** [t.expand(...)] along one axis: an axis of size 1 is repeated, an
    axis of the requested size is kept, anything else is an error. *)
Definition expand {A : Type} (n : nat) (l : list A) : result (list A) :=
  match l with
  | [a] => Ok (repeat a n)
  | _ => if (length l =? n)%nat then Ok l else Raise RuntimeError
  end.

(** [prior.expand(t.shape)] for three axes; the requested sizes are read
    off the nested list [t]. *)
Definition expand_as (prior t : Tensor3) : result Tensor3 :=
  ps <- expand (length t) prior ;;
  mapM (fun pm_tm =>
          pm <- expand (length (snd pm_tm)) (fst pm_tm) ;;
          mapM (fun pv_tv => expand (length (snd pv_tv)) (fst pv_tv))
               (combine pm (snd pm_tm)))
       (combine ps t).

(** [torch.stack] of a Python list of equally shaped tensors. *)
Definition stack {A : Type} (ts : list (list A)) : result (list (list A)) :=
  match ts with
  | [] => Raise RuntimeError
  | t :: ts' =>
      if forallb (fun u => (length u =? length t)%nat) ts'
      then Ok ts else Raise RuntimeError
  end.

(** Exchange of the first two axes: [permute(1, 0, 2)] on a stacked
    3-axis tensor and [t()] on a stacked 2-axis one. *)
Definition transpose01 {A : Type} (d : A) (ts : list (list A)) : list (list A) :=
  map (fun b => map (fun t => nth b t d) ts) (seq 0 (length (hd [] ts))).

(** [F.mse_loss(input, target, reduction='sum')].  Shapes that differ
    are reported as an error (torch would first try to broadcast them;
    that case is outside the model). *)
Definition mse_loss_sum (input target : Mat) : result R :=
  if same_shape input target
  then Ok (Rsum (map Rsum (map2 (map2 (fun x t => (x - t) * (x - t))) input target)))
  else Raise RuntimeError.

(** [F.binary_cross_entropy_with_logits(input, target, reduction='sum')];
    torch raises [ValueError] when the two sizes differ. *)
Definition bce_term (x t : R) : R :=
  - (t * ln (sigmoid x) + (1 - t) * ln (1 - sigmoid x)).

Definition binary_cross_entropy_with_logits_sum (input target : Mat) : result R :=
  if same_shape input target
  then Ok (Rsum (map Rsum (map2 (map2 bce_term) input target)))
  else Raise ValueError.

End Torch.

Import Torch.

(** Python's [a / b] on integers. *)
Definition py_truediv (a b : nat) : result R :=
  if (b =? 0)%nat then Raise ZeroDivisionError else Ok (INR a / INR b).

(** A loss scalar divided by [inputs.size(0)].  For an empty batch torch
    yields [nan] or [inf], which [R] does not represent; statements
    about the quotient assume a non-empty batch. *)
Definition div_size (x : R) (n : nat) : R := x / INR n.

(** ** The model *)

Record VAE : Type := {
  input_size : nat;
  word_length : nat;
  dictionary_size : nat;
  temperature : R;
  training : bool;
  encoder_gru : GRUCell;
  hidden_to_token : Linear;
  token_to_hidden : Linear;
  decoder_gru : GRUCell;
  output_mean : Linear;
  output_logvar : Linear
}.

(** The parameter shapes of [nn.Linear(in_features, out_features)] and of
    [nn.GRUCell(input, hidden)]. *)
Definition linear_shape (in_features out_features : nat) (L : Linear) : Prop :=
  shape2 out_features in_features (weight L) /\ length (bias L) = out_features.

Definition gru_shape (input hidden : nat) (C : GRUCell) : Prop :=
  hidden_size C = hidden /\
  shape2 (3 * hidden) input (weight_ih C) /\
  shape2 (3 * hidden) hidden (weight_hh C) /\
  length (bias_ih C) = (3 * hidden)%nat /\
  length (bias_hh C) = (3 * hidden)%nat.

(** A model as [__init__] builds it from positive sizes. *)
Record well_formed (self : VAE) : Prop := {
  wf_input_size : (0 < input_size self)%nat;
  wf_word_length : (0 < word_length self)%nat;
  wf_dictionary_size : (0 < dictionary_size self)%nat;
  wf_encoder_gru : gru_shape (input_size self) (input_size self) (encoder_gru self);
  wf_hidden_to_token :
    linear_shape (input_size self) (dictionary_size self) (hidden_to_token self);
  wf_token_to_hidden :
    linear_shape (dictionary_size self) (input_size self) (token_to_hidden self);
  wf_decoder_gru : gru_shape (input_size self) (input_size self) (decoder_gru self);
  wf_output_mean : linear_shape (input_size self) (input_size self) (output_mean self);
  wf_output_logvar : linear_shape (input_size self) (input_size self) (output_logvar self)
}.

(** The parameter shapes alone, whatever the sizes. *)
Definition init_shapes (self : VAE) : Prop :=
  gru_shape (input_size self) (input_size self) (encoder_gru self) /\
  linear_shape (input_size self) (dictionary_size self) (hidden_to_token self) /\
  linear_shape (dictionary_size self) (input_size self) (token_to_hidden self) /\
  gru_shape (input_size self) (input_size self) (decoder_gru self) /\
  linear_shape (input_size self) (input_size self) (output_mean self) /\
  linear_shape (input_size self) (input_size self) (output_logvar self).

(** Every bias of the model is zero. *)
Definition zero_biases (self : VAE) : Prop :=
  Forall (fun b => b = 0) (bias_ih (encoder_gru self)) /\
  Forall (fun b => b = 0) (bias_hh (encoder_gru self)) /\
  Forall (fun b => b = 0) (bias (hidden_to_token self)) /\
  Forall (fun b => b = 0) (bias (token_to_hidden self)) /\
  Forall (fun b => b = 0) (bias_ih (decoder_gru self)) /\
  Forall (fun b => b = 0) (bias_hh (decoder_gru self)) /\
  Forall (fun b => b = 0) (bias (output_mean self)) /\
  Forall (fun b => b = 0) (bias (output_logvar self)).

(** ** The loss *)

Definition compute_recontruct_loss (inputs recon : Mat) (loss : string) : result R :=
  if String.eqb loss "mse" then
    s <- mse_loss_sum recon inputs ;;
    Ok (div_size s (length inputs))
  else
    s <- binary_cross_entropy_with_logits_sum recon inputs ;;
    Ok (div_size s (length inputs)).

Definition compute_KLD_loss (self : VAE) (logits : Tensor3) : result R :=
  logits_dist <- OneHotCategorical logits ;;
  p0 <- py_truediv 1 (dictionary_size self) ;;
  let prior :=
    map (map (map ln)) [repeat (repeat p0 (dictionary_size self)) (word_length self)] in
  prior_batch <- expand_as prior logits ;;
  prior_dist <- OneHotCategorical prior_batch ;;
  let kl := map2 (map2 kl_divergence) logits_dist prior_dist in
  Ok (Rsum (map Rsum kl)).

(** The default of the [loss] parameter of [compute_recontruct_loss]. *)
Definition default_loss : string := "mse".

(** [elbo]; its call to [compute_recontruct_loss] leaves [loss] at the
    default. *)
Definition elbo (self : VAE) (inputs recon : Mat) (logits : Tensor3) (beta : R)
  : result (R * R * R) :=
  recon_loss <- compute_recontruct_loss inputs recon default_loss ;;
  kld_loss <- compute_KLD_loss self logits ;;
  let loss := recon_loss + beta * kld_loss in
  Ok (loss, recon_loss, kld_loss).

(** ** Python values returned through a tuple *)

Inductive pyobj : Type :=
| PyMat (X : Mat)
| PyTensor3 (T : Tensor3)
| PyIndex (w : list (list nat)).

(** [a, b, c, d, e = t]: the tuple must hold exactly five values. *)
Definition unpack5 (t : list pyobj) : result (pyobj * pyobj * pyobj * pyobj * pyobj) :=
  match t with
  | [a; b; c; d; e] => Ok (a, b, c, d, e)
  | _ => Raise ValueError
  end.

(** [a, b, c, d = t]. *)
Definition unpack4 (t : list pyobj) : result (pyobj * pyobj * pyobj * pyobj) :=
  match t with
  | [a; b; c; d] => Ok (a, b, c, d)
  | _ => Raise ValueError
  end.

(** [model.train()] and [model.eval()] set the [training] flag. *)
Definition set_training (self : VAE) (flag : bool) : VAE :=
  {| input_size := input_size self;
     word_length := word_length self;
     dictionary_size := dictionary_size self;
     temperature := temperature self;
     training := flag;
     encoder_gru := encoder_gru self;
     hidden_to_token := hidden_to_token self;
     token_to_hidden := token_to_hidden self;
     decoder_gru := decoder_gru self;
     output_mean := output_mean self;
     output_logvar := output_logvar self |}.

(** An optimizer step on the [token_to_hidden] parameters: the one
    attribute of the model object is overwritten. *)
Definition update_token_to_hidden (self : VAE) (L : Linear) : VAE :=
  {| input_size := input_size self;
     word_length := word_length self;
     dictionary_size := dictionary_size self;
     temperature := temperature self;
     training := training self;
     encoder_gru := encoder_gru self;
     hidden_to_token := hidden_to_token self;
     token_to_hidden := L;
     decoder_gru := decoder_gru self;
     output_mean := output_mean self;
     output_logvar := output_logvar self |}.

(** [t.view(B, W, -1)]: the elements are regrouped in storage order and
    the last size is inferred.  torch rejects the request when [B * W]
    is zero or does not divide the number of elements. *)
Fixpoint chunks {A : Type} (n k : nat) (l : list A) : list (list A) :=
  match k with
  | O => []
  | S k' => firstn n l :: chunks n k' (skipn n l)
  end.

Definition view_infer_last (B W : nat) (X : Mat) : result Tensor3 :=
  let flat := concat X in
  let numel := length flat in
  let newsize := (B * W)%nat in
  if (newsize =? 0)%nat then Raise RuntimeError
  else if (numel mod newsize =? 0)%nat
       then Ok (chunks W B (chunks (numel / newsize) newsize flat))
       else Raise RuntimeError.

(** [t[:, n]] on a 3-axis tensor. *)
Definition select1 (n : nat) (T : Tensor3) : Mat := map (fun m => nth n m []) T.

(** ** The rest of the module: layers, loaders and arrays *)

(** [nn.LSTMCell] with biases: the four gates are stored stacked. *)
Record LSTMCell : Type := {
  lstm_weight_ih : Mat;
  lstm_weight_hh : Mat;
  lstm_bias_ih : Vec;
  lstm_bias_hh : Vec
}.

(** What [init_weights] tells apart with [type(layer) == ...]: a linear
    layer with or without bias, the two recurrent cells (with their
    biases), and every other module. *)
Inductive Layer : Type :=
| LayerLinear (L : Linear)
| LayerLinearNoBias (weight : Mat)
| LayerLSTMCell (C : LSTMCell)
| LayerGRUCell (C : GRUCell)
| LayerOther.

(** Python's [sub in name] on strings. *)
Definition substring_in (sub name : string) : bool :=
  match String.index 0 sub name with
  | Some _ => true
  | None => false
  end.

(** [t[start:stop].fill_(1.)] along the first axis: the slice is clipped
    to the tensor; [one] rewrites an entry of the slice. *)
Fixpoint fill_slice_from {A : Type} (i start stop : nat) (one : A -> A) (l : list A)
  : list A :=
  match l with
  | [] => []
  | x :: l' =>
      (if (start <=? i)%nat && (i <? stop)%nat then one x else x)
        :: fill_slice_from (S i) start stop one l'
  end.

Definition fill_slice {A : Type} (start stop : nat) (one : A -> A) (l : list A) : list A :=
  fill_slice_from 0 start stop one l.

(** A parameter tensor with one axis or with two. *)
Inductive Param : Type :=
| Param1 (v : Vec)
| Param2 (t : Mat).

(** [nn.init.zeros_] and a fill with ones. *)
Definition zeros_ (v : Vec) : Vec := map (fun _ => 0) v.

Definition ones_ (v : Vec) : Vec := map (fun _ => 1) v.

(** [layer.named_parameters()] of the two cells, and the cell once the
    loop has rewritten its parameters in place. *)
Definition LSTMCell_named_parameters (C : LSTMCell) : list (string * Param) :=
  [("weight_ih"%string, Param2 (lstm_weight_ih C));
   ("weight_hh"%string, Param2 (lstm_weight_hh C));
   ("bias_ih"%string, Param1 (lstm_bias_ih C));
   ("bias_hh"%string, Param1 (lstm_bias_hh C))].

Definition GRUCell_named_parameters (C : GRUCell) : list (string * Param) :=
  [("weight_ih"%string, Param2 (weight_ih C));
   ("weight_hh"%string, Param2 (weight_hh C));
   ("bias_ih"%string, Param1 (bias_ih C));
   ("bias_hh"%string, Param1 (bias_hh C))].

Definition LSTMCell_rewritten (C : LSTMCell) (ps : list (string * Param)) : LSTMCell :=
  match ps with
  | [(_, Param2 w_ih); (_, Param2 w_hh); (_, Param1 b_ih); (_, Param1 b_hh)] =>
      {| lstm_weight_ih := w_ih; lstm_weight_hh := w_hh;
         lstm_bias_ih := b_ih; lstm_bias_hh := b_hh |}
  | _ => C
  end.

Definition GRUCell_rewritten (C : GRUCell) (ps : list (string * Param)) : GRUCell :=
  match ps with
  | [(_, Param2 w_ih); (_, Param2 w_hh); (_, Param1 b_ih); (_, Param1 b_hh)] =>
      {| hidden_size := hidden_size C;
         weight_ih := w_ih; weight_hh := w_hh; bias_ih := b_ih; bias_hh := b_hh |}
  | _ => C
  end.

(** A data loader: the size of its dataset and the batches one pass
    over it yields. *)
Record DataLoader : Type := {
  dataset_len : nat;
  batches : list Mat
}.

(** [np.concatenate(arrays, axis=0)] on arrays with two axes: numpy
    raises [ValueError] on an empty list and when the rows of the arrays
    do not all have one length. *)
Definition np_concatenate {A : Type} (arrays : list (list (list A)))
  : result (list (list A)) :=
  match arrays with
  | [] => Raise ValueError
  | _ =>
      let rows := concat arrays in
      if forallb (fun r => (length r =? length (hd [] rows))%nat) rows
      then Ok rows else Raise ValueError
  end.

(** [x / D] inside the f-string that [train] prints. *)
Definition print_ratio (x : R) (D : nat) : result unit :=
  if (D =? 0)%nat then Raise ZeroDivisionError else Ok tt.

(** [model.state_dict()]: the learned parameters. *)
Definition state_dict (self : VAE)
  : GRUCell * Linear * Linear * GRUCell * Linear * Linear :=
  (encoder_gru self, hidden_to_token self, token_to_hidden self,
   decoder_gru self, output_mean self, output_logvar self).

(** A one-hot vector: a single 1 among zeros. *)
Definition one_hot_vec (before after : nat) : Vec :=
  repeat 0 before ++ 1 :: repeat 0 after.

(** ** A concrete instance of the collaborators

    A generator that is a counter, a noise source that returns its mean,
    a relaxed sampler that is the softmax and a discretizer that always
    picks symbol 0.  They show that the contracts assumed below are
    satisfiable and give the statements a model to be evaluated on. *)

Definition counter_normal_ (like : Mat) (mean std : R) (g : nat) : Mat * nat :=
  (map (map (fun _ => mean)) like, S g).

Definition counter_gumbel_softmax (l : Mat) (tau : R) (g : nat) : Mat * nat :=
  (softmax l, S g).

Definition first_symbol_discretize (z : Mat) : Mat * list nat :=
  (map (fun v => match v with [] => [] | _ :: v' => 1 :: map (fun _ => 0) v' end) z,
   map (fun _ => 0%nat) z).

Definition unit_linear : Linear := {| weight := [[1]]; bias := [0] |}.

Definition vocab_linear : Linear := {| weight := [[1]; [0]]; bias := [0; 0] |}.

Definition embed_linear : Linear := {| weight := [[1; 0]]; bias := [0] |}.

Definition swapped_linear : Linear := {| weight := [[0; 1]]; bias := [1] |}.

Definition unit_gru : GRUCell :=
  {| hidden_size := 1;
     weight_ih := [[0]; [0]; [1]];
     weight_hh := [[0]; [0]; [1]];
     bias_ih := [0; 0; 0];
     bias_hh := [0; 0; 0] |}.

(** A model with [input_size = 1], [word_length = 2] and
    [dictionary_size = 2]. *)
Definition small_model (mode : bool) : VAE :=
  {| input_size := 1;
     word_length := 2;
     dictionary_size := 2;
     temperature := 1;
     training := mode;
     encoder_gru := unit_gru;
     hidden_to_token := vocab_linear;
     token_to_hidden := embed_linear;
     decoder_gru := unit_gru;
     output_mean := unit_linear;
     output_logvar := unit_linear |}.

(** The same model with a single step. *)
Definition set_word_length_1 (self : VAE) : VAE :=
  {| input_size := input_size self;
     word_length := 1;
     dictionary_size := dictionary_size self;
     temperature := temperature self;
     training := training self;
     encoder_gru := encoder_gru self;
     hidden_to_token := hidden_to_token self;
     token_to_hidden := token_to_hidden self;
     decoder_gru := decoder_gru self;
     output_mean := output_mean self;
     output_logvar := output_logvar self |}.

(** Constructors that fill with zeros, an initialiser that writes ones,
    and an optimizer without state that returns the model it is given. *)

Definition counter_new_Linear (in_features out_features : nat) (g : nat) : Linear * nat :=
  ({| weight := repeat (repeat 0 in_features) out_features;
      bias := repeat 0 out_features |}, S g).

Definition counter_new_GRUCell (input hidden : nat) (g : nat) : GRUCell * nat :=
  ({| hidden_size := hidden;
      weight_ih := repeat (repeat 0 input) (3 * hidden);
      weight_hh := repeat (repeat 0 hidden) (3 * hidden);
      bias_ih := repeat 0 (3 * hidden);
      bias_hh := repeat 0 (3 * hidden) |}, S g).

Definition counter_kaiming_normal_ (t : Mat) (nonlinearity : string) (g : nat) : Mat * nat :=
  (map (map (fun _ => 1)) t, S g).

Definition identity_optimizer_step (state : unit) (model : VAE) (data : Mat) (loss : R)
  : VAE * unit :=
  (model, state).

(** ** Encoder, decoder and driver *)

Section Model.

(** The state of torch's random number generator. *)
Variable Generator : Type.

(** [torch.empty_like(t).normal_(mean, std)]: a tensor of the shape of
    [t] filled with draws from the normal distribution, and the advanced
    generator. *)
Variable normal_ : Mat -> R -> R -> Generator -> Mat * Generator.

(** [base_model.gumbel_softmax(logits, temperature)]. *)
Variable gumbel_softmax : Mat -> R -> Generator -> Mat * Generator.

(** [base_model.straight_through_discretize(z)]: the one-hot tensor and
    the symbol indices. *)
Variable straight_through_discretize : Mat -> Mat * list nat.

(** The collaborators keep the shape of what they are given. *)
Hypothesis normal_shape : forall like mean std g,
  map (@length R) (fst (normal_ like mean std g)) = map (@length R) like.

Hypothesis gumbel_softmax_shape : forall l tau g,
  map (@length R) (fst (gumbel_softmax l tau g)) = map (@length R) l.

Hypothesis discretize_shape : forall z,
  map (@length R) (fst (straight_through_discretize z)) = map (@length R) z /\
  length (snd (straight_through_discretize z)) = length z.

Definition reparameterize (self : VAE) (mu logvar : Mat) (g : Generator)
  : Mat * Generator :=
  if training self then
    let std := map (map (fun x => exp (x * 0.5))) logvar in
    let '(eps, g') := normal_ std 0 1 g in
    (map2 (map2 Rplus) (map2 (map2 Rmult) eps std) mu, g')
  else (mu, g).

(** The three Python lists the encoder appends to. *)
Record EncoderLists : Type := {
  logits_list : list Mat;
  messages_list : list (list nat);
  one_hot_tokens_list : list Mat
}.

(** The body of [for num in range(self.word_length)], run [n] times. *)
Fixpoint Encoder_loop (self : VAE) (sampling : bool) (n : nat)
    (hx gru_input : Mat) (acc : EncoderLists) (g : Generator)
  : EncoderLists * Generator :=
  match n with
  | O => (acc, g)
  | S n' =>
      let hx := gru_cell (encoder_gru self) gru_input hx in
      let pre_logits := linear (hidden_to_token self) hx in
      let '(z_sampled_soft, g) :=
        if sampling && training self
        then gumbel_softmax pre_logits (temperature self) g
        else (softmax pre_logits, g) in
      let '(z_sampled_onehot, word) := straight_through_discretize z_sampled_soft in
      let acc :=
        {| logits_list := logits_list acc ++ [z_sampled_soft];
           messages_list := messages_list acc ++ [word];
           one_hot_tokens_list := one_hot_tokens_list acc ++ [z_sampled_onehot] |} in
      let gru_input := linear (token_to_hidden self) z_sampled_onehot in
      Encoder_loop self sampling n' hx gru_input acc g
  end.

Definition Encoder (self : VAE) (x : Mat) (sampling : bool) (g : Generator)
  : result (Tensor3 * Tensor3 * list (list nat) * Generator) :=
  let batch_size := length x in
  let hx := x in
  let gru_input := zeros batch_size (input_size self) in
  let '(acc, g) :=
    Encoder_loop self sampling (word_length self) hx gru_input
      {| logits_list := []; messages_list := []; one_hot_tokens_list := [] |} g in
  logits <- stack (logits_list acc) ;;
  let logits := transpose01 [] logits in
  one_hot_tokens <- stack (one_hot_tokens_list acc) ;;
  let one_hot_tokens := transpose01 [] one_hot_tokens in
  messages <- stack (messages_list acc) ;;
  let messages := transpose01 0%nat messages in
  Ok (one_hot_tokens, logits, messages, g).

(** The body of [for n in range(self.word_length)], run for the [count]
    indices starting at [n]. *)
Fixpoint Decoder_loop (self : VAE) (z_embeddings : Tensor3) (count n : nat) (hx : Mat)
  : Mat :=
  match count with
  | O => hx
  | S count' =>
      let inputs := select1 n z_embeddings in
      let hx := gru_cell (decoder_gru self) inputs hx in
      Decoder_loop self z_embeddings count' (S n) hx
  end.

(** [z.contiguous().view(-1, z.shape[-1])] lists the rows of [z]: the
    concatenation of its batch elements. *)
Definition Decoder (self : VAE) (z : Tensor3) (g : Generator)
  : result (Mat * Mat * Mat * Generator) :=
  let batch_size := length z in
  z_embeddings <-
    view_infer_last batch_size (word_length self)
      (linear (token_to_hidden self) (concat z)) ;;
  let hx := zeros batch_size (input_size self) in
  let hx := Decoder_loop self z_embeddings (word_length self) 0 hx in
  let mean := linear (output_mean self) hx in
  let logvar := linear (output_logvar self) hx in
  let '(output, g) := reparameterize self mean logvar g in
  Ok (output, mean, logvar, g).

Definition forward (self : VAE) (input : Mat) (g : Generator)
  : result (Mat * Tensor3 * Tensor3 * list (list nat) * Generator) :=
  r <- Encoder self input true g ;;
  let '(one_hot_tokens, logits, messages, g) := r in
  d <- Decoder self one_hot_tokens g ;;
  let '(recons, _, _, g) := d in
  Ok (recons, one_hot_tokens, logits, messages, g).

(** [model(data)]: the value of [forward] as the Python tuple it is. *)
Definition call_model (self : VAE) (data : Mat) (g : Generator)
  : result (list pyobj * Generator) :=
  r <- forward self data g ;;
  let '(recons, one_hot_tokens, logits, messages, g) := r in
  Ok ([PyMat recons; PyTensor3 one_hot_tokens; PyTensor3 logits; PyIndex messages], g).

(** The statements of the batch loop of [train] that follow the
    unpacking, up to the loss (the backward pass and the optimizer step
    are not modelled). *)
Definition train_batch_loss (self : VAE) (data : Mat) (beta : R)
    (names : pyobj * pyobj * pyobj * pyobj * pyobj) : result (R * R * R) :=
  let '(recon, one_hot_token, logits, message, _) := names in
  match recon, one_hot_token with
  | PyMat recon, PyTensor3 one_hot_token => elbo self data recon one_hot_token beta
  | _, _ => Raise TypeError
  end.

(** One iteration of the batch loop of [train]; [model.train()] has run
    at the start of the epoch. *)
Definition train_batch (self : VAE) (data : Mat) (beta : R) (g : Generator)
  : result (R * R * R * Generator) :=
  let model := set_training self true in
  out <- call_model model data g ;;
  let '(tuple, g) := out in
  names <- unpack5 tuple ;;
  losses <- train_batch_loss model data beta names ;;
  Ok (losses, g).

(** One iteration of the loop of [get_messages], after [model.eval()]:
    the reconstruction and the messages it collects. *)
Definition get_messages_batch (self : VAE) (data : Mat) (g : Generator)
  : result (pyobj * pyobj * Generator) :=
  let model := set_training self false in
  out <- call_model model data g ;;
  let '(tuple, g) := out in
  names <- unpack4 tuple ;;
  let '(recon, _, logits, mes) := names in
  Ok (recon, mes, g).

(** ** The specification's vocabulary *)

(** The Kullback-Leibler divergence between two distributions on the
    same finite set of symbols, given by their probability vectors. *)
Definition KL (p q : Vec) : R :=
  Rsum (map2 (fun pk qk => pk * ln (pk / qk)) p q).

(** The uniform distribution over [K] symbols. *)
Definition uniform (K : nat) : Vec := repeat (1 / INR K) K.

(** The probabilities of the categorical distribution that
    [compute_KLD_loss] constructs from one step's vector [v]. *)
Definition categorical_probs (v : Vec) : Vec := probs (from_logits v).

(** The squared error between inputs and reconstruction, summed over the
    feature axis and over the batch axis. *)
Definition sum_squared_error (inputs recon : Mat) : R :=
  Rsum (map (fun xr => Rsum (map2 (fun x r => (x - r) ^ 2) (fst xr) (snd xr)))
            (combine inputs recon)).

(** The cross-entropy variant, summed the same way. *)
Definition sum_cross_entropy (inputs recon : Mat) : R :=
  Rsum (map (fun xr => Rsum (map2 (fun x r => bce_term r x) (fst xr) (snd xr)))
            (combine inputs recon)).

(** [mean + exp(0.5 * logvar) * noise], element by element. *)
Fixpoint map3 {A B C D : Type} (f : A -> B -> C -> D)
    (a : list A) (b : list B) (c : list C) : list D :=
  match a, b, c with
  | x :: a', y :: b', z :: c' => f x y z :: map3 f a' b' c'
  | _, _, _ => []
  end.

Definition sample_value (mean logvar noise : Mat) : Mat :=
  map3 (map3 (fun m lv e => m + exp (0.5 * lv) * e)) mean logvar noise.

(** Element [b][n] of a batch-major sequence is row [b] of step [n]. *)
Definition batch_major {A : Type} (d : A) (B W : nat) (step : nat -> list A)
  : list (list A) :=
  map (fun b => map (fun n => nth b (step n) d) (seq 0 W)) (seq 0 B).

(** The encoder as a state machine: the state before a step and what a
    step emits. *)
Record EncoderState : Type := {
  hidden : Mat;
  cell_input : Mat;
  generator : Generator
}.

Record EncoderOutput : Type := {
  relaxed : Mat;
  one_hot : Mat;
  symbols : list nat
}.

Definition encoder_init (self : VAE) (x : Mat) (g : Generator) : EncoderState :=
  {| hidden := x; cell_input := zeros (length x) (input_size self); generator := g |}.

Definition relaxed_sample (self : VAE) (sampling : bool) (pre_logits : Mat) (g : Generator)
  : Mat * Generator :=
  if training self
  then if sampling then gumbel_softmax pre_logits (temperature self) g
       else (softmax pre_logits, g)
  else (softmax pre_logits, g).

Definition encoder_step (self : VAE) (sampling : bool) (s : EncoderState)
  : EncoderOutput * EncoderState :=
  let h := gru_cell (encoder_gru self) (cell_input s) (hidden s) in
  let zg := relaxed_sample self sampling (linear (hidden_to_token self) h) (generator s) in
  let d := straight_through_discretize (fst zg) in
  ({| relaxed := fst zg; one_hot := fst d; symbols := snd d |},
   {| hidden := h;
      cell_input := linear (token_to_hidden self) (fst d);
      generator := snd zg |}).

Fixpoint encoder_state (self : VAE) (sampling : bool) (x : Mat) (g : Generator) (n : nat)
  : EncoderState :=
  match n with
  | O => encoder_init self x g
  | S n' => snd (encoder_step self sampling (encoder_state self sampling x g n'))
  end.

Definition encoder_output (self : VAE) (sampling : bool) (x : Mat) (g : Generator) (n : nat)
  : EncoderOutput :=
  fst (encoder_step self sampling (encoder_state self sampling x g n)).

(** The decoder as a state machine over the embedded sequence. *)
Definition decoder_embed (self : VAE) (z : Tensor3) : Tensor3 :=
  map (map (linear_vec (token_to_hidden self))) z.

Fixpoint decoder_state (self : VAE) (z : Tensor3) (n : nat) : Mat :=
  match n with
  | O => zeros (length z) (input_size self)
  | S n' =>
      gru_cell (decoder_gru self) (select1 n' (decoder_embed self z))
               (decoder_state self z n')
  end.

Definition decoder_heads (self : VAE) (h : Mat) (g : Generator)
  : Mat * Mat * Mat * Generator :=
  let mean := linear (output_mean self) h in
  let logvar := linear (output_logvar self) h in
  (fst (reparameterize self mean logvar g), mean, logvar,
   snd (reparameterize self mean logvar g)).

(** ** Construction, initialisation and the two drivers *)

(** [nn.init.kaiming_normal_(t, nonlinearity=...)]: the tensor refilled
    with normal draws, and the advanced generator. *)
Variable kaiming_normal_ : Mat -> string -> Generator -> Mat * Generator.

Hypothesis kaiming_normal_shape : forall t nonlinearity g,
  map (@length R) (fst (kaiming_normal_ t nonlinearity g)) = map (@length R) t.

(** The constructors [nn.Linear(in_features, out_features)] and
    [nn.GRUCell(input, hidden)] with torch's default random fill. *)
Variable new_Linear : nat -> nat -> Generator -> Linear * Generator.

Variable new_GRUCell : nat -> nat -> Generator -> GRUCell * Generator.

Hypothesis new_Linear_shape : forall i o g,
  linear_shape i o (fst (new_Linear i o g)).

Hypothesis new_GRUCell_shape : forall i h g,
  gru_shape i h (fst (new_GRUCell i h g)).

(** The state of the Adam optimizer, its constructor from the model and
    the learning rate, and [loss.backward(); optimizer.step()] as one
    update of the model and of that state. *)
Variable OptimizerState : Type.

Variable Adam : VAE -> R -> OptimizerState.

Variable optimizer_step : OptimizerState -> VAE -> Mat -> R -> VAE * OptimizerState.

(** The body of [for name, param in layer.named_parameters()].  In the
    LSTM branch [forget] is the slice filled with ones after the
    zeroing; the GRU branch has none.  [kaiming_normal_] rejects a
    tensor with fewer than two axes. *)
Definition init_named_parameter (forget : option (nat * nat)) (name : string) (p : Param)
    (g : Generator) : result (Param * Generator) :=
  if substring_in "weight" name then
    match p with
    | Param2 t => let '(t, g) := kaiming_normal_ t "tanh" g in Ok (Param2 t, g)
    | Param1 _ => Raise ValueError
    end
  else if substring_in "bias" name then
    match p, forget with
    | Param1 v, None => Ok (Param1 (zeros_ v), g)
    | Param2 t, None => Ok (Param2 (map zeros_ t), g)
    | Param1 v, Some (start, stop) =>
        Ok (Param1 (fill_slice start stop (fun _ => 1) (zeros_ v)), g)
    | Param2 t, Some (start, stop) =>
        Ok (Param2 (fill_slice start stop ones_ (map zeros_ t)), g)
    end
  else Ok (p, g).

Fixpoint init_named_parameters (forget : option (nat * nat)) (ps : list (string * Param))
    (g : Generator) : result (list (string * Param) * Generator) :=
  match ps with
  | [] => Ok ([], g)
  | (name, p) :: ps' =>
      r <- init_named_parameter forget name p g ;;
      let '(p, g) := r in
      r' <- init_named_parameters forget ps' g ;;
      let '(ps', g) := r' in
      Ok ((name, p) :: ps', g)
  end.

Definition init_weights_Linear (L : Linear) (g : Generator) : Linear * Generator :=
  let '(w, g) := kaiming_normal_ (weight L) "relu" g in
  ({| weight := w; bias := zeros_ (bias L) |}, g).

Definition init_weights_LSTMCell (C : LSTMCell) (g : Generator)
  : result (LSTMCell * Generator) :=
  let forget := ((length (lstm_bias_ih C) / 4)%nat, (length (lstm_bias_ih C) / 2)%nat) in
  r <- init_named_parameters (Some forget) (LSTMCell_named_parameters C) g ;;
  let '(ps, g) := r in
  Ok (LSTMCell_rewritten C ps, g).

Definition init_weights_GRUCell (C : GRUCell) (g : Generator)
  : result (GRUCell * Generator) :=
  r <- init_named_parameters None (GRUCell_named_parameters C) g ;;
  let '(ps, g) := r in
  Ok (GRUCell_rewritten C ps, g).

Definition init_weights (layer : Layer) (g : Generator) : result (Layer * Generator) :=
  match layer with
  | LayerLinear L =>
      let '(L, g) := init_weights_Linear L g in Ok (LayerLinear L, g)
  | LayerLinearNoBias w =>
      let '(w, g) := kaiming_normal_ w "relu" g in Ok (LayerLinearNoBias w, g)
  | LayerLSTMCell C =>
      r <- init_weights_LSTMCell C g ;;
      let '(C, g) := r in Ok (LayerLSTMCell C, g)
  | LayerGRUCell C =>
      r <- init_weights_GRUCell C g ;;
      let '(C, g) := r in Ok (LayerGRUCell C, g)
  | LayerOther => Ok (LayerOther, g)
  end.

(** [self.apply(init_weights)]: the six sub-modules in the order of
    their registration; the model itself is no layer [init_weights]
    knows. *)
Definition apply_init_weights (self : VAE) (g : Generator) : result (VAE * Generator) :=
  r <- init_weights_GRUCell (encoder_gru self) g ;;
  let '(e, g) := r in
  let '(h2t, g) := init_weights_Linear (hidden_to_token self) g in
  let '(t2h, g) := init_weights_Linear (token_to_hidden self) g in
  r <- init_weights_GRUCell (decoder_gru self) g ;;
  let '(d, g) := r in
  let '(om, g) := init_weights_Linear (output_mean self) g in
  let '(ol, g) := init_weights_Linear (output_logvar self) g in
  Ok ({| input_size := input_size self;
         word_length := word_length self;
         dictionary_size := dictionary_size self;
         temperature := temperature self;
         training := training self;
         encoder_gru := e;
         hidden_to_token := h2t;
         token_to_hidden := t2h;
         decoder_gru := d;
         output_mean := om;
         output_logvar := ol |}, g).

(** [VAE.__init__]; a new [nn.Module] is in training mode. *)
Definition VAE_init (input_size word_length dictionary_size : nat) (temperature : R)
    (g : Generator) : result (VAE * Generator) :=
  let '(e, g) := new_GRUCell input_size input_size g in
  let '(h2t, g) := new_Linear input_size dictionary_size g in
  let '(t2h, g) := new_Linear dictionary_size input_size g in
  let '(d, g) := new_GRUCell input_size input_size g in
  let '(om, g) := new_Linear input_size input_size g in
  let '(ol, g) := new_Linear input_size input_size g in
  apply_init_weights
    {| input_size := input_size;
       word_length := word_length;
       dictionary_size := dictionary_size;
       temperature := temperature;
       training := true;
       encoder_gru := e;
       hidden_to_token := h2t;
       token_to_hidden := t2h;
       decoder_gru := d;
       output_mean := om;
       output_logvar := ol |} g.

(** The batch loop of [get_messages]: the two Python lists grow by one
    array per batch. *)
Fixpoint get_messages_loop (self : VAE) (bs : list Mat)
    (latent : list Mat) (message : list (list (list nat))) (g : Generator)
  : result (list Mat * list (list (list nat)) * Generator) :=
  match bs with
  | [] => Ok (latent, message, g)
  | data :: bs' =>
      r <- get_messages_batch self data g ;;
      let '(recon, mes, g) := r in
      match recon, mes with
      | PyMat recon, PyIndex mes =>
          get_messages_loop self bs' (latent ++ [recon]) (message ++ [mes]) g
      | _, _ => Raise TypeError
      end
  end.

Definition get_messages (self : VAE) (dataloader : DataLoader) (g : Generator)
  : result (Mat * list (list nat) * Generator) :=
  r <- get_messages_loop self (batches dataloader) [] [] g ;;
  let '(latent, message, g) := r in
  latent <- np_concatenate latent ;;
  message <- np_concatenate message ;;
  Ok (latent, message, g).

(** The batch loop of one epoch of [train], with the three running
    sums. *)
Fixpoint train_batches (model : VAE) (opt : OptimizerState) (bs : list Mat) (beta : R)
    (sums : R * R * R) (g : Generator)
  : result (VAE * OptimizerState * (R * R * R) * Generator) :=
  match bs with
  | [] => Ok (model, opt, sums, g)
  | data :: bs' =>
      r <- train_batch model data beta g ;;
      let '(loss, recon_loss, kld_loss, g) := r in
      let '(model, opt) := optimizer_step opt model data loss in
      let '(train_loss, train_reco, train_KLD) := sums in
      train_batches model opt bs' beta
        (train_loss + loss, train_reco + recon_loss, train_KLD + kld_loss) g
  end.

Fixpoint train_epochs (model : VAE) (opt : OptimizerState) (dataloader : DataLoader)
    (beta : R) (epochs : nat) (g : Generator)
  : result (VAE * Generator) :=
  match epochs with
  | O => Ok (model, g)
  | S epochs' =>
      let model := set_training model true in
      r <- train_batches model opt (batches dataloader) beta (0, 0, 0) g ;;
      let '(model, opt, (train_loss, train_reco, train_KLD), g) := r in
      _ <- print_ratio train_loss (dataset_len dataloader) ;;
      _ <- print_ratio train_reco (dataset_len dataloader) ;;
      _ <- print_ratio train_KLD (dataset_len dataloader) ;;
      train_epochs model opt dataloader beta epochs' g
  end.

(** [train]: what [torch.save] writes is returned.  The constructor of
    the optimizer rejects a negative learning rate. *)
Definition train (model : VAE) (dataloader : DataLoader) (learning_rate : R)
    (epochs : nat) (beta : R) (g : Generator)
  : result (GRUCell * Linear * Linear * GRUCell * Linear * Linear * Generator) :=
  if Rle_dec 0 learning_rate then
    let optimizer := Adam model learning_rate in
    r <- train_epochs model optimizer dataloader beta epochs g ;;
    let '(model, g) := r in
    Ok (state_dict model, g)
  else Raise ValueError.

(** What one call of the model in evaluation mode contributes to
    [get_messages]: the decoder's mean of the encoder's tokens, and the
    symbol indices. *)
Definition eval_tokens (self : VAE) (x : Mat) (g : Generator) : Tensor3 :=
  batch_major [] (length x) (word_length self)
    (fun n => one_hot (encoder_output self true x g n)).

Definition eval_latent (self : VAE) (x : Mat) (g : Generator) : Mat :=
  linear (output_mean self)
    (decoder_state self (eval_tokens self x g) (word_length self)).

Definition eval_messages (self : VAE) (x : Mat) (g : Generator) : list (list nat) :=
  batch_major 0%nat (length x) (word_length self)
    (fun n => symbols (encoder_output self true x g n)).

(** ** The tensor plumbing on concrete values *)

Example transpose01_3x2 :
  transpose01 0%nat [[1; 2]; [3; 4]; [5; 6]]%nat = [[1; 3; 5]; [2; 4; 6]]%nat.
Proof. reflexivity. Qed.

Example stack_empty : stack (@nil (list nat)) = Raise RuntimeError.
Proof. reflexivity. Qed.

Example stack_ragged : stack [[1; 2]; [3]]%nat = Raise RuntimeError.
Proof. reflexivity. Qed.

Example expand_broadcast : expand 3 [7%nat] = Ok [7; 7; 7]%nat.
Proof. reflexivity. Qed.

Example expand_mismatch : expand 3 [7; 8]%nat = Raise RuntimeError.
Proof. reflexivity. Qed.

Example chunks_2x3 : chunks 3 2 [1; 2; 3; 4; 5; 6]%nat = [[1; 2; 3]; [4; 5; 6]]%nat.
Proof. reflexivity. Qed.

Example view_infer_last_2x2 :
  view_infer_last 2 2 [[1; 2]; [3; 4]; [5; 6]; [7; 8]]
  = Ok [[[1; 2]; [3; 4]]; [[5; 6]; [7; 8]]].
Proof. reflexivity. Qed.

Example view_infer_last_indivisible :
  view_infer_last 2 2 [[1; 2]; [3; 4]; [5; 6]] = Raise RuntimeError.
Proof. reflexivity. Qed.

Example unpack5_of_four :
  unpack5 [PyMat []; PyTensor3 []; PyTensor3 []; PyIndex []] = Raise ValueError.
Proof. reflexivity. Qed.

Example unpack4_of_four :
  unpack4 [PyMat []; PyTensor3 []; PyTensor3 []; PyIndex []]
  = Ok (PyMat [], PyTensor3 [], PyTensor3 [], PyIndex []).
Proof. reflexivity. Qed.

(** ** Sums and zips *)

Lemma Rsum_app (u v : list R) : Rsum (u ++ v) = Rsum u + Rsum v.
Proof.
  induction u as [|a u IH]; simpl.
  - lra.
  - rewrite IH. lra.
Qed.

Lemma Rsum_repeat (c : R) (n : nat) : Rsum (repeat c n) = INR n * c.
Proof.
  induction n as [|n IH].
  - simpl. lra.
  - rewrite S_INR. simpl. rewrite IH. lra.
Qed.

Lemma Rsum_map_zero {A : Type} (f : A -> R) (l : list A) :
  (forall a, In a l -> f a = 0) -> Rsum (map f l) = 0.
Proof.
  induction l as [|a l IH]; simpl; intros H.
  - reflexivity.
  - rewrite (H a), IH by auto. lra.
Qed.

Lemma Rsum_map_scale {A : Type} (f : A -> R) (c : R) (l : list A) :
  Rsum (map (fun a => f a / c) l) = Rsum (map f l) / c.
Proof.
  induction l as [|a l IH]; simpl.
  - unfold Rdiv. lra.
  - rewrite IH. unfold Rdiv. lra.
Qed.

Lemma map2_nil_r {A B C : Type} (f : A -> B -> C) (u : list A) : map2 f u [] = [].
Proof. unfold map2. destruct u; reflexivity. Qed.

Lemma map2_cons {A B C : Type} (f : A -> B -> C) a u b v :
  map2 f (a :: u) (b :: v) = f a b :: map2 f u v.
Proof. reflexivity. Qed.

Lemma map2_length {A B C : Type} (f : A -> B -> C) (u : list A) (v : list B) :
  length (map2 f u v) = Nat.min (length u) (length v).
Proof. unfold map2. rewrite length_map. apply length_combine. Qed.

Lemma map2_repeat_r {A B C : Type} (f : A -> B -> C) (u : list A) (c : B) (n : nat) :
  length u = n -> map2 f u (repeat c n) = map (fun a => f a c) u.
Proof.
  intros <-. induction u as [|a u IH]; simpl.
  - reflexivity.
  - rewrite map2_cons, IH. reflexivity.
Qed.

Lemma map2_map {A B C D E : Type} (f : C -> D -> E) (g : A -> C) (h : B -> D) u v :
  map2 f (map g u) (map h v) = map2 (fun a b => f (g a) (h b)) u v.
Proof.
  revert v. induction u as [|a u IH]; intros [|b v]; try reflexivity.
  simpl. rewrite !map2_cons, IH. reflexivity.
Qed.

Lemma map2_diag {A C : Type} (f : A -> A -> C) (u : list A) :
  map2 f u u = map (fun a => f a a) u.
Proof.
  induction u as [|a u IH]; [reflexivity|].
  rewrite map2_cons, IH. reflexivity.
Qed.

Lemma map2_ext_in {A B C : Type} (f g : A -> B -> C) u v :
  (forall a b, In (a, b) (combine u v) -> f a b = g a b) -> map2 f u v = map2 g u v.
Proof.
  intros H. unfold map2. apply map_ext_in. intros [a b] Hin. simpl. auto.
Qed.

Lemma mapM_Ok {A B : Type} (f : A -> result B) (g : A -> B) (l : list A) :
  (forall a, In a l -> f a = Ok (g a)) -> mapM f l = Ok (map g l).
Proof.
  induction l as [|a l IH]; simpl; intros H.
  - reflexivity.
  - rewrite (H a), IH by auto. reflexivity.
Qed.

Lemma map_fst_combine_repeat {A B : Type} (a : A) (l : list B) :
  map fst (combine (repeat a (length l)) l) = repeat a (length l).
Proof.
  induction l as [|b l IH]; simpl; [reflexivity|]. now rewrite IH.
Qed.

(** ** Softmax, log-sum-exp and the categorical distribution *)

Lemma Rsum_exp_pos (v : Vec) : v <> [] -> 0 < Rsum (map exp v).
Proof.
  induction v as [|a v IH]; [congruence|]. intros _. simpl.
  destruct v as [|b v].
  - simpl. pose proof (exp_pos a). lra.
  - assert (0 < Rsum (map exp (b :: v))) by (apply IH; discriminate).
    pose proof (exp_pos a). lra.
Qed.

Lemma exp_minus_logsumexp (v : Vec) (x : R) :
  v <> [] -> exp (x - logsumexp v) = exp x / Rsum (map exp v).
Proof.
  intros Hv. unfold logsumexp, Rminus.
  rewrite exp_plus, exp_Ropp, exp_ln by (apply Rsum_exp_pos; exact Hv).
  reflexivity.
Qed.

Lemma normalised_sum_one (v : Vec) :
  v <> [] -> Rsum (map exp (map (fun x => x - logsumexp v) v)) = 1.
Proof.
  intros Hv. rewrite map_map.
  rewrite (map_ext _ (fun x => exp x / Rsum (map exp v)))
    by (intros x; apply exp_minus_logsumexp; exact Hv).
  rewrite Rsum_map_scale.
  pose proof (Rsum_exp_pos v Hv). field. lra.
Qed.

Lemma softmax_vec_sum (u : Vec) : u <> [] -> Rsum (softmax_vec u) = 1.
Proof.
  intros Hu. unfold softmax_vec. rewrite Rsum_map_scale.
  pose proof (Rsum_exp_pos u Hu). field. lra.
Qed.

Lemma softmax_vec_pos (u : Vec) (p : R) : In p (softmax_vec u) -> 0 < p.
Proof.
  unfold softmax_vec. rewrite in_map_iff. intros [a [<- Ha]].
  assert (Hu : u <> []) by (destruct u; [contradiction | discriminate]).
  apply Rdiv_lt_0_compat; [apply exp_pos | apply Rsum_exp_pos, Hu].
Qed.

(** The distribution built from a vector [v] passed as [logits] has the
    softmax of [v] as its probabilities. *)
Lemma categorical_probs_softmax (v : Vec) : categorical_probs v = softmax_vec v.
Proof.
  destruct v as [|a v]; [reflexivity|].
  assert (Hv : a :: v <> []) by discriminate.
  unfold categorical_probs, from_logits, probs.
  unfold softmax_vec at 1. rewrite (normalised_sum_one _ Hv).
  rewrite map_map. unfold softmax_vec. apply map_ext. intros x.
  rewrite (exp_minus_logsumexp _ x Hv). field.
  pose proof (Rsum_exp_pos _ Hv). lra.
Qed.

(** Over the reals no probability of a constructed categorical is zero,
    so the two overwrites of torch's [kl_divergence] never apply. *)
Lemma probs_pos (v : Vec) (p : R) : In p (probs (from_logits v)) -> 0 < p.
Proof.
  fold (categorical_probs v). rewrite categorical_probs_softmax.
  apply softmax_vec_pos.
Qed.

(** The validation of the constructor: it passes on every tensor that
    holds at least one event vector and no event vector without entries,
    and fails otherwise. *)
Lemma simplex_check_probs (v : Vec) :
  v <> [] -> simplex_check (probs (from_logits v)) = true.
Proof.
  intros Hv. unfold simplex_check. apply andb_true_iff. split.
  - apply forallb_forall. intros p Hp. apply probs_pos in Hp.
    destruct (Rle_dec 0 p) as [_ | Hn]; [reflexivity | exfalso; lra].
  - fold (categorical_probs v). rewrite categorical_probs_softmax.
    rewrite (softmax_vec_sum v Hv).
    replace (1 - 1) with 0 by ring. rewrite Rabs_R0.
    destruct (Rlt_dec 0 (1 / 1000000)) as [_ | Hn]; [reflexivity | exfalso; lra].
Qed.

Lemma simplex_check_no_entry : simplex_check (probs (from_logits [])) = false.
Proof.
  unfold simplex_check. cbn [from_logits probs map softmax_vec forallb Rsum fold_right andb].
  replace (0 - 1) with (- (1)) by ring. rewrite Rabs_Ropp, Rabs_R1.
  destruct (Rlt_dec 1 (1 / 1000000)) as [Hn | _]; [exfalso; lra | reflexivity].
Qed.

Lemma OneHotCategorical_no_event (t : Tensor3) :
  concat t = [] -> OneHotCategorical t = Raise RuntimeError.
Proof.
  intros H. unfold OneHotCategorical, real_vector_check. rewrite H. reflexivity.
Qed.

Lemma real_vector_check_Ok (t : Tensor3) :
  concat t <> [] -> real_vector_check t = Ok tt.
Proof.
  intros H. unfold real_vector_check.
  destruct (concat t); [congruence | reflexivity].
Qed.

Lemma OneHotCategorical_Ok (t : Tensor3) :
  concat t <> [] -> Forall (Forall (fun v : Vec => v <> [])) t ->
  OneHotCategorical t = Ok (map (map from_logits) t).
Proof.
  intros Hc Hv. unfold OneHotCategorical.
  rewrite (real_vector_check_Ok t Hc). cbn [bind].
  replace (forallb (forallb (fun d => simplex_check (probs d))) (map (map from_logits) t))
    with true; [reflexivity|].
  symmetry. apply forallb_forall. intros ds Hds.
  apply in_map_iff in Hds. destruct Hds as [steps [<- Hsteps]].
  apply forallb_forall. intros d Hd.
  apply in_map_iff in Hd. destruct Hd as [v [<- Hin]].
  apply simplex_check_probs.
  rewrite Forall_forall in Hv. specialize (Hv steps Hsteps).
  rewrite Forall_forall in Hv. exact (Hv v Hin).
Qed.

Lemma OneHotCategorical_no_entry (t : Tensor3) :
  concat t <> [] -> Exists (Exists (fun v : Vec => v = [])) t ->
  OneHotCategorical t = Raise ValueError.
Proof.
  intros Hc Hex. unfold OneHotCategorical.
  rewrite (real_vector_check_Ok t Hc). cbn [bind].
  replace (forallb (forallb (fun d => simplex_check (probs d))) (map (map from_logits) t))
    with false; [reflexivity|].
  symmetry. apply not_true_is_false. intros Hall.
  rewrite forallb_forall in Hall.
  apply Exists_exists in Hex. destruct Hex as [steps [Hsteps Hex]].
  apply Exists_exists in Hex. destruct Hex as [v [Hin ->]].
  specialize (Hall (map from_logits steps) (in_map _ _ _ Hsteps)).
  rewrite forallb_forall in Hall.
  specialize (Hall (from_logits []) (in_map _ _ _ Hin)).
  rewrite simplex_check_no_entry in Hall. discriminate.
Qed.

Lemma concat_shape_nonempty {A : Type} (B W : nat) (t : list (list A)) :
  (0 < B)%nat -> (0 < W)%nat -> length t = B -> Forall (fun m => length m = W) t ->
  concat t <> [].
Proof.
  intros HB HW Hlen Ht. destruct t as [|m t]; [simpl in Hlen; lia|].
  inversion Ht as [|? ? Hm _]; subst. cbn [concat].
  destruct m; [simpl in HW; lia | discriminate].
Qed.

Lemma logsumexp_log_uniform (K : nat) :
  (0 < K)%nat -> logsumexp (map ln (repeat (1 / INR K) K)) = 0.
Proof.
  intros HK. assert (0 < INR K) by (apply lt_0_INR; exact HK).
  unfold logsumexp. rewrite !map_repeat, Rsum_repeat.
  rewrite exp_ln by (apply Rdiv_lt_0_compat; lra).
  replace (INR K * (1 / INR K)) with 1 by (field; lra).
  apply ln_1.
Qed.

(** One step: torch's divergence from the uniform prior built by
    [compute_KLD_loss] is the textbook divergence. *)
Lemma kl_divergence_uniform (v : Vec) (K : nat) :
  length v = K -> (0 < K)%nat ->
  kl_divergence (from_logits v) (from_logits (map ln (repeat (1 / INR K) K)))
  = KL (categorical_probs v) (uniform K).
Proof.
  intros Hlen HK. assert (HK' : 0 < INR K) by (apply lt_0_INR; exact HK).
  assert (Hv : v <> []) by (destruct v; [simpl in Hlen; lia | discriminate]).
  unfold kl_divergence, KL, categorical_probs, uniform.
  unfold from_logits at 3. cbn [logits].
  rewrite (logsumexp_log_uniform K HK), !map_repeat.
  unfold from_logits. cbn [logits probs].
  set (n := map (fun x => x - logsumexp v) v).
  assert (Hn : length n = K) by (unfold n; rewrite length_map; exact Hlen).
  rewrite !(map2_repeat_r _ _ _ K) by (unfold softmax_vec; rewrite ?length_map; exact Hn).
  unfold softmax_vec. rewrite map_map.
  rewrite (map2_map Rmult (fun x => exp x / Rsum (map exp n)) (fun a => a - (ln (1 / INR K) - 0))).
  rewrite map2_diag. f_equal. apply map_ext. intros a.
  unfold n. rewrite (normalised_sum_one v Hv).
  replace (exp a / 1 / (1 / INR K)) with (exp a * INR K) by (field; lra).
  rewrite ln_mult by (auto using exp_pos).
  rewrite ln_exp. unfold Rdiv at 2. rewrite Rmult_1_l, ln_Rinv by exact HK'.
  ring.
Qed.

(** ** The KL term *)

Lemma expand_same {A : Type} (l : list A) (n : nat) : length l = n -> expand n l = Ok l.
Proof.
  intros <-. destruct l as [|a [|b l]]; simpl; try reflexivity.
  now rewrite Nat.eqb_refl.
Qed.

Lemma expand_as_prior (row : Vec) (B W K : nat) (T : Tensor3) :
  length row = K -> shape3 B W K T ->
  expand_as [repeat row W] T = Ok (repeat (repeat row W) B).
Proof.
  intros Hrow [HB HT]. unfold expand_as. cbn [expand bind]. rewrite HB.
  rewrite (mapM_Ok _ fst).
  - subst B. now rewrite map_fst_combine_repeat.
  - intros [pm tm] Hin. cbn [fst snd].
    pose proof (in_combine_l _ _ _ _ Hin) as Hl.
    pose proof (in_combine_r _ _ _ _ Hin) as Hr.
    apply repeat_spec in Hl. subst pm.
    rewrite Forall_forall in HT. destruct (HT tm Hr) as [HW HK].
    rewrite expand_same by (rewrite repeat_length; congruence). cbn [bind].
    rewrite (mapM_Ok _ fst).
    + subst W. now rewrite map_fst_combine_repeat.
    + intros [pv tv] Hin'. cbn [fst snd].
      pose proof (in_combine_l _ _ _ _ Hin') as Hl'.
      pose proof (in_combine_r _ _ _ _ Hin') as Hr'.
      apply repeat_spec in Hl'. subst pv.
      rewrite Forall_forall in HK. apply expand_same.
      rewrite (HK tv Hr'). exact Hrow.
Qed.

Lemma shape3_valid (B W K : nat) (t : Tensor3) :
  (0 < B)%nat -> (0 < W)%nat -> (0 < K)%nat -> shape3 B W K t ->
  concat t <> [] /\ Forall (Forall (fun v : Vec => v <> [])) t.
Proof.
  intros HB HW HK [Hlen Ht]. split.
  - apply (concat_shape_nonempty B W); try assumption.
    eapply Forall_impl; [|exact Ht]. intros m [Hm _]. exact Hm.
  - eapply Forall_impl; [|exact Ht]. intros m [_ Hm].
    eapply Forall_impl; [|exact Hm]. intros v Hv ->. simpl in Hv. lia.
Qed.

(** The prior of one step broadcast along the step axis. *)
Lemma expand_as_single_step (row : Vec) (B W K : nat) (T : Tensor3) :
  length row = K -> shape3 B W K T ->
  expand_as [[row]] T = Ok (repeat (repeat row W) B).
Proof.
  intros Hrow [HB HT]. unfold expand_as. cbn [expand bind]. rewrite HB.
  rewrite (mapM_Ok _ (fun _ => repeat row W)).
  - subst B. clear HT. f_equal. induction T as [|m T IH]; [reflexivity|].
    cbn [length repeat combine map]. f_equal. exact IH.
  - intros [pm tm] Hin. cbn [fst snd].
    pose proof (in_combine_l _ _ _ _ Hin) as Hl.
    pose proof (in_combine_r _ _ _ _ Hin) as Hr.
    apply repeat_spec in Hl. subst pm.
    rewrite Forall_forall in HT. destruct (HT tm Hr) as [HW HK].
    cbn [expand bind]. rewrite HW.
    rewrite (mapM_Ok _ fst).
    + subst W. now rewrite map_fst_combine_repeat.
    + intros [pv tv] Hin'. cbn [fst snd].
      pose proof (in_combine_l _ _ _ _ Hin') as Hl'.
      pose proof (in_combine_r _ _ _ _ Hin') as Hr'.
      apply repeat_spec in Hl'. subst pv.
      rewrite Forall_forall in HK. apply expand_same.
      rewrite (HK tv Hr'). exact Hrow.
Qed.

(** The KL term on an argument of shape (B, W, K) to which the prior,
    of [word_length] steps, expands. *)
Lemma compute_KLD_loss_expanded (self : VAE) (B W : nat) (logits : Tensor3) :
  (0 < dictionary_size self)%nat -> (0 < B)%nat -> (0 < W)%nat ->
  shape3 B W (dictionary_size self) logits ->
  expand_as [repeat (repeat (ln (1 / INR (dictionary_size self))) (dictionary_size self))
                    (word_length self)] logits
  = Ok (repeat (repeat (repeat (ln (1 / INR (dictionary_size self)))
                               (dictionary_size self)) W) B) ->
  compute_KLD_loss self logits
  = Ok (Rsum (map (fun m =>
                Rsum (map (fun v => KL (categorical_probs v)
                                       (uniform (dictionary_size self))) m))
              logits)).
Proof.
  intros HK HB0 HW0 Hshape Hexp. unfold compute_KLD_loss, py_truediv.
  destruct (shape3_valid _ _ _ _ HB0 HW0 HK Hshape) as [Hc Hne].
  rewrite (OneHotCategorical_Ok logits Hc Hne). cbn [bind].
  destruct (Nat.eqb_spec (dictionary_size self) 0) as [E|_]; [lia|].
  cbn [bind map]. rewrite !map_repeat.
  change (INR 1) with 1.
  set (K := dictionary_size self) in *.
  set (row := repeat (ln (1 / INR K)) K) in *.
  rewrite Hexp.
  cbn [bind].
  assert (Hprior : shape3 B W K (repeat (repeat row W) B)).
  { split; [apply repeat_length|]. apply Forall_forall. intros m Hm.
    apply repeat_spec in Hm. subst m. split; [apply repeat_length|].
    apply Forall_forall. intros v Hin. apply repeat_spec in Hin. subst v.
    unfold row. apply repeat_length. }
  destruct (shape3_valid _ _ _ _ HB0 HW0 HK Hprior) as [Hc' Hne'].
  rewrite (OneHotCategorical_Ok _ Hc' Hne'). cbn [bind].
  rewrite !map_repeat. destruct Hshape as [HB HT].
  rewrite (map2_repeat_r _ _ _ B) by (now rewrite length_map).
  rewrite !map_map. do 2 f_equal. apply map_ext_in. intros m Hm.
  rewrite Forall_forall in HT. destruct (HT m Hm) as [HW Hrows].
  rewrite (map2_repeat_r _ _ _ W) by (now rewrite length_map).
  rewrite map_map. f_equal. apply map_ext_in. intros v Hv.
  rewrite Forall_forall in Hrows. unfold row. rewrite <- map_repeat.
  apply kl_divergence_uniform; [apply Hrows; exact Hv | exact HK].
Qed.

Lemma compute_KLD_loss_value (self : VAE) (B : nat) (logits : Tensor3) :
  (0 < dictionary_size self)%nat -> (0 < B)%nat -> (0 < word_length self)%nat ->
  shape3 B (word_length self) (dictionary_size self) logits ->
  compute_KLD_loss self logits
  = Ok (Rsum (map (fun m =>
                Rsum (map (fun v => KL (categorical_probs v)
                                       (uniform (dictionary_size self))) m))
              logits)).
Proof.
  intros HK HB HW Hshape.
  apply (compute_KLD_loss_expanded self B (word_length self)); try assumption.
  apply (expand_as_prior _ B _ (dictionary_size self));
    [apply repeat_length | exact Hshape].
Qed.

Lemma KL_self_uniform (K : nat) : (0 < K)%nat -> KL (uniform K) (uniform K) = 0.
Proof.
  intros HK. assert (0 < INR K) by (apply lt_0_INR; exact HK).
  unfold KL, uniform. rewrite (map2_repeat_r _ _ _ K) by apply repeat_length.
  apply Rsum_map_zero. intros p Hp. apply repeat_spec in Hp. subst p.
  replace (1 / INR K / (1 / INR K)) with 1 by (field; lra).
  rewrite ln_1. ring.
Qed.

Lemma softmax_constant (c : R) (K : nat) :
  (0 < K)%nat -> softmax_vec (repeat c K) = uniform K.
Proof.
  intros HK. assert (0 < INR K) by (apply lt_0_INR; exact HK).
  unfold softmax_vec, uniform. rewrite !map_repeat, Rsum_repeat. f_equal.
  pose proof (exp_pos c). field. lra.
Qed.

Lemma KL_uniform_step (K : nat) :
  (0 < K)%nat -> KL (categorical_probs (uniform K)) (uniform K) = 0.
Proof.
  intros HK. rewrite categorical_probs_softmax. unfold uniform at 1.
  rewrite softmax_constant by exact HK. apply KL_self_uniform, HK.
Qed.

(** ** The reconstruction term *)

Lemma same_shape_shape2 (B n : nat) (X Y : Mat) :
  shape2 B n X -> shape2 B n Y -> same_shape X Y = true.
Proof.
  intros [HX HfX] [HY HfY]. subst B. revert Y HY HfY.
  induction HfX as [|u X Hu HfX IH]; intros [|v Y] HY HfY; simpl in *;
    try reflexivity; try lia.
  inversion HfY as [|? ? Hv HfY']; subst.
  rewrite Hv, Nat.eqb_refl. simpl. apply IH; [lia | assumption].
Qed.

Lemma map2_flip {A B C : Type} (f : A -> B -> C) (u : list A) (v : list B) :
  map2 f u v = map2 (fun b a => f a b) v u.
Proof.
  revert v. induction u as [|a u IH]; intros [|b v]; try reflexivity.
  rewrite !map2_cons, IH. reflexivity.
Qed.

Lemma Rsum_rows_flip (f g : R -> R -> R) (X Y : Mat) :
  (forall a b, f a b = g b a) ->
  Rsum (map Rsum (map2 (map2 f) X Y))
  = Rsum (map (fun xr => Rsum (map2 g (fst xr) (snd xr))) (combine Y X)).
Proof.
  intros Hfg. revert Y. induction X as [|u X IH]; intros [|v Y]; try reflexivity.
  rewrite map2_cons. simpl. rewrite IH. f_equal. f_equal.
  rewrite map2_flip. apply map2_ext_in. intros a b _. apply Hfg.
Qed.

Lemma compute_recontruct_loss_mse (B n : nat) (inputs recon : Mat) :
  shape2 B n inputs -> shape2 B n recon ->
  compute_recontruct_loss inputs recon "mse"
  = Ok (sum_squared_error inputs recon / INR B).
Proof.
  intros Hi Hr. unfold compute_recontruct_loss, mse_loss_sum.
  rewrite (same_shape_shape2 B n recon inputs Hr Hi). cbn [String.eqb Ascii.eqb Bool.eqb bind].
  unfold div_size. destruct Hi as [-> _]. do 2 f_equal.
  unfold sum_squared_error. apply Rsum_rows_flip. intros a b. ring.
Qed.

Lemma compute_recontruct_loss_other (B n : nat) (inputs recon : Mat) (loss : string) :
  loss <> "mse"%string ->
  shape2 B n inputs -> shape2 B n recon ->
  compute_recontruct_loss inputs recon loss
  = Ok (sum_cross_entropy inputs recon / INR B).
Proof.
  intros Hloss Hi Hr. unfold compute_recontruct_loss, binary_cross_entropy_with_logits_sum.
  destruct (String.eqb_spec loss "mse") as [E|_]; [contradiction|].
  rewrite (same_shape_shape2 B n recon inputs Hr Hi). cbn [bind].
  unfold div_size. destruct Hi as [-> _]. do 2 f_equal.
  unfold sum_cross_entropy. apply Rsum_rows_flip. intros a b. reflexivity.
Qed.

(** ** The reparameterized sampler *)

Lemma shape2_map_length (B n : nat) (X : Mat) :
  shape2 B n X <-> map (@length R) X = repeat n B.
Proof.
  split.
  - intros [<- HX]. induction HX as [|v X Hv HX IH]; simpl; congruence.
  - revert B. induction X as [|v X IH]; intros [|B] H; simpl in H; try discriminate.
    + split; [reflexivity | constructor].
    + injection H as Hv HX. destruct (IH B HX) as [HB HF].
      split; [simpl; congruence | constructor; assumption].
Qed.

Lemma map2_map2_map3 {A B B' C X D : Type}
    (f : X -> C -> D) (g : A -> B' -> X) (h : B -> B') (k : C -> B -> A -> D) :
  (forall a b c, f (g a (h b)) c = k c b a) ->
  forall e lv m, map2 f (map2 g e (map h lv)) m = map3 k m lv e.
Proof.
  intros Hk. induction e as [|a e IH]; intros [|b lv] [|c m]; try reflexivity.
  simpl. rewrite !map2_cons, Hk, IH. reflexivity.
Qed.

Lemma shape2_map3 (B n : nat) (k : R -> R -> R -> R) (a b c : Mat) :
  shape2 B n a -> shape2 B n b -> shape2 B n c ->
  shape2 B n (map3 (map3 k) a b c).
Proof.
  assert (Hrow : forall u v w : Vec,
             length u = n -> length v = n -> length w = n ->
             length (map3 k u v w) = n).
  { intros u v w <-. revert v w.
    induction u as [|x u IH]; intros [|y v] [|z w]; simpl; intros Hv Hw;
      try discriminate; try reflexivity.
    f_equal. apply IH; congruence. }
  intros [<- Ha]. revert b c.
  induction Ha as [|u a Hu Ha IH]; intros [|v b] [|w c] [Hb Hfb] [Hc Hfc];
    simpl in *; try discriminate.
  - split; [reflexivity | constructor].
  - inversion Hfb; inversion Hfc; subst.
    destruct (IH b c) as [Hl Hf]; try (split; [congruence | assumption]).
    split; [simpl; congruence | constructor; auto].
Qed.

Lemma reparameterize_training (self : VAE) (mu logvar : Mat) (g : Generator) :
  training self = true ->
  let std := map (map (fun x => exp (x * 0.5))) logvar in
  reparameterize self mu logvar g
  = (sample_value mu logvar (fst (normal_ std 0 1 g)), snd (normal_ std 0 1 g)).
Proof.
  intros Ht std. unfold reparameterize. rewrite Ht. fold std.
  destruct (normal_ std 0 1 g) as [eps g']. cbn [fst snd]. f_equal.
  unfold sample_value, std.
  apply (map2_map2_map3 (map2 Rplus) (map2 Rmult) (map (fun x => exp (x * 0.5)))).
  intros a b c.
  apply (map2_map2_map3 Rplus Rmult (fun x => exp (x * 0.5))).
  intros e lv m. rewrite (Rmult_comm lv 0.5). ring.
Qed.

Lemma reparameterize_eval (self : VAE) (mu logvar : Mat) (g : Generator) :
  training self = false -> reparameterize self mu logvar g = (mu, g).
Proof. intros Ht. unfold reparameterize. now rewrite Ht. Qed.

Lemma noise_shape (B n : nat) (logvar : Mat) (g : Generator) :
  shape2 B n logvar ->
  shape2 B n (fst (normal_ (map (map (fun x => exp (x * 0.5))) logvar) 0 1 g)).
Proof.
  intros H. apply shape2_map_length. rewrite normal_shape, map_map.
  rewrite (map_ext _ (@length R)) by (intros v; apply length_map).
  apply shape2_map_length, H.
Qed.

(** ** The encoder *)

Lemma map_length_eq (X Y : Mat) :
  map (@length R) X = map (@length R) Y -> length X = length Y.
Proof. intros H. apply (f_equal (@length nat)) in H. now rewrite !length_map in H. Qed.

Lemma gumbel_softmax_length (l : Mat) (tau : R) (g : Generator) :
  length (fst (gumbel_softmax l tau g)) = length l.
Proof. apply map_length_eq, gumbel_softmax_shape. Qed.

Lemma discretize_length (z : Mat) :
  length (fst (straight_through_discretize z)) = length z /\
  length (snd (straight_through_discretize z)) = length z.
Proof.
  destruct (discretize_shape z) as [H1 H2]. split; [apply map_length_eq, H1 | exact H2].
Qed.

Lemma length_linear_vec (L : Linear) (v : Vec) :
  length (linear_vec L v) = Nat.min (length (weight L)) (length (bias L)).
Proof. apply map2_length. Qed.

Lemma length_linear (L : Linear) (X : Mat) : length (linear L X) = length X.
Proof. apply length_map. Qed.

Lemma length_gru_cell (C : GRUCell) (X Hx : Mat) :
  length X = length Hx -> length (gru_cell C X Hx) = length Hx.
Proof. intros H. unfold gru_cell. rewrite map2_length, H. apply Nat.min_id. Qed.

Lemma relaxed_sample_length (self : VAE) (sampling : bool) (pre : Mat) (g : Generator) :
  length (fst (relaxed_sample self sampling pre g)) = length pre.
Proof.
  unfold relaxed_sample.
  destruct (training self), sampling; cbn [fst];
    try apply gumbel_softmax_length; apply length_map.
Qed.

Lemma relaxed_sample_branch (self : VAE) (sampling : bool) (pre : Mat) (g : Generator) :
  relaxed_sample self sampling pre g
  = if training self && sampling
    then gumbel_softmax pre (temperature self) g
    else (softmax pre, g).
Proof. unfold relaxed_sample. destruct (training self), sampling; reflexivity. Qed.

Lemma encoder_state_lengths (self : VAE) (sampling : bool) (x : Mat) (g : Generator) (n : nat) :
  length (hidden (encoder_state self sampling x g n)) = length x /\
  length (cell_input (encoder_state self sampling x g n)) = length x.
Proof.
  induction n as [|n [IHh IHc]].
  - simpl. split; [reflexivity | apply repeat_length].
  - simpl. split.
    + rewrite length_gru_cell; congruence.
    + rewrite length_linear.
      rewrite (proj1 (discretize_length _)), relaxed_sample_length, length_linear.
      rewrite length_gru_cell; congruence.
Qed.

Lemma encoder_output_lengths (self : VAE) (sampling : bool) (x : Mat) (g : Generator) (n : nat) :
  length (relaxed (encoder_output self sampling x g n)) = length x /\
  length (one_hot (encoder_output self sampling x g n)) = length x /\
  length (symbols (encoder_output self sampling x g n)) = length x.
Proof.
  destruct (encoder_state_lengths self sampling x g n) as [Hh Hc].
  assert (Hz : length (relaxed (encoder_output self sampling x g n)) = length x).
  { unfold encoder_output, encoder_step. cbn [fst relaxed].
    rewrite relaxed_sample_length, length_linear, length_gru_cell; congruence. }
  unfold encoder_output, encoder_step in *. cbn [fst relaxed one_hot symbols] in *.
  destruct (discretize_length
              (fst (relaxed_sample self sampling
                      (linear (hidden_to_token self)
                         (gru_cell (encoder_gru self)
                            (cell_input (encoder_state self sampling x g n))
                            (hidden (encoder_state self sampling x g n))))
                      (generator (encoder_state self sampling x g n))))) as [H1 H2].
  repeat split; congruence.
Qed.

Lemma linear_shape2 (i o : nat) (L : Linear) (X : Mat) :
  linear_shape i o L -> shape2 (length X) o (linear L X).
Proof.
  intros [[Hw _] Hb]. split; [apply length_map|].
  apply Forall_map, Forall_forall. intros v _.
  rewrite length_linear_vec, Hw, Hb. apply Nat.min_id.
Qed.

Lemma softmax_shape (X : Mat) : map (@length R) (softmax X) = map (@length R) X.
Proof.
  unfold softmax, softmax_vec. rewrite map_map. apply map_ext. intros v. apply length_map.
Qed.

Lemma relaxed_sample_shape (self : VAE) (sampling : bool) (pre : Mat) (g : Generator) :
  map (@length R) (fst (relaxed_sample self sampling pre g)) = map (@length R) pre.
Proof.
  unfold relaxed_sample.
  destruct (training self), sampling; cbn [fst];
    try apply gumbel_softmax_shape; apply softmax_shape.
Qed.

(** Every step emits a relaxed tensor and a one-hot tensor of shape
    (batch, dictionary_size). *)
Lemma encoder_output_shapes (self : VAE) (sampling : bool) (x : Mat) (g : Generator) (n : nat) :
  linear_shape (input_size self) (dictionary_size self) (hidden_to_token self) ->
  shape2 (length x) (dictionary_size self) (relaxed (encoder_output self sampling x g n)) /\
  shape2 (length x) (dictionary_size self) (one_hot (encoder_output self sampling x g n)).
Proof.
  intros Hl. destruct (encoder_state_lengths self sampling x g (S n)) as [Hh _].
  cbn [encoder_state] in Hh. unfold encoder_step in Hh. cbn [snd hidden] in Hh.
  assert (Hz : shape2 (length x) (dictionary_size self)
                 (relaxed (encoder_output self sampling x g n))).
  { unfold encoder_output, encoder_step. cbn [fst relaxed].
    apply shape2_map_length. rewrite relaxed_sample_shape.
    apply shape2_map_length. rewrite <- Hh. apply (linear_shape2 _ _ _ _ Hl). }
  split; [exact Hz|].
  apply shape2_map_length. apply shape2_map_length in Hz. rewrite <- Hz.
  unfold encoder_output, encoder_step. cbn [fst relaxed one_hot].
  apply (proj1 (discretize_shape _)).
Qed.

Lemma batch_major_length {A : Type} (d : A) (B W : nat) (step : nat -> list A) :
  length (batch_major d B W step) = B /\
  Forall (fun m => length m = W) (batch_major d B W step).
Proof.
  unfold batch_major. split.
  - now rewrite length_map, length_seq.
  - apply Forall_map, Forall_forall. intros b _. now rewrite length_map, length_seq.
Qed.

Lemma batch_major_nth {A : Type} (d : A) (B W : nat) (step : nat -> list A) (b n : nat) :
  (b < B)%nat -> (n < W)%nat ->
  nth n (nth b (batch_major d B W step) []) d = nth b (step n) d.
Proof.
  intros Hb Hn. unfold batch_major.
  rewrite (nth_indep _ [] (map (fun n => nth 0 (step n) d) (seq 0 W)))
    by (now rewrite length_map, length_seq).
  rewrite (map_nth (fun b => map (fun n => nth b (step n) d) (seq 0 W)) (seq 0 B) 0%nat b).
  rewrite seq_nth by exact Hb. cbn [Nat.add].
  rewrite (nth_indep _ d (nth b (step 0%nat) d)) by (now rewrite length_map, length_seq).
  rewrite (map_nth (fun n => nth b (step n) d) (seq 0 W) 0%nat n).
  now rewrite seq_nth by exact Hn.
Qed.

Lemma batch_major_shape3 (B W K : nat) (step : nat -> Mat) :
  (forall n, shape2 B K (step n)) -> shape3 B W K (batch_major [] B W step).
Proof.
  intros Hstep. split; [apply batch_major_length|].
  unfold batch_major. apply Forall_map, Forall_forall. intros b Hb.
  apply in_seq in Hb. split; [now rewrite length_map, length_seq|].
  apply Forall_map, Forall_forall. intros n _.
  destruct (Hstep n) as [Hlen Hrows]. rewrite Forall_forall in Hrows.
  apply Hrows, nth_In. lia.
Qed.

(** One pass through the loop body is one step of the state machine. *)
Lemma Encoder_loop_S (self : VAE) (sampling : bool) (n : nat)
    (hx gru_input : Mat) (acc : EncoderLists) (g : Generator) :
  let s := {| hidden := hx; cell_input := gru_input; generator := g |} in
  let o := fst (encoder_step self sampling s) in
  let s' := snd (encoder_step self sampling s) in
  Encoder_loop self sampling (S n) hx gru_input acc g
  = Encoder_loop self sampling n (hidden s') (cell_input s')
      {| logits_list := logits_list acc ++ [relaxed o];
         messages_list := messages_list acc ++ [symbols o];
         one_hot_tokens_list := one_hot_tokens_list acc ++ [one_hot o] |}
      (generator s').
Proof.
  cbn zeta. unfold encoder_step, relaxed_sample. cbn [fst snd hidden cell_input generator
    relaxed one_hot symbols Encoder_loop].
  destruct sampling, (training self); cbn [andb];
    try match goal with
        | |- context [gumbel_softmax ?a ?b ?c] => destruct (gumbel_softmax a b c)
        end; cbn [fst snd];
    match goal with
    | |- context [straight_through_discretize ?a] =>
        destruct (straight_through_discretize a)
    end; reflexivity.
Qed.

Lemma Encoder_loop_steps (self : VAE) (sampling : bool) (x : Mat) (g : Generator) :
  forall (n k : nat) (acc : EncoderLists),
    let st := encoder_state self sampling x g in
    let out := encoder_output self sampling x g in
    Encoder_loop self sampling n (hidden (st k)) (cell_input (st k)) acc (generator (st k))
    = ({| logits_list := logits_list acc ++ map (fun i => relaxed (out i)) (seq k n);
          messages_list := messages_list acc ++ map (fun i => symbols (out i)) (seq k n);
          one_hot_tokens_list :=
            one_hot_tokens_list acc ++ map (fun i => one_hot (out i)) (seq k n) |},
       generator (st (k + n)%nat)).
Proof.
  cbn zeta. induction n as [|n IH]; intros k acc.
  - simpl. rewrite !app_nil_r, Nat.add_0_r. destruct acc; reflexivity.
  - rewrite Encoder_loop_S. cbn zeta.
    replace {| hidden := hidden (encoder_state self sampling x g k);
               cell_input := cell_input (encoder_state self sampling x g k);
               generator := generator (encoder_state self sampling x g k) |}
      with (encoder_state self sampling x g k)
      by (destruct (encoder_state self sampling x g k); reflexivity).
    change (snd (encoder_step self sampling (encoder_state self sampling x g k)))
      with (encoder_state self sampling x g (S k)).
    change (fst (encoder_step self sampling (encoder_state self sampling x g k)))
      with (encoder_output self sampling x g k).
    rewrite IH. cbn [logits_list messages_list one_hot_tokens_list].
    rewrite <- !app_assoc. cbn [seq map app]. rewrite Nat.add_succ_r. reflexivity.
Qed.

Lemma stack_uniform {A : Type} (B : nat) (ts : list (list A)) :
  ts <> [] -> Forall (fun t => length t = B) ts -> stack ts = Ok ts.
Proof.
  intros Hne HB. destruct ts as [|t ts]; [congruence|]. unfold stack.
  inversion HB as [|? ? Ht Hts]; subst.
  replace (forallb (fun u => (length u =? length t)%nat) ts) with true; [reflexivity|].
  symmetry. apply forallb_forall. intros u Hu. rewrite Forall_forall in Hts.
  rewrite (Hts u Hu). apply Nat.eqb_refl.
Qed.

Lemma transpose01_steps {A : Type} (d : A) (B W : nat) (step : nat -> list A) :
  (0 < W)%nat -> length (step 0%nat) = B ->
  transpose01 d (map step (seq 0 W)) = batch_major d B W step.
Proof.
  intros HW HB. unfold transpose01, batch_major.
  destruct W as [|W]; [lia|]. cbn [seq map hd]. rewrite HB.
  apply map_ext. intros b. cbn [map]. f_equal. now rewrite map_map.
Qed.

Lemma Encoder_steps (self : VAE) (x : Mat) (sampling : bool) (g : Generator) :
  (0 < word_length self)%nat ->
  let B := length x in
  let W := word_length self in
  let out := encoder_output self sampling x g in
  Encoder self x sampling g
  = Ok (batch_major [] B W (fun n => one_hot (out n)),
        batch_major [] B W (fun n => relaxed (out n)),
        batch_major 0%nat B W (fun n => symbols (out n)),
        generator (encoder_state self sampling x g W)).
Proof.
  intros HW B W out.
  assert (Hne : forall (A : Type) (f : nat -> A), map f (seq 0 W) <> []).
  { intros A f. subst W. destruct (word_length self); [lia | discriminate]. }
  unfold Encoder.
  pose proof (Encoder_loop_steps self sampling x g (word_length self) 0
                {| logits_list := []; messages_list := []; one_hot_tokens_list := [] |})
    as Hloop.
  cbn zeta in Hloop. cbn [encoder_state encoder_init hidden cell_input generator] in Hloop.
  rewrite Hloop. cbn [logits_list messages_list one_hot_tokens_list app Nat.add].
  fold W. fold out.
  assert (Hlen : forall n, length (relaxed (out n)) = B /\ length (one_hot (out n)) = B
                           /\ length (symbols (out n)) = B).
  { intros n. apply encoder_output_lengths. }
  rewrite (stack_uniform B), (stack_uniform B), (stack_uniform B);
    try apply Hne;
    try (apply Forall_forall; intros t Ht; apply in_map_iff in Ht;
         destruct Ht as [n [<- _]]; apply Hlen).
  cbn [bind].
  rewrite !(transpose01_steps _ B W) by (try exact HW; apply Hlen).
  reflexivity.
Qed.

(** ** The decoder *)

Lemma length_concat_uniform {A : Type} (n : nat) (l : list (list A)) :
  Forall (fun r => length r = n) l -> length (concat l) = (length l * n)%nat.
Proof.
  induction 1 as [|r l Hr Hl IH]; simpl; [reflexivity|].
  rewrite length_app, IH, Hr. reflexivity.
Qed.

Lemma chunks_concat {A : Type} (n : nat) (l : list (list A)) :
  Forall (fun r => length r = n) l -> chunks n (length l) (concat l) = l.
Proof.
  induction 1 as [|r l Hr Hl IH]; simpl; [reflexivity|].
  rewrite firstn_app, skipn_app, Hr, Nat.sub_diag.
  rewrite <- Hr at 1 3. rewrite firstn_all, skipn_all. simpl.
  rewrite app_nil_r, IH. reflexivity.
Qed.

Lemma Forall_concat_rows {A : Type} (P : A -> Prop) (l : list (list A)) :
  Forall (Forall P) l -> Forall P (concat l).
Proof.
  induction 1 as [|r l Hr Hl IH]; simpl; [constructor|].
  apply Forall_app. split; assumption.
Qed.

(** Regrouping the rows of a (B, W, H) tensor gives the tensor back. *)
Lemma view_infer_last_concat (B W H : nat) (E : Tensor3) :
  (0 < B)%nat -> (0 < W)%nat -> shape3 B W H E ->
  view_infer_last B W (concat E) = Ok E.
Proof.
  intros HB HW [HlB HE]. unfold view_infer_last.
  assert (Hblocks : Forall (fun m : Mat => length m = W) E).
  { eapply Forall_impl; [|exact HE]. intros m [Hm _]. exact Hm. }
  assert (Hrows : Forall (fun r : Vec => length r = H) (concat E)).
  { apply Forall_concat_rows. eapply Forall_impl; [|exact HE]. intros m [_ Hm]. exact Hm. }
  assert (Hn : length (concat E) = (B * W)%nat).
  { rewrite (length_concat_uniform W) by exact Hblocks. now rewrite HlB. }
  assert (Hnumel : length (concat (concat E)) = (H * (B * W))%nat).
  { rewrite (length_concat_uniform H) by exact Hrows. rewrite Hn. apply Nat.mul_comm. }
  rewrite Hnumel.
  destruct (Nat.eqb_spec (B * W) 0) as [E0|Hnz]; [nia|].
  rewrite Nat.Div0.mod_mul, Nat.eqb_refl, Nat.div_mul by exact Hnz.
  rewrite <- Hn, (chunks_concat H) by exact Hrows.
  rewrite <- HlB, (chunks_concat W) by exact Hblocks.
  reflexivity.
Qed.

Lemma decoder_embed_shape (self : VAE) (B W : nat) (z : Tensor3) :
  length z = B -> Forall (fun m : Mat => length m = W) z ->
  shape3 B W (Nat.min (length (weight (token_to_hidden self)))
                      (length (bias (token_to_hidden self))))
         (decoder_embed self z).
Proof.
  intros HB Hz. unfold decoder_embed. split; [now rewrite length_map|].
  apply Forall_map. eapply Forall_impl; [|exact Hz]. intros m Hm.
  split; [now rewrite length_map|].
  apply Forall_map, Forall_forall. intros v _. apply length_linear_vec.
Qed.

Lemma Decoder_loop_steps (self : VAE) (z : Tensor3) :
  forall count n,
    Decoder_loop self (decoder_embed self z) count n (decoder_state self z n)
    = decoder_state self z (n + count).
Proof.
  induction count as [|count IH]; intros n; simpl.
  - now rewrite Nat.add_0_r.
  - rewrite <- Nat.add_succ_comm. apply (IH (S n)).
Qed.

Lemma Decoder_steps (self : VAE) (z : Tensor3) (g : Generator) :
  (0 < length z)%nat -> (0 < word_length self)%nat ->
  Forall (fun m : Mat => length m = word_length self) z ->
  Decoder self z g
  = Ok (decoder_heads self (decoder_state self z (word_length self)) g).
Proof.
  intros HB HW Hz. unfold Decoder, linear. rewrite concat_map.
  fold (decoder_embed self z).
  rewrite (view_infer_last_concat (length z) (word_length self) _ _ HB HW
             (decoder_embed_shape self _ _ z eq_refl Hz)).
  cbn [bind].
  change (zeros (length z) (input_size self)) with (decoder_state self z 0).
  rewrite Decoder_loop_steps. cbn [Nat.add]. unfold decoder_heads.
  fold (linear (output_mean self) (decoder_state self z (word_length self))).
  fold (linear (output_logvar self) (decoder_state self z (word_length self))).
  destruct (reparameterize self _ _ g) as [output g']. reflexivity.
Qed.

Lemma shape3_blocks (B W K : nat) (z : Tensor3) :
  shape3 B W K z -> Forall (fun m : Mat => length m = W) z.
Proof.
  intros [_ Hz]. eapply Forall_impl; [|exact Hz]. intros m [Hm _]. exact Hm.
Qed.

(** The embedded symbols of step [n], one row per batch element. *)
Lemma select1_decoder_embed (self : VAE) (W n : nat) (z : Tensor3) :
  (n < W)%nat -> Forall (fun m : Mat => length m = W) z ->
  select1 n (decoder_embed self z)
  = map (fun steps => linear_vec (token_to_hidden self) (nth n steps [])) z.
Proof.
  intros Hn Hz. unfold select1, decoder_embed. rewrite map_map.
  apply map_ext_in. intros m Hm. rewrite Forall_forall in Hz.
  rewrite (nth_indep _ [] (linear_vec (token_to_hidden self) []))
    by (rewrite length_map, (Hz m Hm); exact Hn).
  apply map_nth.
Qed.

Lemma decoder_state_length (self : VAE) (z : Tensor3) (n : nat) :
  length (decoder_state self z n) = length z.
Proof.
  induction n as [|n IH]; cbn [decoder_state].
  - apply repeat_length.
  - rewrite length_gru_cell; [exact IH|].
    unfold select1, decoder_embed. now rewrite !length_map, IH.
Qed.

Lemma reparameterize_shape (self : VAE) (B n : nat) (mu logvar : Mat) (g : Generator) :
  shape2 B n mu -> shape2 B n logvar ->
  shape2 B n (fst (reparameterize self mu logvar g)).
Proof.
  intros Hmu Hlv. destruct (training self) eqn:Ht.
  - rewrite (reparameterize_training self mu logvar g Ht). cbn [fst].
    apply shape2_map3; [exact Hmu | exact Hlv | apply noise_shape, Hlv].
  - now rewrite (reparameterize_eval self mu logvar g Ht).
Qed.

(** The heads return three tensors of shape (batch, input_size). *)
Lemma decoder_heads_shape (self : VAE) (h : Mat) (g : Generator) :
  well_formed self ->
  let '(output, mean, logvar, _) := decoder_heads self h g in
  shape2 (length h) (input_size self) output /\
  shape2 (length h) (input_size self) mean /\
  shape2 (length h) (input_size self) logvar.
Proof.
  intros Hwf. unfold decoder_heads.
  pose proof (linear_shape2 _ _ _ h (wf_output_mean self Hwf)) as Hm.
  pose proof (linear_shape2 _ _ _ h (wf_output_logvar self Hwf)) as Hl.
  repeat split; try apply Hm; try apply Hl;
    apply (reparameterize_shape self _ _ _ _ g Hm Hl).
Qed.

(** ** The forward pass and the training driver *)

Lemma forward_steps (self : VAE) (x : Mat) (g : Generator) :
  (0 < length x)%nat -> (0 < word_length self)%nat ->
  let B := length x in
  let W := word_length self in
  let out := encoder_output self true x g in
  let tokens := batch_major [] B W (fun n => one_hot (out n)) in
  let d := decoder_heads self (decoder_state self tokens W)
             (generator (encoder_state self true x g W)) in
  forward self x g
  = Ok (fst (fst (fst d)), tokens,
        batch_major [] B W (fun n => relaxed (out n)),
        batch_major 0%nat B W (fun n => symbols (out n)),
        snd d).
Proof.
  intros HB HW B W out tokens d. unfold forward.
  rewrite (Encoder_steps self x true g HW). cbn [bind]. fold B W out tokens.
  destruct (batch_major_length [] B W (fun n => one_hot (out n))) as [Hl Hf].
  fold tokens in Hl, Hf.
  rewrite Decoder_steps; [ | rewrite Hl; exact HB | exact HW | exact Hf ].
  cbn [bind]. fold W. fold d. destruct d as [[[recons m] lv] g']. reflexivity.
Qed.

Lemma unpack5_four (a b c d : pyobj) : unpack5 [a; b; c; d] = Raise ValueError.
Proof. reflexivity. Qed.

Lemma call_model_four (self : VAE) (data : Mat) (g : Generator) tuple g' :
  call_model self data g = Ok (tuple, g') -> length tuple = 4%nat.
Proof.
  unfold call_model. destruct (forward self data g) as [[[[[r t] l] m] g0]|e]; cbn [bind].
  - intros H. injection H as <- _. reflexivity.
  - discriminate.
Qed.

Lemma train_batch_raises (self : VAE) (data : Mat) (beta : R) (g : Generator) :
  match forward (set_training self true) data g with
  | Ok _ => train_batch self data beta g = Raise ValueError
  | Raise e => train_batch self data beta g = Raise e
  end.
Proof.
  unfold train_batch, call_model.
  destruct (forward (set_training self true) data g) as [[[[[r t] l] m] g0]|e];
    reflexivity.
Qed.

(** The loop of [get_messages] unpacks the four values into four names
    and goes through. *)
Remark get_messages_batch_returns (self : VAE) (data : Mat) (g : Generator) :
  (0 < length data)%nat -> (0 < word_length self)%nat ->
  exists r, get_messages_batch self data g = Ok r.
Proof.
  intros HB HW. unfold get_messages_batch, call_model.
  rewrite (forward_steps (set_training self false) data g HB HW).
  cbn [bind unpack4]. eexists. reflexivity.
Qed.

(** ** The loss on concrete values *)

Example softmax_vec_zeros : softmax_vec [0; 0] = [1 / 2; 1 / 2].
Proof.
  unfold softmax_vec. cbn [map Rsum fold_right]. rewrite exp_0.
  repeat f_equal; lra.
Qed.

Example recon_loss_2x2 :
  compute_recontruct_loss [[1; 2]; [3; 4]] [[0; 2]; [3; 1]] default_loss = Ok 5.
Proof.
  unfold default_loss.
  rewrite (compute_recontruct_loss_mse 2 2) by shape.
  unfold sum_squared_error. cbn [combine map map2 fst snd Rsum fold_right INR].
  f_equal. lra.
Qed.

Example kld_uniform_2x2 :
  compute_KLD_loss (small_model false) [[[1 / 2; 1 / 2]; [1 / 2; 1 / 2]]] = Ok 0.
Proof.
  rewrite (compute_KLD_loss_value (small_model false) 1) by shape.
  cbn [map Rsum fold_right small_model dictionary_size].
  change [1 / 2; 1 / 2] with (uniform 2).
  rewrite KL_uniform_step by shape. f_equal. lra.
Qed.

Example elbo_2x2 :
  elbo (small_model false) [[1; 2]; [3; 4]] [[0; 2]; [3; 1]]
       [[[1 / 2; 1 / 2]; [1 / 2; 1 / 2]]] 3
  = Ok (5, 5, 0).
Proof.
  unfold elbo. rewrite recon_loss_2x2, kld_uniform_2x2. cbn [bind].
  do 3 f_equal. lra.
Qed.

(** ** Degenerate sizes

    With no step, no batch element or no symbol the code stops with an
    exception; the statements below therefore assume positive sizes. *)

Remark Encoder_no_step (self : VAE) (x : Mat) (sampling : bool) (g : Generator) :
  word_length self = 0%nat -> Encoder self x sampling g = Raise RuntimeError.
Proof. intros H. unfold Encoder. rewrite H. reflexivity. Qed.

Remark Decoder_empty_batch (self : VAE) (g : Generator) :
  Decoder self [] g = Raise RuntimeError.
Proof. reflexivity. Qed.

Remark Decoder_no_step (self : VAE) (z : Tensor3) (g : Generator) :
  word_length self = 0%nat -> Decoder self z g = Raise RuntimeError.
Proof.
  intros H. unfold Decoder, view_infer_last. rewrite H, Nat.mul_0_r. reflexivity.
Qed.

Remark compute_KLD_loss_no_batch (self : VAE) :
  compute_KLD_loss self [] = Raise RuntimeError.
Proof. reflexivity. Qed.

Remark compute_KLD_loss_no_symbol (self : VAE) (logits : Tensor3) :
  concat logits <> [] -> Forall (Forall (fun v : Vec => v <> [])) logits ->
  dictionary_size self = 0%nat -> compute_KLD_loss self logits = Raise ZeroDivisionError.
Proof.
  intros Hc Hv H. unfold compute_KLD_loss.
  rewrite (OneHotCategorical_Ok logits Hc Hv). cbn [bind]. rewrite H. reflexivity.
Qed.

(** ** The properties of the specification *)

(** The distribution that [compute_KLD_loss] builds from a step's vector
    is not that vector: the vector is passed as logits and normalised
    again. *)
Remark categorical_probs_not_identity : categorical_probs [1; 0] <> [1; 0].
Proof.
  rewrite categorical_probs_softmax. unfold softmax_vec. cbn [map Rsum fold_right].
  intros H. injection H as _ H0.
  pose proof (exp_pos 0). pose proof (exp_pos 1).
  assert (0 < exp 0 / (exp 1 + (exp 0 + 0))) by (apply Rdiv_lt_0_compat; lra).
  lra.
Qed.






(** C2.  On a non-empty batch of inputs and a reconstruction of the same
    shape and a sequence of shape (batch, word_length, dictionary_size)
    with the three sizes positive,
    for every scalar [beta], [elbo] returns the
    triple (total, recon_term, kld_term) of its two loss terms with
    [total = recon_term + beta * kld_term]; with [beta = 0] the total
    is the reconstruction term, whatever the sequence. *)
Theorem elbo_total (self : VAE) (B n B' : nat) (inputs recon : Mat)
    (logits : Tensor3) (beta : R) :
  (0 < B)%nat -> shape2 B n inputs -> shape2 B n recon ->
  (0 < dictionary_size self)%nat -> (0 < B')%nat -> (0 < word_length self)%nat ->
  shape3 B' (word_length self) (dictionary_size self) logits ->
  exists r k,
    compute_recontruct_loss inputs recon default_loss = Ok r /\
    compute_KLD_loss self logits = Ok k /\
    elbo self inputs recon logits beta = Ok (r + beta * k, r, k) /\
    elbo self inputs recon logits 0 = Ok (r, r, k).
Proof.
  intros _ Hi Hr HK HB' HW Hl.
  pose proof (compute_recontruct_loss_mse B n inputs recon Hi Hr) as Hrec.
  pose proof (compute_KLD_loss_value self B' logits HK HB' HW Hl) as Hkld.
  eexists. eexists. split; [exact Hrec|]. split; [exact Hkld|].
  unfold elbo, default_loss. rewrite Hrec, Hkld. cbn [bind].
  split; [reflexivity|]. do 3 f_equal. ring.
Qed.

(** C3.  On a non-empty batch of sequences of [word_length] steps, with
    [word_length] and [dictionary_size] positive, when every step's
    vector is the uniform distribution over [dictionary_size] symbols,
    the KL term is zero. *)
Theorem kld_zero_on_uniform (self : VAE) (logits : Tensor3) :
  (0 < dictionary_size self)%nat ->
  (0 < length logits)%nat -> (0 < word_length self)%nat ->
  Forall (fun steps => length steps = word_length self) logits ->
  Forall (Forall (fun v => v = uniform (dictionary_size self))) logits ->
  compute_KLD_loss self logits = Ok 0.
Proof.
  intros HK HB0 HW0 HW Hu.
  assert (Hshape : shape3 (length logits) (word_length self) (dictionary_size self) logits).
  { split; [reflexivity|]. rewrite Forall_forall in *. intros m Hm.
    split; [apply HW, Hm|]. specialize (Hu m Hm). rewrite Forall_forall in *.
    intros v Hv. rewrite (Hu v Hv). apply repeat_length. }
  rewrite (compute_KLD_loss_value self _ logits HK HB0 HW0 Hshape). f_equal.
  apply Rsum_map_zero. intros m Hm. apply Rsum_map_zero. intros v Hv.
  rewrite Forall_forall in Hu. specialize (Hu m Hm). rewrite Forall_forall in Hu.
  rewrite (Hu v Hv). apply KL_uniform_step, HK.
Qed.

(** C4.  With the selector at its default, on a non-empty batch the
    reconstruction term is the squared error between inputs and
    reconstruction summed over the feature axis and the batch axis and
    divided by the batch size only; this is the term [elbo] returns. *)
Theorem recon_term_squared_error (B n : nat) (inputs recon : Mat) :
  (0 < B)%nat -> shape2 B n inputs -> shape2 B n recon ->
  compute_recontruct_loss inputs recon default_loss
  = Ok (sum_squared_error inputs recon / INR B) /\
  (forall self logits beta total r k,
      elbo self inputs recon logits beta = Ok (total, r, k) ->
      r = sum_squared_error inputs recon / INR B).
Proof.
  intros _ Hi Hr.
  pose proof (compute_recontruct_loss_mse B n inputs recon Hi Hr) as Hrec.
  split; [exact Hrec|].
  intros self logits beta total r k. unfold elbo, default_loss. rewrite Hrec. cbn [bind].
  destruct (compute_KLD_loss self logits); cbn [bind];
    [ intros H; injection H as _ <- _; reflexivity | discriminate ].
Qed.

(** C8.  Every selector string other than ['mse'], recognised or not, is
    handled as the cross-entropy choice: no error is raised for it and
    the cross-entropy term, summed and divided by the batch size, is
    returned. *)
Theorem recon_loss_selector_fallback (B n : nat) (inputs recon : Mat) (loss : string) :
  loss <> "mse"%string ->
  shape2 B n inputs -> shape2 B n recon ->
  compute_recontruct_loss inputs recon loss
  = Ok (sum_cross_entropy inputs recon / INR B) /\
  (forall other, other <> "mse"%string ->
     compute_recontruct_loss inputs recon other
     = compute_recontruct_loss inputs recon loss).
Proof.
  intros Hloss Hi Hr.
  rewrite (compute_recontruct_loss_other B n inputs recon loss Hloss Hi Hr).
  split; [reflexivity|]. intros other Hother.
  apply (compute_recontruct_loss_other B n inputs recon other Hother Hi Hr).
Qed.

(** C5.  For a well-formed model and a batch [x] of vectors of dimension
    [input_size], [Encoder] runs the state machine that starts with
    hidden state [x] and a zero recurrent input of shape (batch,
    input_size); each of the [word_length] steps advances the cell,
    projects the new hidden state to vocabulary logits, takes
    [gumbel_softmax] at the configured temperature when the model is in
    training mode and sampling is enabled and the plain softmax
    otherwise, discretizes the result and feeds the embedded one-hot
    tensor back as the next input.  The three collected sequences are
    returned batch-major, of shape (batch, word_length, dictionary_size)
    for the tokens and the relaxed distributions: entry [b][n] is row
    [b] of what step [n] emitted. *)
Theorem Encoder_state_machine (self : VAE) (x : Mat) (sampling : bool) (g : Generator) :
  well_formed self ->
  Forall (fun v => length v = input_size self) x ->
  let B := length x in
  let W := word_length self in
  let K := dictionary_size self in
  let st := encoder_state self sampling x g in
  let out := encoder_output self sampling x g in
  (hidden (st 0%nat) = x /\
   cell_input (st 0%nat) = repeat (repeat 0 (input_size self)) B /\
   generator (st 0%nat) = g) /\
  (forall n,
      let h := gru_cell (encoder_gru self) (cell_input (st n)) (hidden (st n)) in
      let pre_logits := linear (hidden_to_token self) h in
      let zg := if training self && sampling
                then gumbel_softmax pre_logits (temperature self) (generator (st n))
                else (softmax pre_logits, generator (st n)) in
      relaxed (out n) = fst zg /\
      (one_hot (out n), symbols (out n)) = straight_through_discretize (fst zg) /\
      hidden (st (S n)) = h /\
      cell_input (st (S n)) = linear (token_to_hidden self) (one_hot (out n)) /\
      generator (st (S n)) = snd zg) /\
  (exists tokens logits messages,
      Encoder self x sampling g = Ok (tokens, logits, messages, generator (st W)) /\
      shape3 B W K tokens /\
      shape3 B W K logits /\
      length messages = B /\
      Forall (fun m => length m = W) messages /\
      forall b n, (b < B)%nat -> (n < W)%nat ->
        nth n (nth b tokens []) [] = nth b (one_hot (out n)) [] /\
        nth n (nth b logits []) [] = nth b (relaxed (out n)) [] /\
        nth n (nth b messages []) 0%nat = nth b (symbols (out n)) 0%nat).
Proof.
  intros Hwf _ B W K st out. split; [|split].
  - repeat split.
  - intros n. cbn zeta. unfold out, st, encoder_output. cbn [encoder_state].
    unfold encoder_step. cbn [fst snd relaxed one_hot symbols hidden cell_input generator].
    rewrite relaxed_sample_branch.
    split; [reflexivity|]. split; [symmetry; apply surjective_pairing|].
    repeat split.
  - exists (batch_major [] B W (fun n => one_hot (out n))),
           (batch_major [] B W (fun n => relaxed (out n))),
           (batch_major 0%nat B W (fun n => symbols (out n))).
    split; [apply (Encoder_steps self x sampling g (wf_word_length self Hwf))|].
    split; [apply batch_major_shape3; intros n;
            apply (encoder_output_shapes self sampling x g n (wf_hidden_to_token self Hwf))|].
    split; [apply batch_major_shape3; intros n;
            apply (encoder_output_shapes self sampling x g n (wf_hidden_to_token self Hwf))|].
    do 2 (split; [apply batch_major_length|]).
    intros b n Hb Hn. repeat split.
    + apply (batch_major_nth [] B W (fun n => one_hot (out n))); assumption.
    + apply (batch_major_nth [] B W (fun n => relaxed (out n))); assumption.
    + apply (batch_major_nth 0%nat B W (fun n => symbols (out n))); assumption.
Qed.

(** C6.  On mean and logvar of one shape, [reparameterize] in training
    mode returns [mean + exp(0.5 * logvar) * noise], where the noise is
    one draw of that shape from [normal_] with mean 0 and standard
    deviation 1 taken from the current generator state, which the call
    advances; in evaluation mode it returns the mean and leaves the
    generator alone, so two evaluation-mode calls on the same mean and
    logvar agree. *)
Theorem reparameterize_sampler (self : VAE) (B n : nat) (mu logvar : Mat) (g g' : Generator) :
  shape2 B n mu -> shape2 B n logvar ->
  let draw := normal_ (map (map (fun x => exp (x * 0.5))) logvar) 0 1 g in
  (training self = true ->
     reparameterize self mu logvar g = (sample_value mu logvar (fst draw), snd draw) /\
     shape2 B n (fst draw) /\
     shape2 B n (fst (reparameterize self mu logvar g))) /\
  (training self = false ->
     reparameterize self mu logvar g = (mu, g) /\
     fst (reparameterize self mu logvar g') = fst (reparameterize self mu logvar g)).
Proof.
  intros Hmu Hlv draw. split; intros Ht.
  - pose proof (reparameterize_training self mu logvar g Ht) as H. cbn zeta in H.
    fold draw in H. rewrite H. cbn [fst].
    pose proof (noise_shape B n logvar g Hlv) as Hn. fold draw in Hn.
    repeat split; try apply Hn.
    + apply (proj1 (shape2_map3 B n _ mu logvar (fst draw) Hmu Hlv Hn)).
    + apply (proj2 (shape2_map3 B n _ mu logvar (fst draw) Hmu Hlv Hn)).
  - rewrite !reparameterize_eval by exact Ht. split; reflexivity.
Qed.

(** C7.  For a well-formed model and a token sequence of shape (batch,
    word_length, dictionary_size) with a non-empty batch, [Decoder]
    embeds every step's vector with [token_to_hidden] independently of
    the recurrence, starts from a zero hidden state, advances the cell
    over the steps in order, and computes mean, logvar and the
    reconstruction, each of shape (batch, input_size), from the hidden
    state after the last step alone: two sequences that lead to the
    same final hidden state give the same result. *)
Theorem Decoder_final_state (self : VAE) (B : nat) (z z' : Tensor3) (g : Generator) :
  well_formed self -> (0 < B)%nat ->
  shape3 B (word_length self) (dictionary_size self) z ->
  shape3 B (word_length self) (dictionary_size self) z' ->
  let W := word_length self in
  let h := decoder_state self z in
  let mean := linear (output_mean self) (h W) in
  let logvar := linear (output_logvar self) (h W) in
  let sample := reparameterize self mean logvar g in
  h 0%nat = repeat (repeat 0 (input_size self)) B /\
  (forall n, (n < W)%nat ->
     h (S n) = gru_cell (decoder_gru self)
                 (map (fun steps => linear_vec (token_to_hidden self) (nth n steps [])) z)
                 (h n)) /\
  Decoder self z g = Ok (fst sample, mean, logvar, snd sample) /\
  shape2 B (input_size self) (fst sample) /\
  shape2 B (input_size self) mean /\
  shape2 B (input_size self) logvar /\
  (decoder_state self z' W = h W -> Decoder self z' g = Decoder self z g).
Proof.
  intros Hwf HB Hz Hz' W h mean logvar sample.
  pose proof (wf_word_length self Hwf) as HW.
  pose proof (shape3_blocks _ _ _ _ Hz) as Hb.
  assert (HD : forall y, shape3 B W (dictionary_size self) y ->
               Decoder self y g = Ok (decoder_heads self (decoder_state self y W) g)).
  { intros y Hy. apply Decoder_steps;
      [rewrite (proj1 Hy); exact HB | exact HW | exact (shape3_blocks _ _ _ _ Hy)]. }
  pose proof (decoder_heads_shape self (h W) g Hwf) as Hs.
  unfold decoder_heads in Hs. fold mean logvar sample in Hs.
  unfold h in Hs at 1 2 3. rewrite decoder_state_length, (proj1 Hz) in Hs.
  destruct Hs as [Hs1 [Hs2 Hs3]].
  split; [|split; [|split; [|split; [|split; [|split]]]]]; try assumption.
  - unfold h. cbn [decoder_state]. unfold zeros. now rewrite (proj1 Hz).
  - intros n Hn. unfold h. cbn [decoder_state].
    now rewrite (select1_decoder_embed self W n z Hn Hb).
  - rewrite (HD z Hz). reflexivity.
  - intros Heq. rewrite (HD z Hz), (HD z' Hz'). unfold h in Heq. now rewrite Heq.
Qed.

(** C9.  The per-batch step of [train] never completes: [forward]
    returns four values and the driver unpacks five names, so whenever
    the forward pass itself succeeds the step raises [ValueError], and
    for a well-formed model and a non-empty batch of vectors of
    dimension [input_size] it does succeed.  The statements after the
    unpacking hand [elbo] the tensor bound to the second name, the
    one-hot tokens, as its [logits] argument; the tensor bound to the
    third name is not used. *)
Theorem train_batch_fails (self : VAE) (data : Mat) (beta : R) (g : Generator) :
  (exists e, train_batch self data beta g = Raise e) /\
  (forall tuple g', call_model (set_training self true) data g = Ok (tuple, g') ->
     length tuple = 4%nat /\ train_batch self data beta g = Raise ValueError) /\
  (well_formed self -> (0 < length data)%nat ->
   Forall (fun v => length v = input_size self) data ->
     train_batch self data beta g = Raise ValueError) /\
  (forall recon one_hot_token logits logits' message extra,
     train_batch_loss self data beta
       (PyMat recon, PyTensor3 one_hot_token, logits, message, extra)
     = elbo self data recon one_hot_token beta /\
     train_batch_loss self data beta
       (PyMat recon, PyTensor3 one_hot_token, logits', message, extra)
     = train_batch_loss self data beta
         (PyMat recon, PyTensor3 one_hot_token, logits, message, extra)).
Proof.
  pose proof (train_batch_raises self data beta g) as Hr.
  repeat split.
  - destruct (forward (set_training self true) data g); eauto.
  - eapply call_model_four; eassumption.
  - unfold call_model in H.
    destruct (forward (set_training self true) data g); [exact Hr | discriminate].
  - intros Hwf HB _.
    rewrite (forward_steps (set_training self true) data g HB (wf_word_length self Hwf))
      in Hr.
    exact Hr.
Qed.

(** C10.  The encoder's feedback projection and the decoder's embedding
    are the one [token_to_hidden] attribute: after an update that sets
    it to weights [L] of the same shape, the next recurrent input of
    every encoder step and every embedded symbol of the decoder are
    computed with [L], in the state machines that [Encoder] and
    [Decoder] run. *)
Theorem token_to_hidden_shared (self : VAE) (L : Linear) (B : nat) (x : Mat) (z : Tensor3)
    (sampling : bool) (g : Generator) :
  well_formed self ->
  linear_shape (dictionary_size self) (input_size self) L ->
  shape2 B (input_size self) x ->
  (0 < B)%nat -> shape3 B (word_length self) (dictionary_size self) z ->
  let self' := update_token_to_hidden self L in
  let W := word_length self in
  let st := encoder_state self' sampling x g in
  let out := encoder_output self' sampling x g in
  token_to_hidden self' = L /\
  (forall n, cell_input (st (S n)) = map (linear_vec L) (one_hot (out n))) /\
  Encoder self' x sampling g
  = Ok (batch_major [] B W (fun n => one_hot (out n)),
        batch_major [] B W (fun n => relaxed (out n)),
        batch_major 0%nat B W (fun n => symbols (out n)),
        generator (st W)) /\
  (forall n, (n < W)%nat ->
     decoder_state self' z (S n)
     = gru_cell (decoder_gru self)
         (map (fun steps => linear_vec L (nth n steps [])) z)
         (decoder_state self' z n)) /\
  Decoder self' z g = Ok (decoder_heads self' (decoder_state self' z W) g).
Proof.
  intros Hwf _ [Hx _] HB Hz self' W st out.
  pose proof (wf_word_length self Hwf) as HW.
  pose proof (shape3_blocks _ _ _ _ Hz) as Hb.
  split; [reflexivity|]. split; [reflexivity|]. split; [|split].
  - rewrite <- Hx. apply (Encoder_steps self' x sampling g HW).
  - intros n Hn. cbn [decoder_state].
    now rewrite (select1_decoder_embed self' W n z Hn Hb).
  - apply (Decoder_steps self' z g); [rewrite (proj1 Hz); exact HB | exact HW | exact Hb].
Qed.

(** ** Further properties: the encoder without sampling *)

Lemma relaxed_sample_eval (self : VAE) (sampling : bool) (pre : Mat) (g : Generator) :
  training self && sampling = false ->
  relaxed_sample self sampling pre g = (softmax pre, g).
Proof. intros H. rewrite relaxed_sample_branch, H. reflexivity. Qed.

Lemma encoder_state_eval (self : VAE) (sampling : bool) (x : Mat) (g g' : Generator) (n : nat) :
  training self && sampling = false ->
  hidden (encoder_state self sampling x g n) = hidden (encoder_state self sampling x g' n) /\
  cell_input (encoder_state self sampling x g n)
  = cell_input (encoder_state self sampling x g' n) /\
  generator (encoder_state self sampling x g n) = g.
Proof.
  intros H. induction n as [|n [IHh [IHc IHg]]].
  - repeat split.
  - cbn [encoder_state]. unfold encoder_step.
    cbn [snd hidden cell_input generator].
    rewrite !(relaxed_sample_eval self sampling _ _ H). cbn [fst snd].
    rewrite IHh, IHc. repeat split. exact IHg.
Qed.

Lemma encoder_output_eval (self : VAE) (sampling : bool) (x : Mat) (g g' : Generator) (n : nat) :
  training self && sampling = false ->
  encoder_output self sampling x g n = encoder_output self sampling x g' n.
Proof.
  intros H. destruct (encoder_state_eval self sampling x g g' n H) as [Hh [Hc _]].
  unfold encoder_output, encoder_step. cbn [fst].
  rewrite !(relaxed_sample_eval self sampling _ _ H). cbn [fst].
  rewrite Hh, Hc. reflexivity.
Qed.

Lemma encoder_output_eval_relaxed (self : VAE) (sampling : bool) (x : Mat) (g : Generator)
    (n : nat) :
  training self && sampling = false ->
  relaxed (encoder_output self sampling x g n)
  = softmax (linear (hidden_to_token self)
               (gru_cell (encoder_gru self)
                  (cell_input (encoder_state self sampling x g n))
                  (hidden (encoder_state self sampling x g n)))).
Proof.
  intros H. unfold encoder_output, encoder_step. cbn [fst relaxed].
  now rewrite (relaxed_sample_eval self sampling _ _ H).
Qed.

Lemma batch_major_ext {A : Type} (d : A) (B W : nat) (f f' : nat -> list A) :
  (forall n, f n = f' n) -> batch_major d B W f = batch_major d B W f'.
Proof.
  intros H. unfold batch_major. apply map_ext. intros b. apply map_ext. intros n.
  now rewrite H.
Qed.

(** X1.  For a well-formed model in evaluation mode, or with sampling
    switched off, and a batch of vectors of dimension [input_size],
    [Encoder] draws no random number: it hands the generator back
    as it received it, and its three outputs are the same whatever the
    generator state. *)
Theorem Encoder_without_sampling_deterministic (self : VAE) (x : Mat) (sampling : bool)
    (g g' : Generator) :
  well_formed self ->
  Forall (fun v => length v = input_size self) x ->
  training self && sampling = false ->
  exists tokens logits messages,
    Encoder self x sampling g = Ok (tokens, logits, messages, g) /\
    Encoder self x sampling g' = Ok (tokens, logits, messages, g').
Proof.
  intros Hwf _ H. pose proof (wf_word_length self Hwf) as HW.
  exists (batch_major [] (length x) (word_length self)
            (fun n => one_hot (encoder_output self sampling x g n))),
         (batch_major [] (length x) (word_length self)
            (fun n => relaxed (encoder_output self sampling x g n))),
         (batch_major 0%nat (length x) (word_length self)
            (fun n => symbols (encoder_output self sampling x g n))).
  rewrite !(Encoder_steps self x sampling _ HW). cbn zeta.
  rewrite (proj2 (proj2 (encoder_state_eval self sampling x g g _ H))).
  rewrite (proj2 (proj2 (encoder_state_eval self sampling x g' g _ H))).
  split; [reflexivity|].
  rewrite (batch_major_ext [] _ _
             (fun n => one_hot (encoder_output self sampling x g' n))
             (fun n => one_hot (encoder_output self sampling x g n)))
    by (intros n; now rewrite (encoder_output_eval self sampling x g' g n H)).
  rewrite (batch_major_ext [] _ _
             (fun n => relaxed (encoder_output self sampling x g' n))
             (fun n => relaxed (encoder_output self sampling x g n)))
    by (intros n; now rewrite (encoder_output_eval self sampling x g' g n H)).
  rewrite (batch_major_ext 0%nat _ _
             (fun n => symbols (encoder_output self sampling x g' n))
             (fun n => symbols (encoder_output self sampling x g n)))
    by (intros n; now rewrite (encoder_output_eval self sampling x g' g n H)).
  reflexivity.
Qed.

(** X2.  For a well-formed model in evaluation mode, or with sampling
    switched off, every vector of the relaxed-distribution sequence that
    [Encoder] returns is a probability vector: its entries are positive
    and sum to 1. *)
Theorem Encoder_without_sampling_probabilities (self : VAE) (x : Mat) (sampling : bool)
    (g g' : Generator) (tokens logits : Tensor3) (messages : list (list nat)) :
  well_formed self ->
  Forall (fun v => length v = input_size self) x ->
  training self && sampling = false ->
  Encoder self x sampling g = Ok (tokens, logits, messages, g') ->
  Forall (Forall (fun v => Rsum v = 1 /\ Forall (fun p => 0 < p) v)) logits.
Proof.
  intros Hwf _ H HE.
  rewrite (Encoder_steps self x sampling g (wf_word_length self Hwf)) in HE.
  cbn zeta in HE. injection HE as _ <- _ _.
  unfold batch_major. apply Forall_map, Forall_forall. intros b Hb. apply in_seq in Hb.
  apply Forall_map, Forall_forall. intros n _. cbv beta.
  destruct (encoder_output_shapes self sampling x g n (wf_hidden_to_token self Hwf))
    as [[Hlen Hrows] _].
  pose proof (encoder_output_eval_relaxed self sampling x g n H) as Hrel.
  set (r := relaxed (encoder_output self sampling x g n)) in *.
  change (Rsum (nth b r []) = 1 /\ Forall (fun p => 0 < p) (nth b r [])).
  assert (Hin : In (nth b r []) r) by (apply nth_In; lia).
  rewrite Forall_forall in Hrows. pose proof (Hrows _ Hin) as HK.
  rewrite Hrel in Hin at 2.
  unfold softmax in Hin. apply in_map_iff in Hin. destruct Hin as [u [Hu Hin]].
  rewrite <- Hu in HK |- *. unfold softmax_vec in HK. rewrite length_map in HK.
  assert (Hne : u <> []).
  { intros ->. pose proof (wf_dictionary_size self Hwf). simpl in HK. lia. }
  split; [apply softmax_vec_sum, Hne|].
  apply Forall_forall. intros p Hp. apply (softmax_vec_pos u p Hp).
Qed.

(** X3.  For a model with the parameter shapes of [__init__], positive
    [input_size] and [dictionary_size], and a batch of vectors of
    dimension [input_size], [Encoder] fails on exactly one
    configuration: it raises [RuntimeError] when [word_length] is 0
    (there is nothing to stack) and returns normally for every positive
    [word_length]. *)
Theorem Encoder_raises_iff_no_step (self : VAE) (x : Mat) (sampling : bool) (g : Generator)
    (e : exn) :
  init_shapes self ->
  (0 < input_size self)%nat -> (0 < dictionary_size self)%nat ->
  Forall (fun v => length v = input_size self) x ->
  (Encoder self x sampling g = Raise e <->
   (e = RuntimeError /\ word_length self = 0%nat)).
Proof.
  intros _ _ _ _. split.
  - intros HE. destruct (word_length self) as [|W] eqn:EW.
    + rewrite (Encoder_no_step self x sampling g EW) in HE.
      injection HE as <-. split; reflexivity.
    + rewrite (Encoder_steps self x sampling g) in HE by lia. discriminate.
  - intros [-> HW]. apply Encoder_no_step, HW.
Qed.

(** ** Further properties: the decoder and the forward pass *)

Lemma map2_app {A B C : Type} (f : A -> B -> C) (a1 a2 : list A) (b1 b2 : list B) :
  length a1 = length b1 ->
  map2 f (a1 ++ a2) (b1 ++ b2) = map2 f a1 b1 ++ map2 f a2 b2.
Proof.
  revert b1. induction a1 as [|a a1 IH]; intros [|b b1] H; simpl in H; try discriminate.
  - reflexivity.
  - cbn [app]. rewrite !map2_cons, IH by congruence. reflexivity.
Qed.

Lemma decoder_state_app (self : VAE) (z1 z2 : Tensor3) (n : nat) :
  decoder_state self (z1 ++ z2) n = decoder_state self z1 n ++ decoder_state self z2 n.
Proof.
  induction n as [|n IH]; cbn [decoder_state].
  - unfold zeros. now rewrite length_app, repeat_app.
  - rewrite IH. unfold gru_cell, select1, decoder_embed. rewrite !map_app.
    apply map2_app. rewrite !length_map. symmetry. apply decoder_state_length.
Qed.

Lemma decoder_heads_eval (self : VAE) (h : Mat) (g : Generator) :
  training self = false ->
  decoder_heads self h g
  = (linear (output_mean self) h, linear (output_mean self) h,
     linear (output_logvar self) h, g).
Proof.
  intros Ht. unfold decoder_heads. now rewrite (reparameterize_eval self _ _ g Ht).
Qed.

(** X4.  Decoding is done per batch element: for a well-formed model
    and two non-empty batches of shape (batch, word_length,
    dictionary_size), the mean and the logvar of the concatenated batch
    are the concatenations of the two means and of the two logvars, and
    in evaluation mode so is the reconstruction, with the generator
    left as it was. *)
Theorem Decoder_batch_concat (self : VAE) (B1 B2 : nat) (z1 z2 : Tensor3)
    (g g1 g2 : Generator) (o1 m1 l1 o2 m2 l2 : Mat) :
  well_formed self ->
  (0 < B1)%nat -> (0 < B2)%nat ->
  shape3 B1 (word_length self) (dictionary_size self) z1 ->
  shape3 B2 (word_length self) (dictionary_size self) z2 ->
  Decoder self z1 g = Ok (o1, m1, l1, g1) ->
  Decoder self z2 g = Ok (o2, m2, l2, g2) ->
  exists o g',
    Decoder self (z1 ++ z2) g = Ok (o, m1 ++ m2, l1 ++ l2, g') /\
    (training self = false -> o = o1 ++ o2 /\ g' = g).
Proof.
  intros Hwf HB1 HB2 Hz1 Hz2 HD1 HD2.
  pose proof (wf_word_length self Hwf) as HW.
  pose proof (shape3_blocks _ _ _ _ Hz1) as Hf1.
  pose proof (shape3_blocks _ _ _ _ Hz2) as Hf2.
  assert (H1 : (0 < length z1)%nat) by (rewrite (proj1 Hz1); exact HB1).
  assert (H2 : (0 < length z2)%nat) by (rewrite (proj1 Hz2); exact HB2).
  rewrite (Decoder_steps self z1 g H1 HW Hf1) in HD1.
  rewrite (Decoder_steps self z2 g H2 HW Hf2) in HD2.
  assert (H12 : (0 < length (z1 ++ z2))%nat) by (rewrite length_app; lia).
  assert (Hf12 : Forall (fun m : Mat => length m = word_length self) (z1 ++ z2))
    by (apply Forall_app; split; assumption).
  rewrite (Decoder_steps self (z1 ++ z2) g H12 HW Hf12).
  rewrite decoder_state_app. unfold decoder_heads in *.
  injection HD1 as Ho1 Hm1 Hl1 Hg1. injection HD2 as Ho2 Hm2 Hl2 Hg2.
  unfold linear in *. rewrite !map_app. rewrite Hm1, Hm2, Hl1, Hl2.
  eexists. eexists. split; [reflexivity|].
  intros Ht. rewrite (reparameterize_eval self _ _ g Ht).
  rewrite (reparameterize_eval self _ _ g Ht) in Ho1.
  rewrite (reparameterize_eval self _ _ g Ht) in Ho2.
  cbn [fst snd] in *. subst. split; reflexivity.
Qed.

(** X5.  [Decoder] raises [RuntimeError] on an empty batch and for a
    model whose [word_length] is 0: the view into (batch, word_length,
    -1) is rejected. *)
Theorem Decoder_raises_on_degenerate_sizes (self : VAE) (z : Tensor3) (g : Generator) :
  length z = 0%nat \/ word_length self = 0%nat ->
  Decoder self z g = Raise RuntimeError.
Proof.
  intros [Hz | HW].
  - destruct z; [apply Decoder_empty_batch | discriminate].
  - apply Decoder_no_step, HW.
Qed.

(** X6.  For a well-formed model in evaluation mode and a non-empty
    batch of vectors of dimension [input_size], [forward] succeeds, its
    result does not depend on the generator, which it hands back
    untouched, the reconstruction is the decoder's mean of the returned
    tokens, and the shapes are (batch, input_size) for the
    reconstruction, (batch, word_length, dictionary_size) for tokens and
    relaxed distributions and (batch, word_length) for the messages. *)
Theorem forward_eval (self : VAE) (x : Mat) (g g' : Generator) :
  well_formed self -> training self = false ->
  (0 < length x)%nat -> Forall (fun v => length v = input_size self) x ->
  exists recon tokens logits messages logvar,
    forward self x g = Ok (recon, tokens, logits, messages, g) /\
    forward self x g' = Ok (recon, tokens, logits, messages, g') /\
    Decoder self tokens g = Ok (recon, recon, logvar, g) /\
    shape2 (length x) (input_size self) recon /\
    shape3 (length x) (word_length self) (dictionary_size self) tokens /\
    shape3 (length x) (word_length self) (dictionary_size self) logits /\
    length messages = length x /\
    Forall (fun m => length m = word_length self) messages.
Proof.
  intros Hwf Ht HB _.
  pose proof (wf_word_length self Hwf) as HW.
  assert (H : training self && true = false) by now rewrite Ht.
  set (B := length x). set (W := word_length self).
  set (out := encoder_output self true x g).
  set (tokens := batch_major [] B W (fun n => one_hot (out n))).
  destruct (batch_major_length [] B W (fun n => one_hot (out n))) as [Hl Hf].
  fold tokens in Hl, Hf.
  exists (linear (output_mean self) (decoder_state self tokens W)), tokens,
         (batch_major [] B W (fun n => relaxed (out n))),
         (batch_major 0%nat B W (fun n => symbols (out n))),
         (linear (output_logvar self) (decoder_state self tokens W)).
  assert (Hfw : forall g0, forward self x g0
            = Ok (linear (output_mean self) (decoder_state self tokens W), tokens,
                  batch_major [] B W (fun n => relaxed (out n)),
                  batch_major 0%nat B W (fun n => symbols (out n)), g0)).
  { intros g0. rewrite (forward_steps self x g0 HB HW). cbn zeta.
    rewrite (proj2 (proj2 (encoder_state_eval self true x g0 g0 _ H))).
    fold B W.
    rewrite (batch_major_ext [] B W
               (fun n => one_hot (encoder_output self true x g0 n))
               (fun n => one_hot (out n)))
      by (intros n; unfold out; now rewrite (encoder_output_eval self true x g0 g n H)).
    rewrite (batch_major_ext [] B W
               (fun n => relaxed (encoder_output self true x g0 n))
               (fun n => relaxed (out n)))
      by (intros n; unfold out; now rewrite (encoder_output_eval self true x g0 g n H)).
    rewrite (batch_major_ext 0%nat B W
               (fun n => symbols (encoder_output self true x g0 n))
               (fun n => symbols (out n)))
      by (intros n; unfold out; now rewrite (encoder_output_eval self true x g0 g n H)).
    fold tokens. rewrite (decoder_heads_eval self _ g0 Ht). reflexivity. }
  split; [apply Hfw|]. split; [apply Hfw|].
  split.
  { rewrite Decoder_steps; [ | rewrite Hl; exact HB | exact HW | exact Hf ].
    fold W. now rewrite (decoder_heads_eval self _ g Ht). }
  split.
  { pose proof (linear_shape2 _ _ _ (decoder_state self tokens W) (wf_output_mean self Hwf))
      as Hs.
    now rewrite decoder_state_length, Hl in Hs. }
  split; [apply batch_major_shape3; intros n;
          apply (encoder_output_shapes self true x g n (wf_hidden_to_token self Hwf))|].
  split; [apply batch_major_shape3; intros n;
          apply (encoder_output_shapes self true x g n (wf_hidden_to_token self Hwf))|].
  apply batch_major_length.
Qed.

(** ** Further properties: the KL term *)

Lemma ln_le_minus_1 (y : R) : 0 < y -> ln y <= y - 1.
Proof.
  intros Hy. pose proof (exp_ineq1_le (y - 1)) as H.
  replace (1 + (y - 1)) with y in H by ring.
  destruct H as [H | H].
  - left. rewrite <- (ln_exp (y - 1)). apply ln_increasing; assumption.
  - right. rewrite H at 1. apply ln_exp.
Qed.

Lemma ln_le_compat (a b : R) : 0 < a -> a <= b -> ln a <= ln b.
Proof.
  intros Ha [H | ->]; [left; apply ln_increasing; assumption | right; reflexivity].
Qed.

Lemma Rsum_map_le {A : Type} (f h : A -> R) (l : list A) :
  (forall a, In a l -> f a <= h a) -> Rsum (map f l) <= Rsum (map h l).
Proof.
  induction l as [|a l IH]; simpl; intros H; [lra|].
  pose proof (H a (or_introl eq_refl)). assert (Rsum (map f l) <= Rsum (map h l)) by auto.
  lra.
Qed.

Lemma Rsum_map_const {A : Type} (c : R) (l : list A) :
  Rsum (map (fun _ => c) l) = INR (length l) * c.
Proof.
  induction l as [|a l IH]; [simpl; lra|].
  cbn [map Rsum fold_right length]. fold (Rsum (map (fun _ : A => c) l)).
  rewrite IH, S_INR. ring.
Qed.

Lemma Rsum_map_minus (c : R) (l : list R) :
  Rsum (map (fun a => a - c) l) = Rsum l - INR (length l) * c.
Proof.
  induction l as [|a l IH]; [simpl; lra|].
  cbn [map Rsum fold_right length]. fold (Rsum (map (fun a => a - c) l)). fold (Rsum l).
  rewrite IH, S_INR. ring.
Qed.

Lemma Rsum_map_mult_r (c : R) (l : list R) :
  Rsum (map (fun a => a * c) l) = Rsum l * c.
Proof.
  induction l as [|a l IH]; [simpl; lra|].
  cbn [map Rsum fold_right]. fold (Rsum (map (fun a => a * c) l)). fold (Rsum l).
  rewrite IH. ring.
Qed.

Lemma Rsum_nonneg (l : list R) : Forall (fun a => 0 < a) l -> 0 <= Rsum l.
Proof. induction 1 as [|a l Ha Hl IH]; simpl; lra. Qed.

Lemma In_le_Rsum (a : R) (l : list R) :
  Forall (fun a => 0 < a) l -> In a l -> a <= Rsum l.
Proof.
  induction 1 as [|b l Hb Hl IH]; simpl; [contradiction|].
  pose proof (Rsum_nonneg l Hl). intros [-> | Hin]; [lra|].
  specialize (IH Hin). lra.
Qed.

(** The divergence of a probability vector from the uniform distribution
    lies between 0 and [ln K]. *)
Lemma KL_uniform_bounds (p : Vec) (K : nat) :
  length p = K -> (0 < K)%nat ->
  Forall (fun a => 0 < a) p -> Rsum p = 1 ->
  0 <= KL p (uniform K) <= ln (INR K).
Proof.
  intros Hlen HK Hpos Hsum. assert (HK' : 0 < INR K) by (apply lt_0_INR; exact HK).
  unfold KL, uniform. rewrite (map2_repeat_r _ _ _ K) by exact Hlen.
  rewrite Forall_forall in Hpos. split.
  - apply Rle_trans with (Rsum (map (fun a => a - 1 / INR K) p)).
    + rewrite Rsum_map_minus, Hsum, Hlen. right. field. lra.
    + apply Rsum_map_le. intros a Ha. pose proof (Hpos a Ha) as Hap.
      replace (a / (1 / INR K)) with (a * INR K) by (field; lra).
      assert (Hinv : 0 < / (a * INR K))
        by (apply Rinv_0_lt_compat, Rmult_lt_0_compat; assumption).
      pose proof (ln_le_minus_1 _ Hinv) as Hl.
      rewrite ln_Rinv in Hl by (apply Rmult_lt_0_compat; assumption).
      assert (Ha1 : a * (1 - / (a * INR K)) <= a * ln (a * INR K))
        by (apply Rmult_le_compat_l; lra).
      replace (a * (1 - / (a * INR K))) with (a - 1 / INR K) in Ha1 by (field; lra).
      exact Ha1.
  - apply Rle_trans with (Rsum (map (fun a => a * ln (INR K)) p)).
    + apply Rsum_map_le. intros a Ha. pose proof (Hpos a Ha) as Hap.
      replace (a / (1 / INR K)) with (a * INR K) by (field; lra).
      apply Rmult_le_compat_l; [lra|].
      apply ln_le_compat; [apply Rmult_lt_0_compat; assumption|].
      assert (a <= 1).
      { rewrite <- Hsum. apply In_le_Rsum; [apply Forall_forall; exact Hpos | exact Ha]. }
      rewrite <- (Rmult_1_l (INR K)) at 2. apply Rmult_le_compat_r; lra.
    + rewrite Rsum_map_mult_r, Hsum. lra.
Qed.

Lemma KL_step_bounds (v : Vec) (K : nat) :
  length v = K -> (0 < K)%nat ->
  0 <= KL (categorical_probs v) (uniform K) <= ln (INR K).
Proof.
  intros Hlen HK. rewrite categorical_probs_softmax.
  assert (Hv : v <> []) by (destruct v; [simpl in Hlen; lia | discriminate]).
  apply KL_uniform_bounds; try assumption.
  - unfold softmax_vec. now rewrite length_map.
  - apply Forall_forall. intros p Hp. apply (softmax_vec_pos v p Hp).
  - apply softmax_vec_sum, Hv.
Qed.

Lemma Rsum_map_bounds {A : Type} (f : A -> R) (lo hi : R) (l : list A) :
  (forall a, In a l -> lo <= f a <= hi) ->
  INR (length l) * lo <= Rsum (map f l) <= INR (length l) * hi.
Proof.
  intros H. rewrite <- !Rsum_map_const. split; apply Rsum_map_le; intros a Ha; apply H, Ha.
Qed.

Lemma kld_sum_bounds (self : VAE) (B : nat) (logits : Tensor3) :
  (0 < dictionary_size self)%nat ->
  shape3 B (word_length self) (dictionary_size self) logits ->
  0 <= Rsum (map (fun m => Rsum (map (fun v => KL (categorical_probs v)
                                              (uniform (dictionary_size self))) m))
                 logits)
    <= INR (B * word_length self) * ln (INR (dictionary_size self)).
Proof.
  intros HK [HB HT]. rewrite Forall_forall in HT.
  assert (Hin : forall m, In m logits ->
            0 <= Rsum (map (fun v => KL (categorical_probs v)
                                        (uniform (dictionary_size self))) m)
              <= INR (word_length self) * ln (INR (dictionary_size self))).
  { intros m Hm. destruct (HT m Hm) as [HW Hrows]. rewrite Forall_forall in Hrows.
    pose proof (Rsum_map_bounds
                  (fun v => KL (categorical_probs v) (uniform (dictionary_size self)))
                  0 (ln (INR (dictionary_size self))) m) as Hb.
    rewrite HW, Rmult_0_r in Hb. apply Hb.
    intros v Hv. apply KL_step_bounds; [apply Hrows, Hv | exact HK]. }
  pose proof (Rsum_map_bounds _ 0 _ logits Hin) as Hb.
  rewrite HB, Rmult_0_r in Hb. rewrite mult_INR, Rmult_assoc. exact Hb.
Qed.

(** X7.  On a sequence of shape (batch, word_length, dictionary_size)
    with the three sizes positive, the KL term is never negative and
    never exceeds [batch * word_length * ln(dictionary_size)]. *)
Theorem kld_term_bounds (self : VAE) (B : nat) (logits : Tensor3) :
  (0 < dictionary_size self)%nat -> (0 < B)%nat -> (0 < word_length self)%nat ->
  shape3 B (word_length self) (dictionary_size self) logits ->
  exists k,
    compute_KLD_loss self logits = Ok k /\
    0 <= k <= INR (B * word_length self) * ln (INR (dictionary_size self)).
Proof.
  intros HK HB HW Hshape.
  rewrite (compute_KLD_loss_value self B logits HK HB HW Hshape).
  eexists. split; [reflexivity|]. apply kld_sum_bounds; assumption.
Qed.

Lemma Rsum_Permutation (l l' : list R) : Permutation l l' -> Rsum l = Rsum l'.
Proof. induction 1; simpl; lra. Qed.

Lemma softmax_vec_Permutation (v v' : Vec) :
  Permutation v v' -> Permutation (softmax_vec v) (softmax_vec v').
Proof.
  intros H. unfold softmax_vec.
  rewrite (Rsum_Permutation (map exp v) (map exp v')) by (apply Permutation_map, H).
  apply Permutation_map, H.
Qed.

(** The divergence of one step does not depend on the order of the
    entries of its vector. *)
Lemma KL_step_Permutation (v v' : Vec) (K : nat) :
  length v = K -> Permutation v v' ->
  KL (categorical_probs v) (uniform K) = KL (categorical_probs v') (uniform K).
Proof.
  intros Hlen Hp. rewrite !categorical_probs_softmax. unfold KL, uniform.
  rewrite !(map2_repeat_r _ _ _ K);
    [ | unfold softmax_vec; rewrite length_map, <- Hlen; symmetry;
        apply Permutation_length, Hp
      | unfold softmax_vec; now rewrite length_map ].
  apply Rsum_Permutation, Permutation_map, softmax_vec_Permutation, Hp.
Qed.

Lemma one_hot_vec_Permutation (i j : nat) :
  Permutation (one_hot_vec i j) (one_hot_vec 0 (i + j)).
Proof.
  unfold one_hot_vec. cbn [repeat app]. rewrite repeat_app.
  apply Permutation_sym, Permutation_middle.
Qed.

Lemma one_hot_vec_length (i j : nat) : length (one_hot_vec i j) = S (i + j).
Proof.
  unfold one_hot_vec. rewrite length_app. cbn [length]. rewrite !repeat_length. lia.
Qed.

(** X8.  On one-hot tokens, which is what [train] hands to [elbo], the
    KL term carries no information about the symbols: every sequence
    of shape (batch, word_length, dictionary_size), the three sizes
    positive, whose vectors are one-hot has the same KL term,
    [batch * word_length] times the divergence of one one-hot step. *)
Theorem kld_term_constant_on_one_hot (self : VAE) (B : nat) (tokens : Tensor3) :
  (0 < dictionary_size self)%nat -> (0 < B)%nat -> (0 < word_length self)%nat ->
  length tokens = B ->
  Forall (fun steps => length steps = word_length self) tokens ->
  Forall (Forall (fun v => exists i j,
                      v = one_hot_vec i j /\ S (i + j) = dictionary_size self)) tokens ->
  compute_KLD_loss self tokens
  = Ok (INR (B * word_length self)
        * KL (categorical_probs (one_hot_vec 0 (dictionary_size self - 1)))
             (uniform (dictionary_size self))).
Proof.
  intros HK HB0 HW0 HB HW Hoh.
  assert (Hshape : shape3 B (word_length self) (dictionary_size self) tokens).
  { split; [exact HB|]. rewrite Forall_forall in *. intros m Hm.
    split; [apply HW, Hm|]. specialize (Hoh m Hm). rewrite Forall_forall in *.
    intros v Hv. destruct (Hoh v Hv) as [i [j [-> Hij]]].
    now rewrite one_hot_vec_length. }
  rewrite (compute_KLD_loss_value self B tokens HK HB0 HW0 Hshape). f_equal.
  set (c := KL (categorical_probs (one_hot_vec 0 (dictionary_size self - 1)))
               (uniform (dictionary_size self))).
  rewrite (map_ext_in _ (fun _ => INR (word_length self) * c)).
  - rewrite Rsum_map_const, HB, mult_INR. ring.
  - intros m Hm. rewrite Forall_forall in HW, Hoh. rewrite <- (HW m Hm).
    rewrite <- Rsum_map_const. f_equal. apply map_ext_in. intros v Hv.
    specialize (Hoh m Hm). rewrite Forall_forall in Hoh.
    destruct (Hoh v Hv) as [i [j [-> Hij]]]. unfold c.
    replace (dictionary_size self - 1)%nat with (i + j)%nat by lia.
    apply KL_step_Permutation; [rewrite one_hot_vec_length; exact Hij|].
    apply one_hot_vec_Permutation.
Qed.

Lemma expand_cases {A : Type} (n : nat) (l : list A) :
  (exists l', expand n l = Ok l' /\ length l' = n /\ forall a, In a l' -> In a l) \/
  expand n l = Raise RuntimeError.
Proof.
  destruct l as [|a [|b l]]; cbn [expand].
  - destruct (Nat.eqb_spec (length (@nil A)) n) as [E|E]; [left|right; reflexivity].
    exists []. repeat split; [exact E | intros a []].
  - left. exists (repeat a n). split; [reflexivity|]. split; [apply repeat_length|].
    intros x Hx. apply repeat_spec in Hx. subst. now left.
  - destruct (Nat.eqb_spec (length (a :: b :: l)) n) as [E|E]; [left|right; reflexivity].
    exists (a :: b :: l). repeat split; [exact E | auto].
Qed.

Lemma expand_other_length {A : Type} (n : nat) (l : list A) :
  length l <> n -> length l <> 1%nat -> expand n l = Raise RuntimeError.
Proof.
  intros Hn H1. destruct l as [|a [|b l]]; cbn [expand].
  - destruct (Nat.eqb_spec (length (@nil A)) n); [contradiction | reflexivity].
  - simpl in H1. lia.
  - destruct (Nat.eqb_spec (length (a :: b :: l)) n); [contradiction | reflexivity].
Qed.

Lemma mapM_cases {A B : Type} (f : A -> result B) (e0 : exn) (l : list A) :
  (forall a, In a l -> (exists b, f a = Ok b) \/ f a = Raise e0) ->
  (exists bs, mapM f l = Ok bs) \/ mapM f l = Raise e0.
Proof.
  induction l as [|a l IH]; intros H; cbn [mapM].
  - left. eexists. reflexivity.
  - destruct (H a (or_introl eq_refl)) as [[b Hb] | Hb]; rewrite Hb; cbn [bind];
      [|right; reflexivity].
    destruct IH as [[bs Hbs] | Hbs]; [intros x Hx; apply H; now right | |];
      rewrite Hbs; cbn [bind]; [left; eexists; reflexivity | right; reflexivity].
Qed.

Lemma mapM_Raise {A B : Type} (f : A -> result B) (e0 : exn) (l : list A) :
  (forall a, In a l -> (exists b, f a = Ok b) \/ f a = Raise e0) ->
  (exists a, In a l /\ f a = Raise e0) ->
  mapM f l = Raise e0.
Proof.
  induction l as [|a l IH]; intros H [x [Hin Hx]]; [contradiction|]. cbn [mapM].
  destruct (H a (or_introl eq_refl)) as [[b Hb] | Hb]; rewrite Hb; cbn [bind];
    [|reflexivity].
  destruct Hin as [-> | Hin]; [congruence|].
  rewrite IH; [reflexivity | intros y Hy; apply H; now right | exists x; auto].
Qed.

Lemma In_combine_repeat {A B : Type} (a : A) (b : B) (l : list B) :
  In b l -> In (a, b) (combine (repeat a (length l)) l).
Proof.
  induction l as [|c l IH]; [contradiction|]. cbn [length repeat combine].
  intros [-> | H]; [now left | right; auto].
Qed.

Lemma In_combine_const {A B : Type} (a : A) (b : B) (la : list A) (l : list B) :
  length la = length l -> (forall x, In x la -> x = a) -> In b l ->
  In (a, b) (combine la l).
Proof.
  revert la. induction l as [|c l IH]; intros [|x la] Hlen Ha Hb; simpl in *;
    try contradiction; try discriminate.
  destruct Hb as [-> | Hb].
  - left. f_equal. apply Ha. now left.
  - right. apply IH; [congruence | intros y Hy; apply Ha; now right | exact Hb].
Qed.

(** The check of one batch element inside [prior.expand(logits.shape)]
    either passes or raises [RuntimeError]. *)
Lemma expand_rows_cases (pm tm : Mat) :
  (exists r, (pm' <- expand (length tm) pm ;;
              mapM (fun pv_tv : Vec * Vec => expand (length (snd pv_tv)) (fst pv_tv))
                   (combine pm' tm)) = Ok r) \/
  (pm' <- expand (length tm) pm ;;
   mapM (fun pv_tv : Vec * Vec => expand (length (snd pv_tv)) (fst pv_tv))
        (combine pm' tm)) = Raise RuntimeError.
Proof.
  destruct (expand_cases (length tm) pm) as [[pm' [-> _]] | ->]; cbn [bind];
    [|right; reflexivity].
  apply mapM_cases. intros [pv tv] _. cbn [fst snd].
  destruct (expand_cases (length tv) pv) as [[r [-> _]] | ->];
    [left; eexists; reflexivity | right; reflexivity].
Qed.

(** X9.  The KL term checks the shape of its argument against the model:
    on an argument whose vectors all have at least one entry,
    when some batch element has a number of steps other than
    [word_length] (and [word_length] is not 1), or some vector has a
    length other than [dictionary_size] (and [dictionary_size] is not
    1), [compute_KLD_loss] raises [RuntimeError]. *)
Theorem kld_term_rejects_other_shapes (self : VAE) (logits : Tensor3) :
  (0 < dictionary_size self)%nat ->
  Forall (Forall (fun v : Vec => (0 < length v)%nat)) logits ->
  Exists (fun steps =>
            (length steps <> word_length self /\ word_length self <> 1%nat) \/
            (Exists (fun v => length v <> dictionary_size self) steps /\
             dictionary_size self <> 1%nat)) logits ->
  compute_KLD_loss self logits = Raise RuntimeError.
Proof.
  intros HK Hpos Hex. unfold compute_KLD_loss, py_truediv.
  destruct (list_eq_dec (list_eq_dec Req_dec_T) (concat logits) []) as [Hc | Hc];
    [rewrite (OneHotCategorical_no_event logits Hc); reflexivity|].
  rewrite (OneHotCategorical_Ok logits Hc).
  2:{ eapply Forall_impl; [|exact Hpos]. intros m Hm.
      eapply Forall_impl; [|exact Hm]. intros v Hv ->. simpl in Hv. lia. }
  cbn [bind].
  destruct (Nat.eqb_spec (dictionary_size self) 0) as [E|_]; [lia|].
  cbn [bind map]. rewrite !map_repeat. unfold expand_as. cbn [expand bind].
  set (row := repeat (ln (INR 1 / INR (dictionary_size self))) (dictionary_size self)).
  set (pm := repeat row (word_length self)).
  rewrite (mapM_Raise _ RuntimeError); [reflexivity | | ].
  - intros [p t] _. cbn [fst snd]. apply expand_rows_cases.
  - apply Exists_exists in Hex. destruct Hex as [tm [Hin Hbad]].
    exists (pm, tm). split; [apply In_combine_repeat, Hin|]. cbn [fst snd].
    destruct Hbad as [[Hlen H1] | [Hv H1]].
    + rewrite expand_other_length; [reflexivity | |]; unfold pm; rewrite repeat_length; congruence.
    + destruct (expand_cases (length tm) pm) as [[pm' [-> [Hl Hsub]]] | ->]; cbn [bind];
        [|reflexivity].
      apply mapM_Raise.
      * intros [pv tv] _. cbn [fst snd].
        destruct (expand_cases (length tv) pv) as [[r [-> _]] | ->];
          [left; eexists; reflexivity | right; reflexivity].
      * apply Exists_exists in Hv. destruct Hv as [v [Hvin Hvlen]].
        exists (row, v). split.
        -- apply In_combine_const; [exact Hl | | exact Hvin].
           intros x Hx. apply Hsub in Hx. unfold pm in Hx. now apply repeat_spec in Hx.
        -- cbn [fst snd]. apply expand_other_length; unfold row; rewrite repeat_length; congruence.
Qed.

(** X10.  A model with [word_length = 1] accepts a sequence with any
    positive number of steps in the KL term: on an argument of shape
    (batch, steps, dictionary_size) with the three sizes positive the
    one-step prior is broadcast along the step axis, and the term is
    again the sum of the per-step divergences. *)
Theorem kld_term_broadcasts_single_step (self : VAE) (B W : nat) (logits : Tensor3) :
  (0 < dictionary_size self)%nat ->
  word_length self = 1%nat ->
  (0 < B)%nat -> (0 < W)%nat ->
  shape3 B W (dictionary_size self) logits ->
  compute_KLD_loss self logits
  = Ok (Rsum (map (fun steps =>
                     Rsum (map (fun v => KL (categorical_probs v)
                                            (uniform (dictionary_size self))) steps))
                  logits)).
Proof.
  intros HK HW1 HB HW Hshape.
  apply (compute_KLD_loss_expanded self B W); try assumption.
  rewrite HW1. cbn [repeat].
  apply (expand_as_single_step _ B W (dictionary_size self));
    [apply repeat_length | exact Hshape].
Qed.

(** X22.  The constructor of the distribution validates the argument
    before anything else is computed: on an argument of shape (batch,
    steps, events), whatever the model, [compute_KLD_loss] raises
    [RuntimeError] when the batch is empty or there is no step, and
    [ValueError] when batch and steps are positive and the vectors have
    no entry. *)
Theorem kld_term_validates_argument (self : VAE) (B W K : nat) (logits : Tensor3) :
  shape3 B W K logits ->
  (B = 0%nat \/ W = 0%nat -> compute_KLD_loss self logits = Raise RuntimeError) /\
  ((0 < B)%nat -> (0 < W)%nat -> K = 0%nat ->
   compute_KLD_loss self logits = Raise ValueError).
Proof.
  intros [HB HT]. split.
  - intros H0. unfold compute_KLD_loss.
    rewrite OneHotCategorical_no_event; [reflexivity|].
    destruct H0 as [-> | ->].
    + apply length_zero_iff_nil in HB. subst logits. reflexivity.
    + clear HB. induction HT as [|m t [Hm _] _ IH]; [reflexivity|].
      apply length_zero_iff_nil in Hm. subst m. exact IH.
  - intros HB0 HW0 ->. unfold compute_KLD_loss.
    rewrite OneHotCategorical_no_entry; [reflexivity | |].
    + apply (concat_shape_nonempty B W); try assumption.
      eapply Forall_impl; [|exact HT]. intros m [Hm _]. exact Hm.
    + destruct logits as [|m t]; [simpl in HB; lia|].
      inversion HT as [|? ? [Hm Hv] _]; subst.
      apply Exists_cons_hd.
      destruct m as [|v m]; [simpl in HW0; lia|].
      inversion Hv as [|? ? Hv0 _]; subst.
      apply Exists_cons_hd. now apply length_zero_iff_nil.
Qed.

(** ** Further properties: the reconstruction term and the total *)

Lemma squares_nonneg (u v : Vec) : 0 <= Rsum (map2 (fun x r => (x - r) ^ 2) u v).
Proof.
  revert v. induction u as [|x u IH]; intros [|r v]; try (simpl; lra).
  rewrite map2_cons. cbn [Rsum fold_right]. fold (Rsum (map2 (fun x r => (x - r) ^ 2) u v)).
  specialize (IH v). pose proof (pow2_ge_0 (x - r)). lra.
Qed.

Lemma squares_zero (u v : Vec) :
  length u = length v ->
  (Rsum (map2 (fun x r => (x - r) ^ 2) u v) = 0 <-> u = v).
Proof.
  revert v. induction u as [|x u IH]; intros [|r v] Hlen; simpl in Hlen; try discriminate.
  - split; reflexivity.
  - rewrite map2_cons. cbn [Rsum fold_right].
    fold (Rsum (map2 (fun x r => (x - r) ^ 2) u v)).
    pose proof (squares_nonneg u v). pose proof (pow2_ge_0 (x - r)).
    specialize (IH v ltac:(congruence)). split.
    + intros Heq. assert (Hx : (x - r) ^ 2 = 0) by lra.
      assert (Hu : Rsum (map2 (fun x r => (x - r) ^ 2) u v) = 0) by lra.
      apply IH in Hu. subst v. f_equal.
      assert (x - r = 0) by (apply Rsqr_0_uniq; unfold Rsqr; lra). lra.
    + intros Heq. injection Heq as -> ->. rewrite (proj2 IH eq_refl). lra.
Qed.

Lemma sum_squared_error_nonneg (inputs recon : Mat) : 0 <= sum_squared_error inputs recon.
Proof.
  unfold sum_squared_error. revert recon.
  induction inputs as [|u inputs IH]; intros [|v recon]; try (simpl; lra).
  cbn [combine map Rsum fold_right fst snd]. specialize (IH recon).
  pose proof (squares_nonneg u v). unfold Rsum in *. lra.
Qed.

Lemma sum_squared_error_zero (B n : nat) (inputs recon : Mat) :
  shape2 B n inputs -> shape2 B n recon ->
  (sum_squared_error inputs recon = 0 <-> recon = inputs).
Proof.
  intros [HB Hi] [HB' Hr]. subst B. revert recon HB' Hr.
  induction Hi as [|u inputs Hu Hi IH]; intros [|v recon] HB' Hr; simpl in HB';
    try discriminate.
  - split; reflexivity.
  - inversion Hr as [|? ? Hv Hr']; subst.
    unfold sum_squared_error. cbn [combine map Rsum fold_right fst snd].
    fold (Rsum (map (fun xr => Rsum (map2 (fun x r => (x - r) ^ 2) (fst xr) (snd xr)))
                    (combine inputs recon))).
    fold (sum_squared_error inputs recon).
    pose proof (sum_squared_error_nonneg inputs recon).
    pose proof (squares_nonneg u v).
    specialize (IH recon ltac:(congruence) Hr').
    assert (Hlen : length u = length v) by congruence.
    pose proof (squares_zero u v Hlen) as Hz.
    fold (Rsum (map2 (fun x r => (x - r) ^ 2) u v)).
    split.
    + intros H1. assert (Hu0 : Rsum (map2 (fun x r => (x - r) ^ 2) u v) = 0) by lra.
      assert (Hs0 : sum_squared_error inputs recon = 0) by lra.
      apply Hz in Hu0. apply IH in Hs0. congruence.
    + intros H1. injection H1 as -> ->.
      rewrite (proj2 Hz eq_refl), (proj2 IH eq_refl). lra.
Qed.

(** X11.  On a non-empty batch and conforming shapes the default
    reconstruction term is never negative, and it is zero exactly when
    the reconstruction equals the inputs. *)
Theorem recon_term_zero_iff_exact (B n : nat) (inputs recon : Mat) :
  (0 < B)%nat -> shape2 B n inputs -> shape2 B n recon ->
  exists r,
    compute_recontruct_loss inputs recon default_loss = Ok r /\
    0 <= r /\ (r = 0 <-> recon = inputs).
Proof.
  intros HB Hi Hr. assert (HB' : 0 < INR B) by (apply lt_0_INR; exact HB).
  unfold default_loss. rewrite (compute_recontruct_loss_mse B n inputs recon Hi Hr).
  eexists. split; [reflexivity|].
  pose proof (sum_squared_error_nonneg inputs recon) as Hnn.
  pose proof (sum_squared_error_zero B n inputs recon Hi Hr) as Hz.
  split.
  - apply Rmult_le_pos; [exact Hnn | left; apply Rinv_0_lt_compat, HB'].
  - rewrite <- Hz. split.
    + intros H. apply (Rmult_eq_compat_r (INR B)) in H.
      unfold Rdiv in H. rewrite Rmult_assoc, Rinv_l, Rmult_1_r, Rmult_0_l in H by lra.
      exact H.
    + intros ->. unfold Rdiv. ring.
Qed.

(** X12.  With [beta >= 0], on a non-empty batch and conforming shapes,
    the sequence of shape (batch, word_length, dictionary_size) with
    the three sizes positive,
    the three components of [elbo] are non-negative and the total is at
    least the reconstruction term. *)
Theorem elbo_nonnegative (self : VAE) (B n B' : nat) (inputs recon : Mat)
    (logits : Tensor3) (beta : R) :
  0 <= beta ->
  (0 < B)%nat -> shape2 B n inputs -> shape2 B n recon ->
  (0 < dictionary_size self)%nat -> (0 < B')%nat -> (0 < word_length self)%nat ->
  shape3 B' (word_length self) (dictionary_size self) logits ->
  exists total r k,
    elbo self inputs recon logits beta = Ok (total, r, k) /\
    0 <= r /\ 0 <= k /\ r <= total.
Proof.
  intros Hbeta HB Hi Hr HK HB0 HW0 Hl.
  assert (HB' : 0 < INR B) by (apply lt_0_INR; exact HB).
  unfold elbo, default_loss.
  rewrite (compute_recontruct_loss_mse B n inputs recon Hi Hr). cbn [bind].
  rewrite (compute_KLD_loss_value self B' logits HK HB0 HW0 Hl). cbn [bind].
  do 3 eexists. split; [reflexivity|].
  assert (Hr0 : 0 <= sum_squared_error inputs recon / INR B).
  { apply Rmult_le_pos; [apply sum_squared_error_nonneg
                        | left; apply Rinv_0_lt_compat, HB']. }
  pose proof (proj1 (kld_sum_bounds self B' logits HK Hl)) as Hk0.
  split; [exact Hr0|]. split; [exact Hk0|].
  pose proof (Rmult_le_pos _ _ Hbeta Hk0). lra.
Qed.

(** ** Further properties: [get_messages] *)

Lemma forward_eval_value (self : VAE) (x : Mat) (g g0 : Generator) :
  training self = false -> (0 < length x)%nat -> (0 < word_length self)%nat ->
  forward self x g
  = Ok (eval_latent self x g0, eval_tokens self x g0,
        batch_major [] (length x) (word_length self)
          (fun n => relaxed (encoder_output self true x g0 n)),
        eval_messages self x g0, g).
Proof.
  intros Ht HB HW. assert (H : training self && true = false) by now rewrite Ht.
  rewrite (forward_steps self x g HB HW). cbn zeta.
  rewrite (proj2 (proj2 (encoder_state_eval self true x g g _ H))).
  unfold eval_latent, eval_tokens, eval_messages.
  rewrite (batch_major_ext [] _ _
             (fun n => one_hot (encoder_output self true x g n))
             (fun n => one_hot (encoder_output self true x g0 n)))
    by (intros n; now rewrite (encoder_output_eval self true x g g0 n H)).
  rewrite (batch_major_ext [] _ _
             (fun n => relaxed (encoder_output self true x g n))
             (fun n => relaxed (encoder_output self true x g0 n)))
    by (intros n; now rewrite (encoder_output_eval self true x g g0 n H)).
  rewrite (batch_major_ext 0%nat _ _
             (fun n => symbols (encoder_output self true x g n))
             (fun n => symbols (encoder_output self true x g0 n)))
    by (intros n; now rewrite (encoder_output_eval self true x g g0 n H)).
  rewrite (decoder_heads_eval self _ g Ht). reflexivity.
Qed.

Lemma get_messages_batch_value (self : VAE) (data : Mat) (g g0 : Generator) :
  (0 < length data)%nat -> (0 < word_length self)%nat ->
  get_messages_batch self data g
  = Ok (PyMat (eval_latent (set_training self false) data g0),
        PyIndex (eval_messages (set_training self false) data g0), g).
Proof.
  intros HB HW. unfold get_messages_batch, call_model.
  rewrite (forward_eval_value (set_training self false) data g g0 eq_refl HB HW).
  reflexivity.
Qed.

Lemma get_messages_loop_value (self : VAE) (g0 : Generator) (bs : list Mat) :
  (0 < word_length self)%nat ->
  Forall (fun data : Mat => (0 < length data)%nat) bs ->
  forall latent message g,
    get_messages_loop self bs latent message g
    = Ok (latent ++ map (fun data => eval_latent (set_training self false) data g0) bs,
          message ++ map (fun data => eval_messages (set_training self false) data g0) bs,
          g).
Proof.
  intros HW Hbs. induction Hbs as [|data bs Hd Hbs IH]; intros latent message g.
  - cbn [get_messages_loop map]. now rewrite !app_nil_r.
  - cbn [get_messages_loop]. rewrite (get_messages_batch_value self data g g0 Hd HW).
    cbn [bind]. rewrite IH. cbn [map]. now rewrite <- !app_assoc.
Qed.

Lemma np_concatenate_uniform {A : Type} (n : nat) (arrays : list (list (list A))) :
  arrays <> [] ->
  Forall (Forall (fun r => length r = n)) arrays ->
  np_concatenate arrays = Ok (concat arrays).
Proof.
  intros Hne Hrows. unfold np_concatenate. destruct arrays as [|a arrays]; [congruence|].
  pose proof (Forall_concat_rows _ _ Hrows) as Hall.
  replace (forallb _ (concat (a :: arrays))) with true; [reflexivity|].
  symmetry. apply forallb_forall. intros r Hr. rewrite Forall_forall in Hall.
  rewrite (Hall r Hr). apply Nat.eqb_eq. symmetry.
  destruct (concat (a :: arrays)) as [|r0 rows]; [contradiction|].
  cbn [hd]. apply Hall. now left.
Qed.

Lemma eval_latent_shape (self : VAE) (x : Mat) (g : Generator) :
  well_formed self -> shape2 (length x) (input_size self) (eval_latent self x g).
Proof.
  intros Hwf. unfold eval_latent.
  pose proof (linear_shape2 _ _ _
                (decoder_state self (eval_tokens self x g) (word_length self))
                (wf_output_mean self Hwf)) as Hs.
  rewrite decoder_state_length in Hs. unfold eval_tokens in Hs at 1.
  now rewrite (proj1 (batch_major_length _ _ _ _)) in Hs.
Qed.

Lemma eval_messages_shape (self : VAE) (x : Mat) (g : Generator) :
  length (eval_messages self x g) = length x /\
  Forall (fun m => length m = word_length self) (eval_messages self x g).
Proof. apply batch_major_length. Qed.

Lemma well_formed_set_training (self : VAE) (flag : bool) :
  well_formed self -> well_formed (set_training self flag).
Proof. intros [H1 H2 H3 H4 H5 H6 H7 H8 H9]. constructor; assumption. Qed.

Lemma get_messages_value (self : VAE) (dataloader : DataLoader) (g g0 : Generator) :
  well_formed self ->
  batches dataloader <> [] ->
  Forall (fun data : Mat => (0 < length data)%nat) (batches dataloader) ->
  get_messages self dataloader g
  = Ok (concat (map (fun data => eval_latent (set_training self false) data g0)
                    (batches dataloader)),
        concat (map (fun data => eval_messages (set_training self false) data g0)
                    (batches dataloader)),
        g).
Proof.
  intros Hwf Hne Hbs. unfold get_messages.
  rewrite (get_messages_loop_value self g0 _ (wf_word_length self Hwf) Hbs).
  cbn [bind app].
  rewrite (np_concatenate_uniform (input_size self)).
  - cbn [bind]. rewrite (np_concatenate_uniform (word_length self)).
    + reflexivity.
    + destruct (batches dataloader); [congruence | discriminate].
    + apply Forall_map, Forall_forall. intros data _.
      apply (eval_messages_shape (set_training self false)).
  - destruct (batches dataloader); [congruence | discriminate].
  - apply Forall_map, Forall_forall. intros data _.
    apply (eval_latent_shape (set_training self false) data g0
             (well_formed_set_training self false Hwf)).
Qed.

(** X13.  For a well-formed model and a loader that yields at least one
    batch, all of them non-empty, [get_messages] returns one latent row
    of dimension [input_size] and one message of [word_length] symbols
    per example; the result does not depend on the generator, which is
    returned untouched, nor on the mode the model was in. *)
Theorem get_messages_shapes (self : VAE) (dataloader : DataLoader) (g g' : Generator)
    (mode : bool) :
  well_formed self ->
  batches dataloader <> [] ->
  Forall (fun data : Mat => (0 < length data)%nat /\
                            Forall (fun v => length v = input_size self) data)
         (batches dataloader) ->
  let N := length (concat (batches dataloader)) in
  exists latent message,
    get_messages self dataloader g = Ok (latent, message, g) /\
    get_messages (set_training self mode) dataloader g' = Ok (latent, message, g') /\
    shape2 N (input_size self) latent /\
    length message = N /\
    Forall (fun m => length m = word_length self) message.
Proof.
  intros Hwf Hne Hbs N.
  assert (Hpos : Forall (fun data : Mat => (0 < length data)%nat) (batches dataloader)).
  { eapply Forall_impl; [|exact Hbs]. intros d [H _]. exact H. }
  rewrite (get_messages_value self dataloader g g Hwf Hne Hpos).
  rewrite (get_messages_value (set_training self mode) dataloader g' g
             (well_formed_set_training self mode Hwf) Hne Hpos).
  do 2 eexists. split; [reflexivity|]. split; [reflexivity|].
  unfold N. clear Hne Hbs Hpos N.
  induction (batches dataloader) as [|data bs [[IH1 IH2] [IH3 IH4]]].
  - repeat split; constructor.
  - cbn [map concat]. rewrite !length_app.
    destruct (eval_latent_shape (set_training self false) data g
                (well_formed_set_training self false Hwf)) as [Hl1 Hl2].
    destruct (eval_messages_shape (set_training self false) data g) as [Hm1 Hm2].
    split; [split|split].
    + rewrite length_app, Hl1, IH1. reflexivity.
    + apply Forall_app. split; assumption.
    + rewrite Hm1, IH3. reflexivity.
    + apply Forall_app. split; assumption.
Qed.

(** X14.  [get_messages] works batch by batch: on a loader that yields
    the batches of two loaders one after the other it returns the rows
    of the first followed by the rows of the second. *)
Theorem get_messages_concat (self : VAE) (n1 n2 n : nat) (bs1 bs2 : list Mat)
    (g : Generator) (latent1 latent2 : Mat) (message1 message2 : list (list nat)) :
  well_formed self ->
  Forall (fun data : Mat => (0 < length data)%nat /\
                            Forall (fun v => length v = input_size self) data)
         (bs1 ++ bs2) ->
  get_messages self {| dataset_len := n1; batches := bs1 |} g = Ok (latent1, message1, g) ->
  get_messages self {| dataset_len := n2; batches := bs2 |} g = Ok (latent2, message2, g) ->
  get_messages self {| dataset_len := n; batches := bs1 ++ bs2 |} g
  = Ok (latent1 ++ latent2, message1 ++ message2, g).
Proof.
  intros Hwf Hbs HG1 HG2.
  assert (Hpos : Forall (fun data : Mat => (0 < length data)%nat) (bs1 ++ bs2)).
  { eapply Forall_impl; [|exact Hbs]. intros d [H _]. exact H. }
  apply Forall_app in Hpos. destruct Hpos as [H1 H2].
  assert (Hne1 : bs1 <> []) by (intros ->; discriminate HG1).
  assert (Hne2 : bs2 <> []) by (intros ->; discriminate HG2).
  rewrite (get_messages_value self {| dataset_len := n1; batches := bs1 |} g g
             Hwf Hne1 H1) in HG1.
  rewrite (get_messages_value self {| dataset_len := n2; batches := bs2 |} g g
             Hwf Hne2 H2) in HG2.
  cbn [batches] in *. injection HG1 as <- <-. injection HG2 as <- <-.
  rewrite (get_messages_value self {| dataset_len := n; batches := bs1 ++ bs2 |} g g
             Hwf).
  - cbn [batches]. now rewrite !map_app, !concat_app.
  - cbn [batches]. destruct bs1; [congruence | discriminate].
  - cbn [batches]. apply Forall_app. split; assumption.
Qed.

(** X15.  For a well-formed model and non-empty batches, [get_messages]
    fails exactly on a loader that yields no batch, with the
    [ValueError] of concatenating an empty list. *)
Theorem get_messages_raises_iff_no_batch (self : VAE) (dataloader : DataLoader)
    (g : Generator) (e : exn) :
  well_formed self ->
  Forall (fun data : Mat => (0 < length data)%nat /\
                            Forall (fun v => length v = input_size self) data)
         (batches dataloader) ->
  (get_messages self dataloader g = Raise e <->
   (e = ValueError /\ batches dataloader = [])).
Proof.
  intros Hwf Hconf.
  assert (Hbs : Forall (fun data : Mat => (0 < length data)%nat) (batches dataloader)).
  { eapply Forall_impl; [|exact Hconf]. intros d [H _]. exact H. }
  clear Hconf. split.
  - intros HG. destruct (batches dataloader) as [|data bs] eqn:E.
    + unfold get_messages in HG. rewrite E in HG. cbn in HG.
      injection HG as <-. split; reflexivity.
    + rewrite (get_messages_value self dataloader g g Hwf) in HG;
        [discriminate | rewrite E; discriminate | rewrite E; exact Hbs].
  - intros [-> E]. unfold get_messages. rewrite E. reflexivity.
Qed.

(** ** Further properties: [train] *)

Lemma train_batch_is_raise (self : VAE) (data : Mat) (beta : R) (g : Generator) :
  exists e, train_batch self data beta g = Raise e.
Proof.
  pose proof (train_batch_raises self data beta g) as H.
  destruct (forward (set_training self true) data g); eauto.
Qed.

Lemma train_batches_cons (model : VAE) (opt : OptimizerState) (data : Mat) (bs : list Mat)
    (beta : R) (sums : R * R * R) (g : Generator) :
  train_batches model opt (data :: bs) beta sums g = Raise ValueError \/
  exists e, forward (set_training model true) data g = Raise e /\
            train_batches model opt (data :: bs) beta sums g = Raise e.
Proof.
  cbn [train_batches]. pose proof (train_batch_raises model data beta g) as H.
  destruct (forward (set_training model true) data g) as [r|e].
  - left. now rewrite H.
  - right. exists e. split; [reflexivity|]. now rewrite H.
Qed.

Lemma state_dict_set_training (model : VAE) (flag : bool) :
  state_dict (set_training model flag) = state_dict model.
Proof. reflexivity. Qed.

Lemma train_epochs_Ok (model : VAE) (opt : OptimizerState) (dataloader : DataLoader)
    (beta : R) (epochs : nat) (g : Generator) (model' : VAE) (g' : Generator) :
  train_epochs model opt dataloader beta epochs g = Ok (model', g') ->
  state_dict model' = state_dict model /\ g' = g /\
  (epochs = 0%nat \/ (batches dataloader = [] /\ (0 < dataset_len dataloader)%nat)).
Proof.
  revert model. induction epochs as [|epochs IH]; intros model H.
  - cbn in H. injection H as <- <-. repeat split. now left.
  - cbn [train_epochs] in H. destruct (batches dataloader) as [|data bs] eqn:E.
    + cbn [train_batches bind] in H. unfold print_ratio in H.
      destruct (Nat.eqb_spec (dataset_len dataloader) 0) as [E0|E0];
        [discriminate|]. cbn [bind] in H.
      destruct (IH _ H) as [Hs [Hg _]]. rewrite state_dict_set_training in Hs.
      repeat split; try assumption. right. split; [reflexivity | lia].
    + destruct (train_batches_cons (set_training model true) opt data bs beta (0, 0, 0) g)
        as [Hr | [e [_ Hr]]]; rewrite Hr in H; discriminate.
Qed.

(** X16.  As shipped, [train] never changes a parameter: whenever it
    returns, what it saved is the state of the model it was given and
    no random number has been drawn; and it returns only when
    [epochs] is 0 or the loader of a non-empty dataset yields no
    batch. *)
Theorem train_never_updates (model : VAE) (dataloader : DataLoader) (learning_rate : R)
    (epochs : nat) (beta : R) (g g' : Generator)
    (saved : GRUCell * Linear * Linear * GRUCell * Linear * Linear) :
  train model dataloader learning_rate epochs beta g = Ok (saved, g') ->
  saved = state_dict model /\ g' = g /\
  (epochs = 0%nat \/ (batches dataloader = [] /\ (0 < dataset_len dataloader)%nat)).
Proof.
  unfold train. destruct (Rle_dec 0 learning_rate) as [_|_]; [|discriminate].
  destruct (train_epochs model (Adam model learning_rate) dataloader beta epochs g)
    as [[model' g0]|e] eqn:E; cbn [bind]; [|discriminate].
  intros H. injection H as <- <-.
  destruct (train_epochs_Ok _ _ _ _ _ _ _ _ E) as [Hs [Hg Hc]]. repeat split; assumption.
Qed.

(** X17.  With a valid learning rate and at least one epoch, [train] on
    a loader of an empty
    dataset, which yields no batch, raises [ZeroDivisionError]: the
    epoch summary divides the running loss by the dataset size. *)
Theorem train_empty_dataset (model : VAE) (dataloader : DataLoader) (learning_rate : R)
    (epochs : nat) (beta : R) (g : Generator) :
  0 <= learning_rate -> (0 < epochs)%nat ->
  batches dataloader = [] -> dataset_len dataloader = 0%nat ->
  train model dataloader learning_rate epochs beta g = Raise ZeroDivisionError.
Proof.
  intros Hlr He Hb HD. unfold train.
  destruct (Rle_dec 0 learning_rate) as [_|Hn]; [|contradiction].
  destruct epochs as [|epochs]; [lia|].
  cbn [train_epochs]. rewrite Hb. cbn [train_batches bind].
  unfold print_ratio. rewrite HD. reflexivity.
Qed.

(** X18.  With a valid learning rate, at least one epoch, a well-formed
    model and a loader whose
    first batch is non-empty and of dimension [input_size], [train]
    raises [ValueError] on that batch of the first epoch: nothing is
    saved. *)
Theorem train_first_batch_fails (model : VAE) (dataloader : DataLoader) (learning_rate : R)
    (epochs : nat) (beta : R) (g : Generator) (data : Mat) (bs : list Mat) :
  0 <= learning_rate -> (0 < epochs)%nat ->
  well_formed model ->
  batches dataloader = data :: bs ->
  (0 < length data)%nat -> Forall (fun v => length v = input_size model) data ->
  train model dataloader learning_rate epochs beta g = Raise ValueError.
Proof.
  intros Hlr He Hwf Hb HB _. unfold train.
  destruct (Rle_dec 0 learning_rate) as [_|Hn]; [|contradiction].
  destruct epochs as [|epochs]; [lia|].
  cbn [train_epochs]. rewrite Hb.
  destruct (train_batches_cons (set_training model true) (Adam model learning_rate)
              data bs beta (0, 0, 0) g) as [Hr | [e [Hf _]]].
  - rewrite Hr. reflexivity.
  - rewrite (forward_steps (set_training (set_training model true) true) data g HB
               (wf_word_length model Hwf)) in Hf.
    discriminate.
Qed.

(** ** Further properties: initialisation and construction *)

Lemma zeros__length (v : Vec) : length (zeros_ v) = length v.
Proof. apply length_map. Qed.

Lemma zeros__Forall (v : Vec) : Forall (fun b => b = 0) (zeros_ v).
Proof. unfold zeros_. apply Forall_map, Forall_forall. reflexivity. Qed.

Lemma kaiming_normal_shape2 (B n : nat) (t : Mat) (nonlinearity : string) (g : Generator) :
  shape2 B n t -> shape2 B n (fst (kaiming_normal_ t nonlinearity g)).
Proof.
  intros H. apply shape2_map_length. rewrite kaiming_normal_shape.
  apply shape2_map_length, H.
Qed.

Lemma init_weights_Linear_value (L : Linear) (g : Generator) :
  init_weights_Linear L g
  = ({| weight := fst (kaiming_normal_ (weight L) "relu" g); bias := zeros_ (bias L) |},
     snd (kaiming_normal_ (weight L) "relu" g)).
Proof.
  unfold init_weights_Linear. destruct (kaiming_normal_ (weight L) "relu" g). reflexivity.
Qed.

Lemma init_weights_GRUCell_value (C : GRUCell) (g : Generator) :
  let w_ih := kaiming_normal_ (weight_ih C) "tanh" g in
  let w_hh := kaiming_normal_ (weight_hh C) "tanh" (snd w_ih) in
  init_weights_GRUCell C g
  = Ok ({| hidden_size := hidden_size C;
           weight_ih := fst w_ih;
           weight_hh := fst w_hh;
           bias_ih := zeros_ (bias_ih C);
           bias_hh := zeros_ (bias_hh C) |}, snd w_hh).
Proof.
  cbn zeta. unfold init_weights_GRUCell, GRUCell_named_parameters.
  cbn [init_named_parameters]. unfold init_named_parameter.
  change (substring_in "weight" "weight_ih") with true.
  change (substring_in "weight" "weight_hh") with true.
  change (substring_in "weight" "bias_ih") with false.
  change (substring_in "weight" "bias_hh") with false.
  change (substring_in "bias" "bias_ih") with true.
  change (substring_in "bias" "bias_hh") with true.
  cbv iota.
  destruct (kaiming_normal_ (weight_ih C) "tanh" g) as [a g1]. cbn [bind fst snd].
  destruct (kaiming_normal_ (weight_hh C) "tanh" g1) as [b g2]. cbn [bind fst snd].
  reflexivity.
Qed.

Lemma init_weights_LSTMCell_value (C : LSTMCell) (g : Generator) :
  let w_ih := kaiming_normal_ (lstm_weight_ih C) "tanh" g in
  let w_hh := kaiming_normal_ (lstm_weight_hh C) "tanh" (snd w_ih) in
  let start := (length (lstm_bias_ih C) / 4)%nat in
  let stop := (length (lstm_bias_ih C) / 2)%nat in
  init_weights_LSTMCell C g
  = Ok ({| lstm_weight_ih := fst w_ih;
           lstm_weight_hh := fst w_hh;
           lstm_bias_ih := fill_slice start stop (fun _ => 1) (zeros_ (lstm_bias_ih C));
           lstm_bias_hh := fill_slice start stop (fun _ => 1) (zeros_ (lstm_bias_hh C)) |},
        snd w_hh).
Proof.
  cbn zeta. unfold init_weights_LSTMCell, LSTMCell_named_parameters.
  cbn [init_named_parameters]. unfold init_named_parameter.
  change (substring_in "weight" "weight_ih") with true.
  change (substring_in "weight" "weight_hh") with true.
  change (substring_in "weight" "bias_ih") with false.
  change (substring_in "weight" "bias_hh") with false.
  change (substring_in "bias" "bias_ih") with true.
  change (substring_in "bias" "bias_hh") with true.
  cbv iota.
  destruct (kaiming_normal_ (lstm_weight_ih C) "tanh" g) as [a g1]. cbn [bind fst snd].
  destruct (kaiming_normal_ (lstm_weight_hh C) "tanh" g1) as [b g2]. cbn [bind fst snd].
  reflexivity.
Qed.

Lemma fill_slice_from_length {A : Type} (i start stop : nat) (one : A -> A) (l : list A) :
  length (fill_slice_from i start stop one l) = length l.
Proof.
  revert i. induction l as [|x l IH]; intros i; cbn [fill_slice_from length];
    [reflexivity | now rewrite IH].
Qed.

Lemma fill_slice_from_nth (i start stop k : nat) (v : Vec) :
  (k < length v)%nat ->
  nth k (fill_slice_from i start stop (fun _ => 1) (zeros_ v)) 0
  = if (start <=? i + k)%nat && (i + k <? stop)%nat then 1 else 0.
Proof.
  revert i k. induction v as [|x v IH]; intros i k Hk; cbn [length] in Hk; [lia|].
  cbn [zeros_ map fill_slice_from]. destruct k as [|k].
  - cbn [nth]. rewrite Nat.add_0_r. destruct ((start <=? i)%nat && (i <? stop)%nat);
      reflexivity.
  - cbn [nth]. fold (zeros_ v). rewrite IH by lia.
    replace (S i + k)%nat with (i + S k)%nat by lia. reflexivity.
Qed.

Lemma init_shapes_Linear (i o : nat) (L : Linear) (g : Generator) :
  linear_shape i o L -> linear_shape i o (fst (init_weights_Linear L g)).
Proof.
  intros [Hw Hb]. rewrite init_weights_Linear_value. cbn [fst]. split; cbn [weight bias].
  - apply kaiming_normal_shape2, Hw.
  - now rewrite zeros__length.
Qed.

Lemma init_shapes_GRUCell (i h : nat) (C : GRUCell) (g : Generator) (C' : GRUCell)
    (g' : Generator) :
  gru_shape i h C -> init_weights_GRUCell C g = Ok (C', g') ->
  gru_shape i h C' /\
  Forall (fun b => b = 0) (bias_ih C') /\ Forall (fun b => b = 0) (bias_hh C').
Proof.
  intros [Hh [Hwi [Hwh [Hbi Hbh]]]] HC.
  rewrite init_weights_GRUCell_value in HC. cbn zeta in HC. injection HC as <- _.
  cbn [hidden_size weight_ih weight_hh bias_ih bias_hh].
  split; [|split; apply zeros__Forall].
  split; [exact Hh|].
  split; [apply (kaiming_normal_shape2 _ _ _ _ _ Hwi)|].
  split; [apply (kaiming_normal_shape2 _ _ _ _ _ Hwh)|].
  split; cbn [bias_ih bias_hh]; rewrite zeros__length; assumption.
Qed.

Lemma apply_init_weights_spec (self : VAE) (g : Generator) :
  init_shapes self ->
  exists self' g',
    apply_init_weights self g = Ok (self', g') /\
    init_shapes self' /\ zero_biases self' /\
    input_size self' = input_size self /\
    word_length self' = word_length self /\
    dictionary_size self' = dictionary_size self /\
    temperature self' = temperature self /\
    training self' = training self.
Proof.
  intros [He [Hh [Ht [Hd [Hm Hl]]]]]. unfold apply_init_weights.
  pose proof (init_weights_GRUCell_value (encoder_gru self) g) as E1. cbn zeta in E1.
  rewrite E1. cbn [bind].
  pose proof (init_shapes_GRUCell _ _ _ _ _ _ He E1) as [Se [Ze1 Ze2]].
  set (e := {| hidden_size := hidden_size (encoder_gru self) |}) in *.
  set (g1 := snd (kaiming_normal_ (weight_hh (encoder_gru self)) "tanh" _)) in *.
  rewrite (init_weights_Linear_value (hidden_to_token self) g1).
  pose proof (init_shapes_Linear _ _ _ g1 Hh) as Sh.
  rewrite init_weights_Linear_value in Sh. cbn [fst] in Sh.
  set (h2t := {| weight := fst (kaiming_normal_ (weight (hidden_to_token self)) "relu" g1) |})
    in *.
  set (g2 := snd (kaiming_normal_ (weight (hidden_to_token self)) "relu" g1)) in *.
  rewrite (init_weights_Linear_value (token_to_hidden self) g2).
  pose proof (init_shapes_Linear _ _ _ g2 Ht) as St.
  rewrite init_weights_Linear_value in St. cbn [fst] in St.
  set (t2h := {| weight := fst (kaiming_normal_ (weight (token_to_hidden self)) "relu" g2) |})
    in *.
  set (g3 := snd (kaiming_normal_ (weight (token_to_hidden self)) "relu" g2)) in *.
  pose proof (init_weights_GRUCell_value (decoder_gru self) g3) as E2. cbn zeta in E2.
  rewrite E2. cbn [bind].
  pose proof (init_shapes_GRUCell _ _ _ _ _ _ Hd E2) as [Sd [Zd1 Zd2]].
  set (d := {| hidden_size := hidden_size (decoder_gru self) |}) in *.
  set (g4 := snd (kaiming_normal_ (weight_hh (decoder_gru self)) "tanh" _)) in *.
  rewrite (init_weights_Linear_value (output_mean self) g4).
  pose proof (init_shapes_Linear _ _ _ g4 Hm) as Sm.
  rewrite init_weights_Linear_value in Sm. cbn [fst] in Sm.
  set (om := {| weight := fst (kaiming_normal_ (weight (output_mean self)) "relu" g4) |})
    in *.
  set (g5 := snd (kaiming_normal_ (weight (output_mean self)) "relu" g4)) in *.
  rewrite (init_weights_Linear_value (output_logvar self) g5).
  pose proof (init_shapes_Linear _ _ _ g5 Hl) as Sl.
  rewrite init_weights_Linear_value in Sl. cbn [fst] in Sl.
  do 2 eexists. split; [reflexivity|].
  split; [repeat split; cbn [input_size dictionary_size encoder_gru hidden_to_token
            token_to_hidden decoder_gru output_mean output_logvar];
          first [apply Se | apply Sh | apply St | apply Sd | apply Sm | apply Sl]|].
  split; [|repeat split].
  unfold zero_biases. cbn [encoder_gru hidden_to_token token_to_hidden decoder_gru
    output_mean output_logvar].
  repeat split; try assumption; apply zeros__Forall.
Qed.

(** X19.  Re-running the initialisation keeps the model in shape: on a
    model with the parameter shapes of [__init__],
    [self.apply(init_weights)] succeeds and returns a model with the
    same sizes, temperature and mode, the same parameter shapes, and
    every bias equal to zero. *)
Theorem apply_init_weights_keeps_shapes (self : VAE) (g : Generator) :
  init_shapes self ->
  exists self' g',
    apply_init_weights self g = Ok (self', g') /\
    init_shapes self' /\ zero_biases self' /\
    input_size self' = input_size self /\
    word_length self' = word_length self /\
    dictionary_size self' = dictionary_size self /\
    temperature self' = temperature self /\
    training self' = training self.
Proof. apply apply_init_weights_spec. Qed.

(** X20.  With layer constructors that deliver parameters of the
    requested shapes, [VAE.__init__] succeeds for all sizes and returns
    a model in training mode that records the three sizes and the
    temperature it was given, has the parameter shapes the rest of the
    class relies on and only zero biases; for positive sizes the model
    is well formed. *)
Theorem VAE_init_well_formed (i w k : nat) (t : R) (g : Generator) :
  exists self g',
    VAE_init i w k t g = Ok (self, g') /\
    input_size self = i /\ word_length self = w /\ dictionary_size self = k /\
    temperature self = t /\ training self = true /\
    init_shapes self /\ zero_biases self /\
    ((0 < i)%nat -> (0 < w)%nat -> (0 < k)%nat -> well_formed self).
Proof.
  unfold VAE_init.
  pose proof (new_GRUCell_shape i i g) as S1.
  destruct (new_GRUCell i i g) as [e g1]. cbn [fst] in S1.
  pose proof (new_Linear_shape i k g1) as S2.
  destruct (new_Linear i k g1) as [h2t g2]. cbn [fst] in S2.
  pose proof (new_Linear_shape k i g2) as S3.
  destruct (new_Linear k i g2) as [t2h g3]. cbn [fst] in S3.
  pose proof (new_GRUCell_shape i i g3) as S4.
  destruct (new_GRUCell i i g3) as [d g4]. cbn [fst] in S4.
  pose proof (new_Linear_shape i i g4) as S5.
  destruct (new_Linear i i g4) as [om g5]. cbn [fst] in S5.
  pose proof (new_Linear_shape i i g5) as S6.
  destruct (new_Linear i i g5) as [ol g6]. cbn [fst] in S6.
  set (m := {| input_size := i; word_length := w; dictionary_size := k;
               temperature := t; training := true; encoder_gru := e;
               hidden_to_token := h2t; token_to_hidden := t2h; decoder_gru := d;
               output_mean := om; output_logvar := ol |}).
  assert (Hm : init_shapes m) by (repeat split; first
    [apply S1 | apply S2 | apply S3 | apply S4 | apply S5 | apply S6]).
  destruct (apply_init_weights_spec m g6 Hm)
    as [self [g' [E [Hs [Hz [Hi [Hw [Hk [Ht Htr]]]]]]]]].
  exists self, g'. split; [exact E|]. cbn in Hi, Hw, Hk, Ht, Htr.
  repeat (split; [assumption|]).
  intros Hi0 Hw0 Hk0. destruct Hs as [A1 [A2 [A3 [A4 [A5 A6]]]]].
  constructor; try assumption; lia.
Qed.

(** X21.  On an LSTM cell [init_weights] zeroes both bias vectors and
    then sets to 1 the entries from a quarter to a half of the length of
    [bias_ih], the forget gate; the slice is computed from [bias_ih]
    for both vectors, and the lengths do not change. *)
Theorem init_weights_LSTMCell_forget_gate (C : LSTMCell) (g : Generator) :
  exists C' g',
    init_weights (LayerLSTMCell C) g = Ok (LayerLSTMCell C', g') /\
    length (lstm_bias_ih C') = length (lstm_bias_ih C) /\
    length (lstm_bias_hh C') = length (lstm_bias_hh C) /\
    (forall n, (n < length (lstm_bias_ih C))%nat ->
       nth n (lstm_bias_ih C') 0
       = if ((length (lstm_bias_ih C) / 4 <=? n) && (n <? length (lstm_bias_ih C) / 2))%nat
         then 1 else 0) /\
    (forall n, (n < length (lstm_bias_hh C))%nat ->
       nth n (lstm_bias_hh C') 0
       = if ((length (lstm_bias_ih C) / 4 <=? n) && (n <? length (lstm_bias_ih C) / 2))%nat
         then 1 else 0).
Proof.
  cbn [init_weights]. pose proof (init_weights_LSTMCell_value C g) as E. cbn zeta in E.
  rewrite E. cbn [bind]. do 2 eexists. split; [reflexivity|].
  cbn [lstm_bias_ih lstm_bias_hh]. unfold fill_slice.
  rewrite !fill_slice_from_length, !zeros__length.
  repeat split; intros n Hn; rewrite fill_slice_from_nth by exact Hn; reflexivity.
Qed.

End Model.

(** ** The concrete collaborators meet the contracts *)

Lemma counter_normal_shape (like : Mat) (mean std : R) (g : nat) :
  map (@length R) (fst (counter_normal_ like mean std g)) = map (@length R) like.
Proof.
  unfold counter_normal_. cbn [fst]. rewrite map_map.
  apply map_ext. intros v. apply length_map.
Defined.

Lemma counter_gumbel_softmax_shape (l : Mat) (tau : R) (g : nat) :
  map (@length R) (fst (counter_gumbel_softmax l tau g)) = map (@length R) l.
Proof.
  unfold counter_gumbel_softmax, softmax, softmax_vec. cbn [fst]. rewrite map_map.
  apply map_ext. intros v. apply length_map.
Defined.

Lemma first_symbol_discretize_shape (z : Mat) :
  map (@length R) (fst (first_symbol_discretize z)) = map (@length R) z /\
  length (snd (first_symbol_discretize z)) = length z.
Proof.
  unfold first_symbol_discretize. cbn [fst snd]. split; [|apply length_map].
  rewrite map_map. apply map_ext. intros [|a v]; [reflexivity|].
  cbn [length]. now rewrite length_map.
Defined.

(** ** The statements evaluated on the small model *)


Lemma elbo_total_witness :
  (0 < 1)%nat /\ shape2 1 1 [[1]] /\ shape2 1 1 [[0]] /\
  (0 < dictionary_size (small_model false))%nat /\
  (0 < word_length (small_model false))%nat /\
  shape3 1 (word_length (small_model false)) (dictionary_size (small_model false))
         [[[1; 0]; [0; 1]]] /\
  exists r k,
    compute_recontruct_loss [[1]] [[0]] default_loss = Ok r /\
    compute_KLD_loss (small_model false) [[[1; 0]; [0; 1]]] = Ok k /\
    elbo (small_model false) [[1]] [[0]] [[[1; 0]; [0; 1]]] 2 = Ok (r + 2 * k, r, k) /\
    elbo (small_model false) [[1]] [[0]] [[[1; 0]; [0; 1]]] 0 = Ok (r, r, k).
Proof.
  assert (H0 : (0 < 1)%nat) by shape.
  assert (H1 : shape2 1 1 [[1]]) by shape.
  assert (H2 : shape2 1 1 [[0]]) by shape.
  assert (H3 : (0 < dictionary_size (small_model false))%nat) by shape.
  assert (HW : (0 < word_length (small_model false))%nat) by shape.
  assert (H4 : shape3 1 (word_length (small_model false))
                 (dictionary_size (small_model false)) [[[1; 0]; [0; 1]]]) by shape.
  repeat (split; [assumption|]).
  exact (elbo_total (small_model false) 1 1 1 [[1]] [[0]] [[[1; 0]; [0; 1]]] 2
           H0 H1 H2 H3 H0 HW H4).
Defined.

Lemma kld_zero_on_uniform_witness :
  (0 < dictionary_size (small_model false))%nat /\
  (0 < length [[uniform 2; uniform 2]])%nat /\
  (0 < word_length (small_model false))%nat /\
  Forall (fun steps : Mat => length steps = word_length (small_model false))
         [[uniform 2; uniform 2]] /\
  Forall (Forall (fun v => v = uniform (dictionary_size (small_model false))))
         [[uniform 2; uniform 2]] /\
  compute_KLD_loss (small_model false) [[uniform 2; uniform 2]] = Ok 0.
Proof.
  assert (H1 : (0 < dictionary_size (small_model false))%nat) by shape.
  assert (H2 : Forall (fun steps : Mat => length steps = word_length (small_model false))
                 [[uniform 2; uniform 2]]) by shape.
  assert (H3 : Forall (Forall (fun v => v = uniform (dictionary_size (small_model false))))
                 [[uniform 2; uniform 2]]) by shape.
  assert (HB : (0 < length [[uniform 2; uniform 2]])%nat) by shape.
  assert (HW : (0 < word_length (small_model false))%nat) by shape.
  repeat (split; [assumption|]).
  exact (kld_zero_on_uniform (small_model false) [[uniform 2; uniform 2]]
           H1 HB HW H2 H3).
Defined.

Lemma recon_term_squared_error_witness :
  (0 < 2)%nat /\ shape2 2 2 [[1; 2]; [3; 4]] /\ shape2 2 2 [[0; 2]; [3; 1]] /\
  compute_recontruct_loss [[1; 2]; [3; 4]] [[0; 2]; [3; 1]] default_loss
  = Ok (sum_squared_error [[1; 2]; [3; 4]] [[0; 2]; [3; 1]] / INR 2).
Proof.
  assert (H1 : (0 < 2)%nat) by shape.
  assert (H2 : shape2 2 2 [[1; 2]; [3; 4]]) by shape.
  assert (H3 : shape2 2 2 [[0; 2]; [3; 1]]) by shape.
  repeat (split; [assumption|]).
  exact (proj1 (recon_term_squared_error 2 2 [[1; 2]; [3; 4]] [[0; 2]; [3; 1]] H1 H2 H3)).
Defined.

Lemma recon_loss_selector_fallback_witness :
  "huber"%string <> "mse"%string /\
  shape2 1 2 [[1; 0]] /\ shape2 1 2 [[0; 0]] /\
  compute_recontruct_loss [[1; 0]] [[0; 0]] "huber"
  = Ok (sum_cross_entropy [[1; 0]] [[0; 0]] / INR 1).
Proof.
  assert (H1 : "huber"%string <> "mse"%string) by discriminate.
  assert (H2 : shape2 1 2 [[1; 0]]) by shape.
  assert (H3 : shape2 1 2 [[0; 0]]) by shape.
  repeat (split; [assumption|]).
  exact (proj1 (recon_loss_selector_fallback 1 2 [[1; 0]] [[0; 0]] "huber" H1 H2 H3)).
Defined.

Lemma small_model_well_formed (mode : bool) : well_formed (small_model mode).
Proof. shape. Defined.

Lemma Encoder_state_machine_witness :
  well_formed (small_model true) /\
  Forall (fun v : Vec => length v = input_size (small_model true)) [[0]] /\
  exists tokens logits messages g',
    Encoder nat counter_gumbel_softmax first_symbol_discretize
            (small_model true) [[0]] true 0%nat
    = Ok (tokens, logits, messages, g') /\
    shape3 1 2 2 tokens /\ shape3 1 2 2 logits.
Proof.
  assert (H1 : well_formed (small_model true)) by apply small_model_well_formed.
  assert (H2 : Forall (fun v : Vec => length v = input_size (small_model true)) [[0]])
    by shape.
  repeat (split; [assumption|]).
  destruct (Encoder_state_machine nat counter_gumbel_softmax first_symbol_discretize
              counter_gumbel_softmax_shape first_symbol_discretize_shape
              (small_model true) [[0]] true 0%nat H1 H2)
    as [_ [_ [tokens [logits [messages [HE [Ht [Hl _]]]]]]]].
  exists tokens, logits, messages. eexists. split; [exact HE|]. split; assumption.
Defined.

Lemma reparameterize_sampler_witness :
  shape2 1 1 [[0]] /\ shape2 1 1 [[0]] /\
  reparameterize nat counter_normal_ (small_model true) [[0]] [[0]] 0%nat
  = (sample_value [[0]] [[0]] (fst (counter_normal_ [[exp (0 * 0.5)]] 0 1 0%nat)),
     snd (counter_normal_ [[exp (0 * 0.5)]] 0 1 0%nat)) /\
  reparameterize nat counter_normal_ (small_model false) [[0]] [[0]] 0%nat
  = ([[0]], 0%nat).
Proof.
  assert (H1 : shape2 1 1 [[0]]) by shape.
  repeat (split; [assumption|]).
  split.
  - exact (proj1 (proj1 (reparameterize_sampler nat counter_normal_ counter_normal_shape
                           (small_model true) 1 1 [[0]] [[0]] 0%nat 1%nat H1 H1)
                        eq_refl)).
  - exact (proj1 (proj2 (reparameterize_sampler nat counter_normal_ counter_normal_shape
                           (small_model false) 1 1 [[0]] [[0]] 0%nat 1%nat H1 H1)
                        eq_refl)).
Defined.

Lemma Decoder_final_state_witness :
  well_formed (small_model false) /\ (0 < 1)%nat /\
  shape3 1 (word_length (small_model false)) (dictionary_size (small_model false))
         [[[1; 0]; [0; 1]]] /\
  exists output mean logvar g',
    Decoder nat counter_normal_ (small_model false) [[[1; 0]; [0; 1]]] 0%nat
    = Ok (output, mean, logvar, g') /\
    shape2 1 1 output.
Proof.
  assert (H1 : well_formed (small_model false)) by apply small_model_well_formed.
  assert (H2 : (0 < 1)%nat) by shape.
  assert (H3 : shape3 1 (word_length (small_model false))
                 (dictionary_size (small_model false)) [[[1; 0]; [0; 1]]]) by shape.
  repeat (split; [assumption|]).
  destruct (Decoder_final_state nat counter_normal_ counter_normal_shape
              (small_model false) 1
              [[[1; 0]; [0; 1]]] [[[1; 0]; [0; 1]]] 0%nat H1 H2 H3 H3)
    as [_ [_ [HD [Hs _]]]].
  do 4 eexists. split; [exact HD | exact Hs].
Defined.

Lemma train_batch_fails_witness :
  well_formed (small_model false) /\ (0 < length [[0]])%nat /\
  Forall (fun v : Vec => length v = input_size (small_model false)) [[0]] /\
  train_batch nat counter_normal_ counter_gumbel_softmax first_symbol_discretize
              (small_model false) [[0]] 1 0%nat
  = Raise ValueError.
Proof.
  assert (H1 : well_formed (small_model false)) by apply small_model_well_formed.
  assert (H2 : (0 < length [[0]])%nat) by shape.
  assert (H3 : Forall (fun v : Vec => length v = input_size (small_model false)) [[0]])
    by shape.
  repeat (split; [assumption|]).
  exact (proj1 (proj2 (proj2 (train_batch_fails nat counter_normal_ counter_gumbel_softmax
                                first_symbol_discretize counter_gumbel_softmax_shape
                                first_symbol_discretize_shape
                                (small_model false) [[0]] 1 0%nat))) H1 H2 H3).
Defined.

Lemma token_to_hidden_shared_witness :
  well_formed (small_model false) /\
  linear_shape (dictionary_size (small_model false)) (input_size (small_model false))
               swapped_linear /\
  shape2 1 (input_size (small_model false)) [[0]] /\
  (0 < 1)%nat /\
  shape3 1 (word_length (small_model false)) (dictionary_size (small_model false))
         [[[1; 0]; [0; 1]]] /\
  exists r,
    Decoder nat counter_normal_ (update_token_to_hidden (small_model false) swapped_linear)
            [[[1; 0]; [0; 1]]] 0%nat
    = Ok r.
Proof.
  assert (H1 : well_formed (small_model false)) by apply small_model_well_formed.
  assert (H2 : linear_shape (dictionary_size (small_model false))
                 (input_size (small_model false)) swapped_linear) by shape.
  assert (H3 : shape2 1 (input_size (small_model false)) [[0]]) by shape.
  assert (H4 : (0 < 1)%nat) by shape.
  assert (H5 : shape3 1 (word_length (small_model false))
                 (dictionary_size (small_model false)) [[[1; 0]; [0; 1]]]) by shape.
  repeat (split; [assumption|]).
  eexists.
  exact (proj2 (proj2 (proj2 (proj2 (token_to_hidden_shared nat counter_normal_
                                counter_gumbel_softmax first_symbol_discretize
                                counter_gumbel_softmax_shape first_symbol_discretize_shape
                                (small_model false) swapped_linear 1 [[0]]
                                [[[1; 0]; [0; 1]]] true 0%nat H1 H2 H3 H4 H5))))).
Defined.

(** ** The further properties evaluated on the small model *)

Lemma counter_kaiming_normal_shape (t : Mat) (nonlinearity : string) (g : nat) :
  map (@length R) (fst (counter_kaiming_normal_ t nonlinearity g)) = map (@length R) t.
Proof.
  unfold counter_kaiming_normal_. cbn [fst]. rewrite map_map.
  apply map_ext. intros v. apply length_map.
Defined.

Lemma counter_new_Linear_shape (i o : nat) (g : nat) :
  linear_shape i o (fst (counter_new_Linear i o g)).
Proof.
  unfold counter_new_Linear, linear_shape, shape2. cbn [fst weight bias].
  rewrite !repeat_length. repeat split.
  apply Forall_forall. intros v Hv. apply repeat_spec in Hv. subst. apply repeat_length.
Defined.

Lemma counter_new_GRUCell_shape (i h : nat) (g : nat) :
  gru_shape i h (fst (counter_new_GRUCell i h g)).
Proof.
  unfold counter_new_GRUCell, gru_shape, shape2.
  cbn [fst hidden_size weight_ih weight_hh bias_ih bias_hh].
  rewrite !repeat_length. repeat split;
    apply Forall_forall; intros v Hv; apply repeat_spec in Hv; subst; apply repeat_length.
Defined.

Lemma Encoder_without_sampling_deterministic_witness :
  well_formed (small_model false) /\
  Forall (fun v : Vec => length v = input_size (small_model false)) [[0]] /\
  training (small_model false) && true = false /\
  exists tokens logits messages,
    Encoder nat counter_gumbel_softmax first_symbol_discretize
            (small_model false) [[0]] true 0%nat = Ok (tokens, logits, messages, 0%nat) /\
    Encoder nat counter_gumbel_softmax first_symbol_discretize
            (small_model false) [[0]] true 5%nat = Ok (tokens, logits, messages, 5%nat).
Proof.
  assert (H1 : well_formed (small_model false)) by apply small_model_well_formed.
  assert (H2 : Forall (fun v : Vec => length v = input_size (small_model false)) [[0]])
    by shape.
  assert (H3 : training (small_model false) && true = false) by reflexivity.
  repeat (split; [assumption|]).
  exact (Encoder_without_sampling_deterministic nat counter_gumbel_softmax
           first_symbol_discretize counter_gumbel_softmax_shape
           first_symbol_discretize_shape (small_model false) [[0]] true 0%nat 5%nat
           H1 H2 H3).
Defined.

Lemma Encoder_without_sampling_probabilities_witness :
  well_formed (small_model false) /\
  Forall (fun v : Vec => length v = input_size (small_model false)) [[0]] /\
  training (small_model false) && true = false /\
  exists tokens logits messages g',
    Encoder nat counter_gumbel_softmax first_symbol_discretize
            (small_model false) [[0]] true 0%nat = Ok (tokens, logits, messages, g') /\
    Forall (Forall (fun v => Rsum v = 1 /\ Forall (fun p => 0 < p) v)) logits.
Proof.
  assert (H1 : well_formed (small_model false)) by apply small_model_well_formed.
  assert (H2 : Forall (fun v : Vec => length v = input_size (small_model false)) [[0]])
    by shape.
  assert (H3 : training (small_model false) && true = false) by reflexivity.
  repeat (split; [assumption|]).
  pose proof (Encoder_steps nat counter_gumbel_softmax first_symbol_discretize
                counter_gumbel_softmax_shape first_symbol_discretize_shape
                (small_model false) [[0]] true 0%nat (wf_word_length _ H1)) as HE.
  cbn zeta in HE.
  do 4 eexists. split; [exact HE|].
  exact (Encoder_without_sampling_probabilities nat counter_gumbel_softmax
           first_symbol_discretize counter_gumbel_softmax_shape
           first_symbol_discretize_shape (small_model false) [[0]] true 0%nat _ _ _ _
           H1 H2 H3 HE).
Defined.

Lemma Encoder_raises_iff_no_step_witness :
  init_shapes (small_model false) /\
  (0 < input_size (small_model false))%nat /\
  (0 < dictionary_size (small_model false))%nat /\
  Forall (fun v : Vec => length v = input_size (small_model false)) [[0]] /\
  (Encoder nat counter_gumbel_softmax first_symbol_discretize
           (small_model false) [[0]] true 0%nat = Raise RuntimeError <->
   (RuntimeError = RuntimeError /\ word_length (small_model false) = 0%nat)).
Proof.
  assert (H1 : init_shapes (small_model false)) by shape.
  assert (H2 : (0 < input_size (small_model false))%nat) by shape.
  assert (H3 : (0 < dictionary_size (small_model false))%nat) by shape.
  assert (H4 : Forall (fun v : Vec => length v = input_size (small_model false)) [[0]])
    by shape.
  repeat (split; [assumption|]).
  exact (Encoder_raises_iff_no_step nat counter_gumbel_softmax
           first_symbol_discretize counter_gumbel_softmax_shape
           first_symbol_discretize_shape (small_model false) [[0]] true 0%nat
           RuntimeError H1 H2 H3 H4).
Defined.

Lemma Decoder_batch_concat_witness :
  well_formed (small_model false) /\ (0 < 1)%nat /\
  shape3 1 (word_length (small_model false)) (dictionary_size (small_model false))
         [[[1; 0]; [0; 1]]] /\
  exists o1 m1 l1 g1 o g',
    Decoder nat counter_normal_ (small_model false) [[[1; 0]; [0; 1]]] 0%nat
    = Ok (o1, m1, l1, g1) /\
    Decoder nat counter_normal_ (small_model false)
            ([[[1; 0]; [0; 1]]] ++ [[[1; 0]; [0; 1]]]) 0%nat
    = Ok (o, m1 ++ m1, l1 ++ l1, g') /\
    (training (small_model false) = false -> o = o1 ++ o1 /\ g' = 0%nat).
Proof.
  assert (H1 : well_formed (small_model false)) by apply small_model_well_formed.
  assert (H2 : (0 < 1)%nat) by shape.
  assert (H3 : shape3 1 (word_length (small_model false))
                 (dictionary_size (small_model false)) [[[1; 0]; [0; 1]]]) by shape.
  repeat (split; [assumption|]).
  pose proof (Decoder_steps nat counter_normal_ (small_model false) [[[1; 0]; [0; 1]]]
                0%nat H2 (wf_word_length _ H1) (shape3_blocks _ _ _ _ H3)) as HD.
  unfold decoder_heads in HD.
  destruct (Decoder_batch_concat nat counter_normal_ (small_model false) 1 1
              [[[1; 0]; [0; 1]]] [[[1; 0]; [0; 1]]] 0%nat _ _ _ _ _ _ _ _
              H1 H2 H2 H3 H3 HD HD) as [o [g' [HC Hev]]].
  do 4 eexists. exists o, g'. split; [exact HD|]. split; [exact HC | exact Hev].
Defined.

Lemma Decoder_raises_on_degenerate_sizes_witness :
  (length (@nil Mat) = 0%nat \/ word_length (small_model false) = 0%nat) /\
  Decoder nat counter_normal_ (small_model false) [] 0%nat = Raise RuntimeError.
Proof.
  assert (H : length (@nil Mat) = 0%nat \/ word_length (small_model false) = 0%nat)
    by (left; reflexivity).
  split; [exact H|].
  exact (Decoder_raises_on_degenerate_sizes nat counter_normal_ (small_model false) []
           0%nat H).
Defined.

Lemma forward_eval_witness :
  well_formed (small_model false) /\ training (small_model false) = false /\
  (0 < length [[0]])%nat /\
  Forall (fun v : Vec => length v = input_size (small_model false)) [[0]] /\
  exists recon tokens logits messages,
    forward nat counter_normal_ counter_gumbel_softmax first_symbol_discretize
            (small_model false) [[0]] 0%nat
    = Ok (recon, tokens, logits, messages, 0%nat) /\
    shape2 1 1 recon.
Proof.
  assert (H1 : well_formed (small_model false)) by apply small_model_well_formed.
  assert (H2 : training (small_model false) = false) by reflexivity.
  assert (H3 : (0 < length [[0]])%nat) by shape.
  assert (H4 : Forall (fun v : Vec => length v = input_size (small_model false)) [[0]])
    by shape.
  repeat (split; [assumption|]).
  destruct (forward_eval nat counter_normal_ counter_gumbel_softmax
              first_symbol_discretize counter_gumbel_softmax_shape
              first_symbol_discretize_shape (small_model false) [[0]] 0%nat 0%nat
              H1 H2 H3 H4)
    as [recon [tokens [logits [messages [logvar [HF [_ [_ [Hs _]]]]]]]]].
  exists recon, tokens, logits, messages. split; [exact HF | exact Hs].
Defined.

Lemma kld_term_bounds_witness :
  (0 < dictionary_size (small_model false))%nat /\
  (0 < 1)%nat /\ (0 < word_length (small_model false))%nat /\
  shape3 1 (word_length (small_model false)) (dictionary_size (small_model false))
         [[[1; 0]; [0; 1]]] /\
  exists k,
    compute_KLD_loss (small_model false) [[[1; 0]; [0; 1]]] = Ok k /\
    0 <= k <= INR (1 * word_length (small_model false))
              * ln (INR (dictionary_size (small_model false))).
Proof.
  assert (H1 : (0 < dictionary_size (small_model false))%nat) by shape.
  assert (H2 : shape3 1 (word_length (small_model false))
                 (dictionary_size (small_model false)) [[[1; 0]; [0; 1]]]) by shape.
  assert (HB : (0 < 1)%nat) by shape.
  assert (HW : (0 < word_length (small_model false))%nat) by shape.
  repeat (split; [assumption|]).
  exact (kld_term_bounds (small_model false) 1 [[[1; 0]; [0; 1]]] H1 HB HW H2).
Defined.

Lemma kld_term_constant_on_one_hot_witness :
  (0 < dictionary_size (small_model false))%nat /\
  (0 < 1)%nat /\ (0 < word_length (small_model false))%nat /\
  length [[one_hot_vec 0 1; one_hot_vec 1 0]] = 1%nat /\
  Forall (fun steps : Mat => length steps = word_length (small_model false))
         [[one_hot_vec 0 1; one_hot_vec 1 0]] /\
  compute_KLD_loss (small_model false) [[one_hot_vec 0 1; one_hot_vec 1 0]]
  = Ok (INR (1 * word_length (small_model false))
        * KL (categorical_probs (one_hot_vec 0 (dictionary_size (small_model false) - 1)))
             (uniform (dictionary_size (small_model false)))).
Proof.
  assert (H1 : (0 < dictionary_size (small_model false))%nat) by shape.
  assert (H2 : length [[one_hot_vec 0 1; one_hot_vec 1 0]] = 1%nat) by reflexivity.
  assert (H3 : Forall (fun steps : Mat => length steps = word_length (small_model false))
                 [[one_hot_vec 0 1; one_hot_vec 1 0]]) by shape.
  assert (H4 : Forall (Forall (fun v => exists i j,
                  v = one_hot_vec i j /\ S (i + j) = dictionary_size (small_model false)))
                 [[one_hot_vec 0 1; one_hot_vec 1 0]]).
  { repeat constructor.
    - exists 0%nat, 1%nat. split; reflexivity.
    - exists 1%nat, 0%nat. split; reflexivity. }
  assert (HB : (0 < 1)%nat) by shape.
  assert (HW : (0 < word_length (small_model false))%nat) by shape.
  repeat (split; [assumption|]).
  exact (kld_term_constant_on_one_hot (small_model false) 1
           [[one_hot_vec 0 1; one_hot_vec 1 0]] H1 HB HW H2 H3 H4).
Defined.

Lemma kld_term_rejects_other_shapes_witness :
  (0 < dictionary_size (small_model false))%nat /\
  Forall (Forall (fun v : Vec => (0 < length v)%nat)) [[[1; 0]; [0; 1]; [1; 0]]] /\
  Exists (fun steps : Mat =>
            (length steps <> word_length (small_model false) /\
             word_length (small_model false) <> 1%nat) \/
            (Exists (fun v => length v <> dictionary_size (small_model false)) steps /\
             dictionary_size (small_model false) <> 1%nat))
         [[[1; 0]; [0; 1]; [1; 0]]] /\
  compute_KLD_loss (small_model false) [[[1; 0]; [0; 1]; [1; 0]]] = Raise RuntimeError.
Proof.
  assert (H1 : (0 < dictionary_size (small_model false))%nat) by shape.
  assert (H2 : Forall (Forall (fun v : Vec => (0 < length v)%nat))
                 [[[1; 0]; [0; 1]; [1; 0]]]) by shape.
  assert (H3 : Exists (fun steps : Mat =>
                  (length steps <> word_length (small_model false) /\
                   word_length (small_model false) <> 1%nat) \/
                  (Exists (fun v => length v <> dictionary_size (small_model false)) steps /\
                   dictionary_size (small_model false) <> 1%nat))
                 [[[1; 0]; [0; 1]; [1; 0]]]).
  { constructor. left. split; cbn; lia. }
  repeat (split; [assumption|]).
  exact (kld_term_rejects_other_shapes (small_model false) [[[1; 0]; [0; 1]; [1; 0]]]
           H1 H2 H3).
Defined.

Lemma kld_term_broadcasts_single_step_witness :
  (0 < dictionary_size (set_word_length_1 (small_model false)))%nat /\
  word_length (set_word_length_1 (small_model false)) = 1%nat /\
  (0 < 1)%nat /\ (0 < 3)%nat /\
  shape3 1 3 (dictionary_size (set_word_length_1 (small_model false)))
         [[[1; 0]; [0; 1]; [1; 0]]] /\
  exists k,
    compute_KLD_loss (set_word_length_1 (small_model false)) [[[1; 0]; [0; 1]; [1; 0]]]
    = Ok k.
Proof.
  assert (H1 : (0 < dictionary_size (set_word_length_1 (small_model false)))%nat) by shape.
  assert (H2 : word_length (set_word_length_1 (small_model false)) = 1%nat) by reflexivity.
  assert (HB : (0 < 1)%nat) by shape.
  assert (HW : (0 < 3)%nat) by shape.
  assert (H3 : shape3 1 3 (dictionary_size (set_word_length_1 (small_model false)))
                 [[[1; 0]; [0; 1]; [1; 0]]]) by shape.
  repeat (split; [assumption|]).
  eexists.
  exact (kld_term_broadcasts_single_step (set_word_length_1 (small_model false)) 1 3
           [[[1; 0]; [0; 1]; [1; 0]]] H1 H2 HB HW H3).
Defined.

Lemma kld_term_validates_argument_witness :
  shape3 1 2 0 [[[]; []]] /\
  (1%nat = 0%nat \/ 2%nat = 0%nat ->
   compute_KLD_loss (small_model false) [[[]; []]] = Raise RuntimeError) /\
  ((0 < 1)%nat -> (0 < 2)%nat -> 0%nat = 0%nat ->
   compute_KLD_loss (small_model false) [[[]; []]] = Raise ValueError).
Proof.
  assert (H1 : shape3 1 2 0 [[[]; []]]) by shape.
  split; [exact H1|].
  exact (kld_term_validates_argument (small_model false) 1 2 0 [[[]; []]] H1).
Defined.

Lemma recon_term_zero_iff_exact_witness :
  (0 < 2)%nat /\ shape2 2 2 [[1; 2]; [3; 4]] /\ shape2 2 2 [[0; 2]; [3; 1]] /\
  exists r,
    compute_recontruct_loss [[1; 2]; [3; 4]] [[0; 2]; [3; 1]] default_loss = Ok r /\
    0 <= r /\ (r = 0 <-> [[0; 2]; [3; 1]] = [[1; 2]; [3; 4]]).
Proof.
  assert (H1 : (0 < 2)%nat) by shape.
  assert (H2 : shape2 2 2 [[1; 2]; [3; 4]]) by shape.
  assert (H3 : shape2 2 2 [[0; 2]; [3; 1]]) by shape.
  repeat (split; [assumption|]).
  exact (recon_term_zero_iff_exact 2 2 [[1; 2]; [3; 4]] [[0; 2]; [3; 1]] H1 H2 H3).
Defined.

Lemma elbo_nonnegative_witness :
  0 <= 2 /\ (0 < 1)%nat /\ shape2 1 1 [[1]] /\ shape2 1 1 [[0]] /\
  (0 < dictionary_size (small_model false))%nat /\
  (0 < word_length (small_model false))%nat /\
  shape3 1 (word_length (small_model false)) (dictionary_size (small_model false))
         [[[1; 0]; [0; 1]]] /\
  exists total r k,
    elbo (small_model false) [[1]] [[0]] [[[1; 0]; [0; 1]]] 2 = Ok (total, r, k) /\
    0 <= r /\ 0 <= k /\ r <= total.
Proof.
  assert (Hb : 0 <= 2) by lra.
  assert (H0 : (0 < 1)%nat) by shape.
  assert (H1 : shape2 1 1 [[1]]) by shape.
  assert (H2 : shape2 1 1 [[0]]) by shape.
  assert (H3 : (0 < dictionary_size (small_model false))%nat) by shape.
  assert (H4 : shape3 1 (word_length (small_model false))
                 (dictionary_size (small_model false)) [[[1; 0]; [0; 1]]]) by shape.
  assert (HW : (0 < word_length (small_model false))%nat) by shape.
  repeat (split; [assumption|]).
  exact (elbo_nonnegative (small_model false) 1 1 1 [[1]] [[0]] [[[1; 0]; [0; 1]]] 2
           Hb H0 H1 H2 H3 H0 HW H4).
Defined.

Lemma get_messages_shapes_witness :
  well_formed (small_model true) /\
  batches {| dataset_len := 2; batches := [[[0]]; [[1]]] |} <> [] /\
  Forall (fun data : Mat => (0 < length data)%nat /\
                            Forall (fun v => length v = input_size (small_model true)) data)
         (batches {| dataset_len := 2; batches := [[[0]]; [[1]]] |}) /\
  exists latent message,
    get_messages nat counter_normal_ counter_gumbel_softmax first_symbol_discretize
                 (small_model true) {| dataset_len := 2; batches := [[[0]]; [[1]]] |} 0%nat
    = Ok (latent, message, 0%nat) /\
    get_messages nat counter_normal_ counter_gumbel_softmax first_symbol_discretize
                 (set_training (small_model true) false)
                 {| dataset_len := 2; batches := [[[0]]; [[1]]] |} 7%nat
    = Ok (latent, message, 7%nat) /\
    shape2 2 (input_size (small_model true)) latent /\
    length message = 2%nat /\
    Forall (fun m => length m = word_length (small_model true)) message.
Proof.
  assert (H1 : well_formed (small_model true)) by apply small_model_well_formed.
  assert (H2 : batches {| dataset_len := 2; batches := [[[0]]; [[1]]] |} <> [])
    by discriminate.
  assert (H3 : Forall (fun data : Mat => (0 < length data)%nat /\
                 Forall (fun v => length v = input_size (small_model true)) data)
                 (batches {| dataset_len := 2; batches := [[[0]]; [[1]]] |})) by shape.
  repeat (split; [assumption|]).
  exact (get_messages_shapes nat counter_normal_ counter_gumbel_softmax
           first_symbol_discretize counter_gumbel_softmax_shape
           first_symbol_discretize_shape (small_model true)
           {| dataset_len := 2; batches := [[[0]]; [[1]]] |} 0%nat 7%nat false
           H1 H2 H3).
Defined.

Lemma get_messages_concat_witness :
  well_formed (small_model true) /\
  Forall (fun data : Mat => (0 < length data)%nat /\
                            Forall (fun v => length v = input_size (small_model true)) data)
         ([[[0]]] ++ [[[1]]]) /\
  exists latent1 message1 latent2 message2,
    get_messages nat counter_normal_ counter_gumbel_softmax first_symbol_discretize
                 (small_model true) {| dataset_len := 1; batches := [[[0]]] |} 0%nat
    = Ok (latent1, message1, 0%nat) /\
    get_messages nat counter_normal_ counter_gumbel_softmax first_symbol_discretize
                 (small_model true) {| dataset_len := 1; batches := [[[1]]] |} 0%nat
    = Ok (latent2, message2, 0%nat) /\
    get_messages nat counter_normal_ counter_gumbel_softmax first_symbol_discretize
                 (small_model true)
                 {| dataset_len := 2; batches := [[[0]]] ++ [[[1]]] |} 0%nat
    = Ok (latent1 ++ latent2, message1 ++ message2, 0%nat).
Proof.
  assert (H1 : well_formed (small_model true)) by apply small_model_well_formed.
  assert (H2 : Forall (fun data : Mat => (0 < length data)%nat /\
                 Forall (fun v => length v = input_size (small_model true)) data)
                 ([[[0]]] ++ [[[1]]])) by shape.
  repeat (split; [assumption|]).
  assert (E1 := get_messages_value nat counter_normal_ counter_gumbel_softmax
                  first_symbol_discretize counter_gumbel_softmax_shape
                  first_symbol_discretize_shape (small_model true)
                  {| dataset_len := 1; batches := [[[0]]] |} 0%nat 0%nat H1
                  ltac:(discriminate) ltac:(shape)).
  assert (E2 := get_messages_value nat counter_normal_ counter_gumbel_softmax
                  first_symbol_discretize counter_gumbel_softmax_shape
                  first_symbol_discretize_shape (small_model true)
                  {| dataset_len := 1; batches := [[[1]]] |} 0%nat 0%nat H1
                  ltac:(discriminate) ltac:(shape)).
  do 4 eexists. split; [exact E1|]. split; [exact E2|].
  exact (get_messages_concat nat counter_normal_ counter_gumbel_softmax
           first_symbol_discretize counter_gumbel_softmax_shape
           first_symbol_discretize_shape (small_model true) 1 1 2
           [[[0]]] [[[1]]] 0%nat _ _ _ _ H1 H2 E1 E2).
Defined.

Lemma get_messages_raises_iff_no_batch_witness :
  well_formed (small_model true) /\
  Forall (fun data : Mat => (0 < length data)%nat /\
                            Forall (fun v => length v = input_size (small_model true)) data)
         (batches {| dataset_len := 0; batches := [] |}) /\
  (get_messages nat counter_normal_ counter_gumbel_softmax first_symbol_discretize
                (small_model true) {| dataset_len := 0; batches := [] |} 0%nat
   = Raise ValueError <->
   (ValueError = ValueError /\ batches {| dataset_len := 0; batches := [] |} = [])).
Proof.
  assert (H1 : well_formed (small_model true)) by apply small_model_well_formed.
  assert (H2 : Forall (fun data : Mat => (0 < length data)%nat /\
                 Forall (fun v => length v = input_size (small_model true)) data)
                 (batches {| dataset_len := 0; batches := [] |})) by shape.
  repeat (split; [assumption|]).
  exact (get_messages_raises_iff_no_batch nat counter_normal_ counter_gumbel_softmax
           first_symbol_discretize counter_gumbel_softmax_shape
           first_symbol_discretize_shape (small_model true)
           {| dataset_len := 0; batches := [] |} 0%nat ValueError H1 H2).
Defined.

Lemma train_never_updates_witness :
  train nat counter_normal_ counter_gumbel_softmax first_symbol_discretize
        unit (fun _ _ => tt) identity_optimizer_step (small_model false)
        {| dataset_len := 1; batches := [[[0]]] |} 1 0 1 0%nat
  = Ok (state_dict (small_model false), 0%nat) /\
  state_dict (small_model false) = state_dict (small_model false) /\ 0%nat = 0%nat /\
  (0%nat = 0%nat \/
   (batches {| dataset_len := 1; batches := [[[0]]] |} = [] /\
    (0 < dataset_len {| dataset_len := 1; batches := [[[0%R]]] |})%nat)).
Proof.
  assert (H : train nat counter_normal_ counter_gumbel_softmax first_symbol_discretize
                unit (fun _ _ => tt) identity_optimizer_step (small_model false)
                {| dataset_len := 1; batches := [[[0]]] |} 1 0 1 0%nat
              = Ok (state_dict (small_model false), 0%nat)).
  { unfold train. destruct (Rle_dec 0 1) as [_ | Hn]; [reflexivity | exfalso; lra]. }
  split; [exact H|].
  exact (train_never_updates nat counter_normal_ counter_gumbel_softmax
           first_symbol_discretize unit (fun _ _ => tt) identity_optimizer_step
           (small_model false) {| dataset_len := 1; batches := [[[0]]] |} 1 0 1
           0%nat 0%nat (state_dict (small_model false)) H).
Defined.

Lemma train_empty_dataset_witness :
  0 <= 1 /\ (0 < 1)%nat /\
  batches {| dataset_len := 0; batches := [] |} = [] /\
  dataset_len {| dataset_len := 0; batches := [] |} = 0%nat /\
  train nat counter_normal_ counter_gumbel_softmax first_symbol_discretize
        unit (fun _ _ => tt) identity_optimizer_step (small_model false)
        {| dataset_len := 0; batches := [] |} 1 1 1 0%nat
  = Raise ZeroDivisionError.
Proof.
  assert (H1 : 0 <= 1) by lra.
  assert (H2 : (0 < 1)%nat) by lia.
  assert (H3 : batches {| dataset_len := 0; batches := [] |} = []) by reflexivity.
  assert (H4 : dataset_len {| dataset_len := 0; batches := [] |} = 0%nat) by reflexivity.
  repeat (split; [assumption|]).
  exact (train_empty_dataset nat counter_normal_ counter_gumbel_softmax
           first_symbol_discretize unit (fun _ _ => tt) identity_optimizer_step
           (small_model false) {| dataset_len := 0; batches := [] |} 1 1 1 0%nat
           H1 H2 H3 H4).
Defined.

Lemma train_first_batch_fails_witness :
  0 <= 1 /\ (0 < 1)%nat /\ well_formed (small_model false) /\
  batches {| dataset_len := 1; batches := [[[0]]] |} = [[0]] :: [] /\
  (0 < length [[0]])%nat /\
  Forall (fun v : Vec => length v = input_size (small_model false)) [[0]] /\
  train nat counter_normal_ counter_gumbel_softmax first_symbol_discretize
        unit (fun _ _ => tt) identity_optimizer_step (small_model false)
        {| dataset_len := 1; batches := [[[0]]] |} 1 1 1 0%nat
  = Raise ValueError.
Proof.
  assert (H1 : 0 <= 1) by lra.
  assert (H2 : (0 < 1)%nat) by lia.
  assert (H3 : well_formed (small_model false)) by apply small_model_well_formed.
  assert (H4 : batches {| dataset_len := 1; batches := [[[0]]] |} = [[0]] :: [])
    by reflexivity.
  assert (H5 : (0 < length [[0]])%nat) by shape.
  assert (H6 : Forall (fun v : Vec => length v = input_size (small_model false)) [[0]])
    by shape.
  repeat (split; [assumption|]).
  exact (train_first_batch_fails nat counter_normal_ counter_gumbel_softmax
           first_symbol_discretize counter_gumbel_softmax_shape
           first_symbol_discretize_shape unit (fun _ _ => tt) identity_optimizer_step
           (small_model false) {| dataset_len := 1; batches := [[[0]]] |} 1 1 1 0%nat
           [[0]] [] H1 H2 H3 H4 H5 H6).
Defined.

Lemma apply_init_weights_keeps_shapes_witness :
  init_shapes (small_model true) /\
  exists self' g',
    apply_init_weights nat counter_kaiming_normal_ (small_model true) 0%nat
    = Ok (self', g') /\
    init_shapes self' /\ zero_biases self' /\
    input_size self' = input_size (small_model true) /\
    word_length self' = word_length (small_model true) /\
    dictionary_size self' = dictionary_size (small_model true) /\
    temperature self' = temperature (small_model true) /\
    training self' = training (small_model true).
Proof.
  assert (H1 : init_shapes (small_model true)) by shape.
  split; [exact H1|].
  exact (apply_init_weights_keeps_shapes nat counter_kaiming_normal_
           counter_kaiming_normal_shape (small_model true) 0%nat H1).
Defined.

Lemma VAE_init_well_formed_witness :
  (0 < 1)%nat /\ (0 < 2)%nat /\
  exists self g',
    VAE_init nat counter_kaiming_normal_ counter_new_Linear counter_new_GRUCell
             1 2 2 1 0%nat = Ok (self, g') /\
    input_size self = 1%nat /\ word_length self = 2%nat /\
    dictionary_size self = 2%nat /\ temperature self = 1 /\ training self = true /\
    init_shapes self /\ zero_biases self /\ well_formed self.
Proof.
  assert (H1 : (0 < 1)%nat) by lia.
  assert (H2 : (0 < 2)%nat) by lia.
  repeat (split; [assumption|]).
  destruct (VAE_init_well_formed nat counter_kaiming_normal_
              counter_kaiming_normal_shape counter_new_Linear counter_new_GRUCell
              counter_new_Linear_shape counter_new_GRUCell_shape 1 2 2 1 0%nat)
    as [self [g' [E [A1 [A2 [A3 [A4 [A5 [A6 [A7 A8]]]]]]]]]].
  exists self, g'. repeat (split; [assumption|]). exact (A8 H1 H2 H2).
Defined.
